(** * DA-RNN: a shallow embedding of the forward passes

    The development follows the two source files of the repository:

    - [da_rnn/torch/model.py]: the classes [Encoder] and [Decoder], whose
      [forward] methods loop explicitly over the time steps;
    - [da_rnn/model.py]: the Keras model [DARNN], which validates [T] and
      delegates to layers of [da_rnn/layers.py] and of the framework.

    Tensors carry their shape and an indexing function into real numbers:
    floating-point rounding is idealised to exact real arithmetic, every
    shape check of the framework is written out and raises the Python
    exception the framework raises.  Python objects are attribute
    dictionaries, so that a read of an attribute that the constructor never
    set raises [AttributeError], and methods run in a state-and-exception
    monad over the receiving object. *)

From Stdlib Require Import String Ascii List ZArith Bool Arith Lia Reals Lra.
From Stdlib Require Import DecimalString FunctionalExtensionality.
Import ListNotations.

(** ** Exceptions and results *)

Inductive exn : Type :=
| AttributeError (cls attr : string)
| UnboundLocalError (name : string)
| IndexError (msg : string)
| RuntimeError (msg : string)
| ValueError (msg : string)
| TypeError (msg : string).

Inductive result (A : Type) : Type :=
| Ok (a : A)
| Err (e : exn).

Arguments Ok {A} a.
Arguments Err {A} e.

Definition rbind {A B : Type} (r : result A) (f : A -> result B) : result B :=
  match r with
  | Ok a => f a
  | Err e => Err e
  end.

Declare Scope result_scope.
Delimit Scope result_scope with result.
Notation "x <- c1 ;; c2" := (rbind c1 (fun x => c2))
  (at level 61, c1 at next level, right associativity) : result_scope.

(** ** Index lists *)

Definition list_set (i : nat) (v : nat) (l : list nat) : list nat :=
  firstn i l ++ match skipn i l with
                | [] => []
                | _ :: rest => v :: rest
                end.

Definition remove_nth (i : nat) (l : list nat) : list nat :=
  firstn i l ++ skipn (S i) l.

Definition insert_nth (i : nat) (v : nat) (l : list nat) : list nat :=
  firstn i l ++ v :: skipn i l.

Fixpoint list_eqb (a b : list nat) : bool :=
  match a, b with
  | [], [] => true
  | x :: a', y :: b' => (x =? y) && list_eqb a' b'
  | _, _ => false
  end.

Fixpoint index_of (j : nat) (l : list nat) : nat :=
  match l with
  | [] => 0
  | x :: l' => if x =? j then 0 else S (index_of j l')
  end.

Definition prod (sh : list nat) : nat := fold_right Nat.mul 1 sh.

(** Row-major position of a multi-index, and its inverse. *)
Fixpoint ravel (sh idx : list nat) : nat :=
  match sh, idx with
  | _ :: sh', i :: idx' => i * prod sh' + ravel sh' idx'
  | _, _ => 0
  end.

Fixpoint unravel (sh : list nat) (k : nat) : list nat :=
  match sh with
  | [] => []
  | _ :: sh' => (k / prod sh') :: unravel sh' (k mod prod sh')
  end.

(** Finite sums of reals, [Rsum n f = f 0 + ... + f (n-1)]. *)
Fixpoint Rsum (n : nat) (f : nat -> R) : R :=
  match n with
  | O => 0%R
  | S k => (Rsum k f + f k)%R
  end.

(** ** Tensors *)

Record tensor : Type := mkTensor {
  shape : list nat;
  data : list nat -> R
}.

Definition rank (t : tensor) : nat := length (shape t).
Definition size (t : tensor) (d : nat) : nat := nth d (shape t) 0.

(** [torch.zeros(sh)] *)
Definition zeros (sh : list nat) : tensor := mkTensor sh (fun _ => 0%R).

(** [t.shape[0]] *)
Definition shape0 (t : tensor) : result nat :=
  match shape t with
  | [] => Err (IndexError "tuple index out of range")
  | d :: _ => Ok d
  end.

(** [torch.cat((a, b), dim)] for two tensors of at least one axis. *)
Definition torch_cat (a b : tensor) (dim : nat) : result tensor :=
  if negb (rank a =? rank b) then
    Err (RuntimeError "Tensors must have same number of dimensions")
  else if negb (dim <? rank a) then
    Err (IndexError "Dimension out of range")
  else if negb (list_eqb (remove_nth dim (shape a)) (remove_nth dim (shape b))) then
    Err (RuntimeError "Sizes of tensors must match except in the cat dimension")
  else
    Ok (mkTensor (list_set dim (size a dim + size b dim) (shape a))
          (fun idx =>
             let k := nth dim idx 0 in
             if k <? size a dim then data a idx
             else data b (list_set dim (k - size a dim) idx))).

(** [dims] is a permutation of [0 .. r-1]. *)
Definition is_permutation (dims : list nat) (r : nat) : bool :=
  (length dims =? r) &&
  forallb (fun j => existsb (Nat.eqb j) dims) (seq 0 r).

(** [t.permute(dims)] *)
Definition permute (t : tensor) (dims : list nat) : result tensor :=
  if negb (is_permutation dims (rank t)) then
    Err (RuntimeError "permute: dims do not match the tensor dimensions")
  else
    Ok (mkTensor (map (size t) dims)
          (fun idx => data t (map (fun j => nth (index_of j dims) idx 0)
                                  (seq 0 (rank t))))).

(** [t.repeat(reps)]: the tensor is tiled [reps_i] times along axis [i];
    missing leading axes of [t] count as axes of size 1. *)
Definition torch_repeat (t : tensor) (reps : list nat) : result tensor :=
  if length reps <? rank t then
    Err (RuntimeError
           "Number of dimensions of repeat dims can not be smaller than number of dimensions of tensor")
  else
    let pad := length reps - rank t in
    let sh := repeat 1 pad ++ shape t in
    Ok (mkTensor (map (fun p => fst p * snd p) (combine sh reps))
          (fun idx =>
             data t (skipn pad (map (fun p => fst p mod snd p) (combine idx sh))))).

(** [t.view(sh)]; the tensors viewed in this program are outputs of a
    linear layer, hence contiguous. *)
Definition view (t : tensor) (sh : list nat) : result tensor :=
  if negb (prod sh =? prod (shape t)) then
    Err (RuntimeError "shape is invalid for input size")
  else
    Ok (mkTensor sh (fun idx => data t (unravel (shape t) (ravel sh idx)))).

(** [torch.tanh(t)] *)
Definition torch_tanh (t : tensor) : tensor :=
  mkTensor (shape t) (fun idx => tanh (data t idx)).

(** The entries of [torch.softmax(t, dim)], with exact real arithmetic. *)
Definition softmax_values (t : tensor) (dim : nat) : list nat -> R :=
  fun idx =>
    (exp (data t idx) /
     Rsum (size t dim) (fun k => exp (data t (list_set dim k idx))))%R.

(** [torch.softmax(t, dim)] *)
Definition torch_softmax (t : tensor) (dim : nat) : result tensor :=
  if negb (dim <? rank t) then
    Err (IndexError "Dimension out of range")
  else
    Ok (mkTensor (shape t) (softmax_values t dim)).

(** [t.unsqueeze(dim)] *)
Definition unsqueeze (t : tensor) (dim : nat) : result tensor :=
  if negb (dim <=? rank t) then
    Err (IndexError "Dimension out of range")
  else
    Ok (mkTensor (insert_nth dim 1 (shape t))
          (fun idx => data t (remove_nth dim idx))).

(** [t.squeeze(dim)]: the axis is dropped only when its size is 1. *)
Definition squeeze (t : tensor) (dim : nat) : result tensor :=
  if negb (dim <? rank t) then
    Err (IndexError "Dimension out of range")
  else if size t dim =? 1 then
    Ok (mkTensor (remove_nth dim (shape t))
          (fun idx => data t (insert_nth dim 0 idx)))
  else Ok t.

(** [t[i]] *)
Definition getitem0 (t : tensor) (i : nat) : result tensor :=
  match shape t with
  | [] => Err (IndexError "invalid index of a 0-dim tensor")
  | d :: sh =>
      if negb (i <? d) then Err (IndexError "index out of range")
      else Ok (mkTensor sh (fun idx => data t (i :: idx)))
  end.

(** [t[:, i, :]] *)
Definition getitem1 (t : tensor) (i : nat) : result tensor :=
  if rank t <? 3 then
    Err (IndexError "too many indices for tensor")
  else if negb (i <? size t 1) then
    Err (IndexError "index out of range")
  else
    Ok (mkTensor (remove_nth 1 (shape t))
          (fun idx => data t (insert_nth 1 i idx))).

(** Broadcasting of two shapes, aligned on the last axis. *)
Fixpoint broadcast_rev (a b : list nat) : option (list nat) :=
  match a, b with
  | [], _ => Some b
  | _, [] => Some a
  | x :: a', y :: b' =>
      match broadcast_rev a' b' with
      | None => None
      | Some r =>
          if x =? y then Some (x :: r)
          else if x =? 1 then Some (y :: r)
          else if y =? 1 then Some (x :: r)
          else None
      end
  end.

Definition broadcast_shapes (a b : list nat) : option (list nat) :=
  option_map (@rev nat) (broadcast_rev (rev a) (rev b)).

(** The index read in an operand of shape [sh] for the index [idx] of the
    broadcast result. *)
Definition broadcast_index (sh idx : list nat) : list nat :=
  map (fun p => if fst p =? 1 then 0 else snd p)
      (combine sh (skipn (length idx - length sh) idx)).

(** [a * b] *)
Definition torch_mul (a b : tensor) : result tensor :=
  match broadcast_shapes (shape a) (shape b) with
  | None => Err (RuntimeError "The size of tensor a must match the size of tensor b")
  | Some sh =>
      Ok (mkTensor sh
            (fun idx => (data a (broadcast_index (shape a) idx) *
                         data b (broadcast_index (shape b) idx))%R))
  end.

(** [t[i] = v] *)
Definition setitem0 (t : tensor) (i : nat) (v : tensor) : result tensor :=
  match shape t with
  | [] => Err (IndexError "invalid index of a 0-dim tensor")
  | d :: sh =>
      if negb (i <? d) then Err (IndexError "index out of range")
      else
        match broadcast_shapes (shape v) sh with
        | Some sh' =>
            if list_eqb sh' sh then
              Ok (mkTensor (shape t)
                    (fun idx =>
                       match idx with
                       | j :: rest =>
                           if j =? i then data v (broadcast_index (shape v) rest)
                           else data t idx
                       | [] => data t idx
                       end))
            else Err (RuntimeError "shape mismatch in assignment")
        | None => Err (RuntimeError "shape mismatch in assignment")
        end
  end.

(** [torch.bmm(a, b)] *)
Definition bmm (a b : tensor) : result tensor :=
  match shape a, shape b with
  | [ba; n; k], [bb; k'; p] =>
      if (ba =? bb) && (k =? k') then
        Ok (mkTensor [ba; n; p]
              (fun idx =>
                 let i := nth 0 idx 0 in
                 let r := nth 1 idx 0 in
                 let c := nth 2 idx 0 in
                 Rsum k (fun l => (data a [i; r; l] * data b [i; l; c])%R)))
      else Err (RuntimeError "batch1 and batch2 have incompatible sizes")
  | _, _ => Err (RuntimeError "batch1 and batch2 must be 3D tensors")
  end.

(** ** Layers of the framework: [torch.nn.Linear] and [torch.nn.LSTM] *)

(** The initial values of the learnable parameters: the initialiser of
    the framework draws them, and the model works for whatever they are.
    [theta name idx] is entry [idx] of the parameter called [name]. *)
Definition initializer : Type := string -> list nat -> R.

Record Linear : Type := mkLinear {
  in_features : nat;
  out_features : nat;
  weight : tensor;          (* shape (out_features, in_features) *)
  bias : option tensor      (* shape (out_features), or absent *)
}.

(** [Linear(in_f, out_f, has_bias)] *)
Definition Linear_new (theta : initializer) (name : string)
    (in_f out_f : nat) (has_bias : bool) : Linear :=
  mkLinear in_f out_f
    (mkTensor [out_f; in_f] (theta (name ++ ".weight")%string))
    (if has_bias then Some (mkTensor [out_f] (theta (name ++ ".bias")%string))
     else None).

(** [l(x)]: the layer acts on the last axis of [x]. *)
Definition Linear_forward (l : Linear) (x : tensor) : result tensor :=
  match shape x with
  | [] => Err (RuntimeError "both arguments to matmul need to be at least 1D")
  | _ :: _ =>
      if negb (last (shape x) 0 =? in_features l) then
        Err (RuntimeError "mat1 and mat2 shapes cannot be multiplied")
      else
        Ok (mkTensor (removelast (shape x) ++ [out_features l])
              (fun idx =>
                 let j := last idx 0 in
                 (Rsum (in_features l)
                    (fun k => data (weight l) [j; k] *
                              data x (removelast idx ++ [k])) +
                  match bias l with
                  | Some b => data b [j]
                  | None => 0
                  end)%R))
  end.

Record LSTM : Type := mkLSTM {
  input_size : nat;
  hidden_size : nat;
  lstm_dropout : R;
  weight_ih_l0 : tensor;    (* shape (4 * hidden_size, input_size) *)
  weight_hh_l0 : tensor;    (* shape (4 * hidden_size, hidden_size) *)
  bias_ih_l0 : tensor;      (* shape (4 * hidden_size) *)
  bias_hh_l0 : tensor       (* shape (4 * hidden_size) *)
}.

(** [LSTM(input_size, hidden_size, dropout=dropout)]: one layer.  The
    framework applies dropout between stacked layers only, so that with one
    layer the value of [dropout] does not enter the computation. *)
Definition LSTM_new (theta : initializer) (name : string)
    (input_sz hidden_sz : nat) (dropout : R) : LSTM :=
  mkLSTM input_sz hidden_sz dropout
    (mkTensor [4 * hidden_sz; input_sz] (theta (name ++ ".weight_ih_l0")%string))
    (mkTensor [4 * hidden_sz; hidden_sz] (theta (name ++ ".weight_hh_l0")%string))
    (mkTensor [4 * hidden_sz] (theta (name ++ ".bias_ih_l0")%string))
    (mkTensor [4 * hidden_sz] (theta (name ++ ".bias_hh_l0")%string)).

Definition sigmoid (x : R) : R := (1 / (1 + exp (- x)))%R.

(** A batch of vectors, indexed by the batch entry and the feature. *)
Definition batch_vec : Type := nat -> nat -> R.

(** Row [j] of the stacked gate pre-activations for batch entry [b]. *)
Definition lstm_gate (l : LSTM) (x h : batch_vec) (b j : nat) : R :=
  (Rsum (input_size l) (fun k => data (weight_ih_l0 l) [j; k] * x b k) +
   data (bias_ih_l0 l) [j] +
   Rsum (hidden_size l) (fun k => data (weight_hh_l0 l) [j; k] * h b k) +
   data (bias_hh_l0 l) [j])%R.

(** One time step; the gates are stacked in the order (i, f, g, o). *)
Definition lstm_cell (l : LSTM) (x : batch_vec) (hc : batch_vec * batch_vec)
    : batch_vec * batch_vec :=
  let H := hidden_size l in
  let h := fst hc in
  let c := snd hc in
  let c' := fun b j =>
    (sigmoid (lstm_gate l x h b (H + j)) * c b j +
     sigmoid (lstm_gate l x h b j) * tanh (lstm_gate l x h b (2 * H + j)))%R in
  (fun b j => (sigmoid (lstm_gate l x h b (3 * H + j)) * tanh (c' b j))%R, c').

(** The state after the first [steps] time steps of [input]. *)
Fixpoint lstm_run (l : LSTM) (input : tensor) (steps : nat)
    (hc0 : batch_vec * batch_vec) : batch_vec * batch_vec :=
  match steps with
  | O => hc0
  | S k => lstm_cell l (fun b j => data input [k; b; j]) (lstm_run l input k hc0)
  end.

(** [l(input, (h0, c0))] returns [(output, (h_n, c_n))]. *)
Definition LSTM_forward (l : LSTM) (input : tensor) (hx : tensor * tensor)
    : result (tensor * (tensor * tensor)) :=
  let h0 := fst hx in
  let c0 := snd hx in
  match shape input with
  | [L; B; F] =>
      if negb (F =? input_size l) then
        Err (RuntimeError "input.size(-1) must be equal to input_size")
      else if negb (list_eqb (shape h0) [1; B; hidden_size l]) then
        Err (RuntimeError "Expected hidden[0] size does not match")
      else if negb (list_eqb (shape c0) [1; B; hidden_size l]) then
        Err (RuntimeError "Expected hidden[1] size does not match")
      else
        let st := fun n =>
          lstm_run l input n
            (fun b j => data h0 [0; b; j], fun b j => data c0 [0; b; j]) in
        Ok (mkTensor [L; B; hidden_size l]
              (fun idx => fst (st (S (nth 0 idx 0))) (nth 1 idx 0) (nth 2 idx 0)),
            (mkTensor [1; B; hidden_size l]
               (fun idx => fst (st L) (nth 1 idx 0) (nth 2 idx 0)),
             mkTensor [1; B; hidden_size l]
               (fun idx => snd (st L) (nth 1 idx 0) (nth 2 idx 0))))
  | _ => Err (RuntimeError "input must have 3 dimensions")
  end.

(** ** Python objects and methods *)

(** The values that the attributes of this program hold.  Its integers
    are tensor sizes, which the framework requires to be non-negative. *)
Inductive value : Type :=
| VInt (n : nat)
| VFloat (r : R)
| VLinear (l : Linear)
| VLSTM (l : LSTM).

Record object : Type := mkObject {
  class_name : string;
  attrs : list (string * value)
}.

Fixpoint attrs_get (name : string) (l : list (string * value)) : option value :=
  match l with
  | [] => None
  | (k, v) :: l' => if String.eqb k name then Some v else attrs_get name l'
  end.

Fixpoint attrs_set (name : string) (v : value) (l : list (string * value))
    : list (string * value) :=
  match l with
  | [] => [(name, v)]
  | (k, x) :: l' =>
      if String.eqb k name then (k, v) :: l' else (k, x) :: attrs_set name v l'
  end.

(** A method body: it reads and writes the attributes of [self] and
    returns a value or raises. *)
Definition M (A : Type) : Type := object -> result A * object.

Definition ret {A : Type} (a : A) : M A := fun self => (Ok a, self).

Definition bind {A B : Type} (m : M A) (f : A -> M B) : M B :=
  fun self =>
    match m self with
    | (Ok a, self') => f a self'
    | (Err e, self') => (Err e, self')
    end.

Definition lift {A : Type} (r : result A) : M A := fun self => (r, self).

Definition raise {A : Type} (e : exn) : M A := fun self => (Err e, self).

Declare Scope method_scope.
Delimit Scope method_scope with method.
Notation "x <- c1 ;; c2" := (bind c1 (fun x => c2))
  (at level 61, c1 at next level, right associativity) : method_scope.
Notation "c1 ;;; c2" := (bind c1 (fun _ => c2))
  (at level 61, right associativity) : method_scope.

(** [self.name] *)
Definition getattr (name : string) : M value :=
  fun self =>
    match attrs_get name (attrs self) with
    | Some v => (Ok v, self)
    | None => (Err (AttributeError (class_name self) name), self)
    end.

(** [self.name = v] *)
Definition setattr (name : string) (v : value) : M unit :=
  fun self => (Ok tt, mkObject (class_name self) (attrs_set name v (attrs self))).

Definition getattr_int (name : string) : M nat :=
  bind (getattr name) (fun v =>
    match v with
    | VInt n => ret n
    | _ => raise (TypeError "an integer is required")
    end).

Definition getattr_float (name : string) : M R :=
  bind (getattr name) (fun v =>
    match v with
    | VFloat r => ret r
    | VInt n => ret (INR n)
    | _ => raise (TypeError "a number is required")
    end).

Definition getattr_Linear (name : string) : M Linear :=
  bind (getattr name) (fun v =>
    match v with
    | VLinear l => ret l
    | _ => raise (TypeError "object is not callable")
    end).

Definition getattr_LSTM (name : string) : M LSTM :=
  bind (getattr name) (fun v =>
    match v with
    | VLSTM l => ret l
    | _ => raise (TypeError "object is not callable")
    end).

(** [for t in ts: s = body(t, s)] *)
Fixpoint for_each {S : Type} (ts : list nat) (body : nat -> S -> M S) (s : S)
    : M S :=
  match ts with
  | [] => ret s
  | t :: ts' => bind (body t s) (for_each ts' body)
  end.

(** [range(k)] *)
Definition range (k : nat) : list nat := seq 0 k.

(** [super().__init__()] of [torch.nn.Module]: the object starts with no
    attribute of its own. *)
Definition Module_init : M unit :=
  fun self => (Ok tt, mkObject (class_name self) []).

(** A read of a local variable that is bound only inside a loop. *)
Definition read_local (name : string) (v : option tensor) : M tensor :=
  match v with
  | Some t => ret t
  | None => raise (UnboundLocalError name)
  end.

Local Open Scope method_scope.

(** ** [da_rnn/torch/model.py]: class [Encoder] *)

(** [Encoder.__init__(self, n, T, m, dropout=0)] *)
Definition Encoder_init (theta : initializer) (n T m : nat) (dropout : R)
    : M unit :=
  Module_init ;;;
  setattr "n" (VInt n) ;;;
  setattr "T" (VInt T) ;;;
  setattr "m" (VInt m) ;;;
  setattr "dropout" (VFloat dropout) ;;;
  setattr "WU_e" (VLinear (Linear_new theta "WU_e" (m * 2 + T) T false)) ;;;
  setattr "v_e" (VLinear (Linear_new theta "v_e" T 1 false)) ;;;
  n' <- getattr_int "n" ;;
  m' <- getattr_int "m" ;;
  d <- getattr_float "dropout" ;;
  setattr "lstm" (VLSTM (LSTM_new theta "lstm" n' m' d)).

(** [Encoder(n, T, m, dropout)] *)
Definition Encoder (theta : initializer) (n T m : nat) (dropout : R) : object :=
  snd (Encoder_init theta n T m dropout (mkObject "Encoder" [])).

(** The variables that the loop of [Encoder.forward] updates. *)
Record Encoder_locals : Type := mkEncoderLocals {
  enc_hidden_state : tensor;
  enc_cell_state : tensor;
  X_encoded_acc : tensor
}.

(** Equations 8 and 9: the input attention weights [Alpha_t] of one
    iteration. *)
Definition Encoder_attention (X : tensor) (batch_size : nat)
    (hidden_state cell_state : tensor) : M tensor :=
  (* [h_t-1; s_t-1] *)
  hs <- lift (torch_cat hidden_state cell_state 2) ;;
  hs <- lift (permute hs [1; 0; 2]) ;;
  n <- getattr_int "n" ;;
  hs <- lift (torch_repeat hs [1; n; 1]) ;;
  linear <- getattr_Linear "linear" ;;
  Xp <- lift (permute X [0; 2; 1]) ;;
  z <- lift (torch_cat hs Xp 2) ;;
  z <- lift (Linear_forward linear z) ;;
  let tanh_ := torch_tanh z in
  (* Equation 8 *)
  v_e <- getattr_Linear "v_e" ;;
  e <- lift (Linear_forward v_e tanh_) ;;
  n <- getattr_int "n" ;;
  E <- lift (view e [batch_size; n]) ;;
  (* Equation 9 *)
  lift (torch_softmax E 1).

(** The rest of an iteration: the recurrent cell is fed the attended
    input, and its hidden state is recorded as [X_encoded[t]]. *)
Definition Encoder_update (X : tensor) (t : nat) (st : Encoder_locals)
    (Alpha_t : tensor) : M Encoder_locals :=
  lstm <- getattr_LSTM "lstm" ;;
  Xt <- lift (getitem1 X t) ;;
  xa <- lift (torch_mul Xt Alpha_t) ;;
  inp <- lift (unsqueeze xa 0) ;;
  out <- lift (LSTM_forward lstm inp (enc_hidden_state st, enc_cell_state st)) ;;
  let hidden_state := fst (snd out) in
  let cell_state := snd (snd out) in
  h0 <- lift (getitem0 hidden_state 0) ;;
  X_encoded <- lift (setitem0 (X_encoded_acc st) t h0) ;;
  ret (mkEncoderLocals hidden_state cell_state X_encoded).

(** The body of [for t in range(self.T)] in [Encoder.forward]. *)
Definition Encoder_step (X : tensor) (batch_size : nat) (t : nat)
    (st : Encoder_locals) : M Encoder_locals :=
  Alpha_t <- Encoder_attention X batch_size
               (enc_hidden_state st) (enc_cell_state st) ;;
  Encoder_update X t st Alpha_t.

(** The local variables of [Encoder.forward] when the loop is entered. *)
Definition Encoder_enter (X : tensor) : M (nat * Encoder_locals) :=
  batch_size <- lift (shape0 X) ;;
  m <- getattr_int "m" ;;
  let hidden_state := zeros [1; batch_size; m] in
  m <- getattr_int "m" ;;
  let cell_state := zeros [1; batch_size; m] in
  T <- getattr_int "T" ;;
  m <- getattr_int "m" ;;
  let X_encoded := zeros [T; batch_size; m] in
  ret (batch_size, mkEncoderLocals hidden_state cell_state X_encoded).

(** [Encoder.forward(self, X)] *)
Definition Encoder_forward (X : tensor) : M tensor :=
  e <- Encoder_enter X ;;
  T <- getattr_int "T" ;;
  st <- for_each (range T) (Encoder_step X (fst e)) (snd e) ;;
  ret (X_encoded_acc st).

(** ** [da_rnn/torch/model.py]: class [Decoder] *)

(** [Decoder.__init__(self, n, T, m, p, y_dim, dropout)] *)
Definition Decoder_init (theta : initializer) (n T m p y_dim : nat) (dropout : R)
    : M unit :=
  Module_init ;;;
  setattr "n" (VInt n) ;;;
  setattr "T" (VInt T) ;;;
  setattr "m" (VInt m) ;;;
  setattr "p" (VInt p) ;;;
  setattr "y_dim" (VInt y_dim) ;;;
  setattr "dropout" (VFloat dropout) ;;;
  setattr "WU_d" (VLinear (Linear_new theta "WU_d" (p * 2 + m) m false)) ;;;
  setattr "v_d" (VLinear (Linear_new theta "v_d" m 1 false)) ;;;
  setattr "linear" (VLinear (Linear_new theta "linear" (y_dim + m) 1 false)) ;;;
  d <- getattr_float "dropout" ;;
  setattr "lstm" (VLSTM (LSTM_new theta "lstm" 1 p d)) ;;;
  setattr "Wb" (VLinear (Linear_new theta "Wb" (p + m) p true)) ;;;
  setattr "vb" (VLinear (Linear_new theta "vb" p y_dim true)).

(** [Decoder(n, T, m, p, y_dim, dropout)] *)
Definition Decoder (theta : initializer) (n T m p y_dim : nat) (dropout : R)
    : object :=
  snd (Decoder_init theta n T m p y_dim dropout (mkObject "Decoder" [])).

(** The variables that the loop of [Decoder.forward] updates;
    [context_vector] is bound by the first iteration. *)
Record Decoder_locals : Type := mkDecoderLocals {
  dec_hidden_state : tensor;
  dec_cell_state : tensor;
  context_vector : option tensor
}.

(** Equations 12 to 14: the temporal attention weights [Beta_t] and the
    context vector of one iteration. *)
Definition Decoder_attention (X_encoded : tensor) (batch_size : nat)
    (hidden_state cell_state : tensor) : M (tensor * tensor) :=
  (* Equation 12 *)
  v_d <- getattr_Linear "v_d" ;;
  WU_d <- getattr_Linear "WU_d" ;;
  hc <- lift (torch_cat hidden_state cell_state 2) ;;
  hc <- lift (permute hc [1; 0; 2]) ;;
  T <- getattr_int "T" ;;
  hc <- lift (torch_repeat hc [1; T; 1]) ;;
  Xp <- lift (permute X_encoded [1; 0; 2]) ;;
  z <- lift (torch_cat hc Xp 2) ;;
  z <- lift (Linear_forward WU_d z) ;;
  z <- lift (Linear_forward v_d (torch_tanh z)) ;;
  T <- getattr_int "T" ;;
  l <- lift (view z [batch_size; T]) ;;
  (* Equation 13 *)
  Beta_t <- lift (torch_softmax l 1) ;;
  (* Equation 14 *)
  b <- lift (unsqueeze Beta_t 1) ;;
  Xp <- lift (permute X_encoded [1; 0; 2]) ;;
  c <- lift (bmm b Xp) ;;
  context_vector <- lift (squeeze c 1) ;;
  ret (Beta_t, context_vector).

(** Equations 15 and 16: the input [y_tilde] of the recurrent cell and
    the new hidden and cell states. *)
Definition Decoder_update (Y : tensor) (t : nat)
    (hidden_state cell_state context_vector : tensor) : M (tensor * tensor) :=
  (* Equation 15 *)
  linear <- getattr_Linear "linear" ;;
  Yt <- lift (getitem1 Y t) ;;
  yc <- lift (torch_cat Yt context_vector 1) ;;
  y_tilde <- lift (Linear_forward linear yc) ;;
  (* Equation 16 *)
  lstm <- getattr_LSTM "lstm" ;;
  inp <- lift (unsqueeze y_tilde 0) ;;
  out <- lift (LSTM_forward lstm inp (hidden_state, cell_state)) ;;
  ret (snd out).

(** The body of [for t in range(self.T - 1)] in [Decoder.forward]. *)
Definition Decoder_step (Y X_encoded : tensor) (batch_size : nat) (t : nat)
    (st : Decoder_locals) : M Decoder_locals :=
  bc <- Decoder_attention X_encoded batch_size
          (dec_hidden_state st) (dec_cell_state st) ;;
  hc <- Decoder_update Y t (dec_hidden_state st) (dec_cell_state st) (snd bc) ;;
  ret (mkDecoderLocals (fst hc) (snd hc) (Some (snd bc))).

(** Equation 22, after the loop. *)
Definition Decoder_output (st : Decoder_locals) : M tensor :=
  vb <- getattr_Linear "vb" ;;
  Wb <- getattr_Linear "Wb" ;;
  h <- lift (squeeze (dec_hidden_state st) 0) ;;
  c <- read_local "context_vector" (context_vector st) ;;
  hc <- lift (torch_cat h c 1) ;;
  z <- lift (Linear_forward Wb hc) ;;
  lift (Linear_forward vb z).

(** The local variables of [Decoder.forward] when the loop is entered. *)
Definition Decoder_enter (Y : tensor) : M (nat * Decoder_locals) :=
  batch_size <- lift (shape0 Y) ;;
  p <- getattr_int "p" ;;
  let hidden_state := zeros [1; batch_size; p] in
  p <- getattr_int "p" ;;
  let cell_state := zeros [1; batch_size; p] in
  ret (batch_size, mkDecoderLocals hidden_state cell_state None).

(** [Decoder.forward(self, Y, X_encoded)].  The subtraction [T - 1] is
    truncated at 0; Python's [range(-1)] for [T = 0] is empty as well. *)
Definition Decoder_forward (Y X_encoded : tensor) : M tensor :=
  e <- Decoder_enter Y ;;
  T <- getattr_int "T" ;;
  st <- for_each (range (T - 1)) (Decoder_step Y X_encoded (fst e)) (snd e) ;;
  Decoder_output st.

(** The forecast of section 2 of the specification: [Encoder.forward]
    followed by [Decoder.forward] on the encoder's output. *)
Definition forward_pass (X Y : tensor) (enc dec : object)
    : result tensor * (object * object) :=
  match Encoder_forward X enc with
  | (Ok X_encoded, enc') =>
      (fst (Decoder_forward Y X_encoded dec),
       (enc', snd (Decoder_forward Y X_encoded dec)))
  | (Err e, enc') => (Err e, (enc', dec))
  end.

(** A sequence of calls of one method on one object: the results in
    order, and the object after the last call. *)
Fixpoint call_all {A B : Type} (f : A -> M B) (inputs : list A) (self : object)
    : list (result B) * object :=
  match inputs with
  | [] => ([], self)
  | x :: rest =>
      let r := f x self in
      let rs := call_all f rest (snd r) in
      (fst r :: fst rs, snd rs)
  end.

Local Close Scope method_scope.

(** ** [da_rnn/model.py]: class [DARNN] *)

(** [tf.zeros(dims)] *)
Definition tf_zeros (dims : list Z) : result tensor :=
  if forallb (fun d => (0 <=? d)%Z) dims then Ok (zeros (map Z.to_nat dims))
  else Err (ValueError "Dimension must be >= 0").

(** The index of the operand of [tf.squeeze] that an index of its result
    stands for: 0 on every axis of size 1. *)
Fixpoint squeeze_index (sh idx : list nat) : list nat :=
  match sh with
  | [] => []
  | d :: sh' =>
      if d =? 1 then 0 :: squeeze_index sh' idx
      else match idx with
           | i :: idx' => i :: squeeze_index sh' idx'
           | [] => 0 :: squeeze_index sh' []
           end
  end.

(** [tf.squeeze(t)]: every axis of size 1 is removed. *)
Definition tf_squeeze (t : tensor) : tensor :=
  mkTensor (filter (fun d => negb (d =? 1)) (shape t))
    (fun idx => data t (squeeze_index (shape t) idx)).

(** The decimal numeral that an f-string prints for an integer. *)
Definition str (z : Z) : string := NilZero.string_of_int (Z.to_int z).

Section DARNN.

Local Open Scope result_scope.

(** The layers [EncoderInput] and [Decoder] come from [da_rnn/layers.py]
    and [LSTM] from [tensorflow.keras.layers]; their code is not among the
    sources, so that their constructors and their call methods are taken
    as they come. *)
Variables EncoderInput_layer LSTM_layer Decoder_layer : Type.
Variable layers_EncoderInput : Z -> Z -> result EncoderInput_layer.
Variable keras_LSTM : Z -> bool -> result LSTM_layer.
Variable layers_Decoder : Z -> Z -> Z -> result Decoder_layer.
Variable EncoderInput_call :
  EncoderInput_layer -> tensor -> tensor -> tensor -> result tensor.
Variable LSTM_call : LSTM_layer -> tensor -> result tensor.
Variable Decoder_call :
  Decoder_layer -> tensor -> tensor -> tensor -> tensor -> result tensor.

Record DARNN : Type := mkDARNN {
  DARNN_m : Z;
  encoder_input : EncoderInput_layer;
  encoder_lstm : LSTM_layer;
  decoder : Decoder_layer
}.

(** [DARNN.__init__(self, T, m, p)]; the call of the constructor of the
    Keras base class, which only names the model, is left out. *)
Definition DARNN_init (T m p : Z) : result DARNN :=
  if (T <? 2)%Z then
    Err (ValueError
           ("T must be an integer larger than 1, but got `" ++ str T ++ "`"))
  else
    encoder_input <- layers_EncoderInput T m ;;
    encoder_lstm <- keras_LSTM m true ;;
    decoder <- layers_Decoder T m p ;;
    Ok (mkDARNN m encoder_input encoder_lstm decoder).

(** [DARNN.call(self, inputs)] *)
Definition DARNN_call (self : DARNN) (inputs : tensor * tensor)
    : result tensor :=
  let X := fst inputs in
  let dec_data := snd inputs in
  batch_size <- shape0 X ;;
  h0 <- tf_zeros [Z.of_nat batch_size; DARNN_m self] ;;
  s0 <- tf_zeros [Z.of_nat batch_size; DARNN_m self] ;;
  X_tilde <- EncoderInput_call (encoder_input self) X h0 s0 ;;
  (* Equation 11 *)
  encoder_h <- LSTM_call (encoder_lstm self) X_tilde ;;
  y_hat_T <- Decoder_call (decoder self) dec_data encoder_h h0 s0 ;;
  Ok (tf_squeeze y_hat_T).

End DARNN.

Arguments mkDARNN {_ _ _} _ _ _ _.
Arguments DARNN_m {_ _ _} _.
Arguments encoder_input {_ _ _} _.
Arguments encoder_lstm {_ _ _} _.
Arguments decoder {_ _ _} _.
Arguments DARNN_init {_ _ _} _ _ _ _ _ _.
Arguments DARNN_call {_ _ _} _ _ _ _ _.

(** * Vocabulary of the properties *)

(** A method is read-only when it leaves its object as it found it,
    whether it returns or raises. *)
Definition readonly {A : Type} (m : M A) : Prop :=
  forall self, snd (m self) = self.

(** A result that is the exception of a read of an unbound local
    variable. *)
Definition raises_UnboundLocalError {A : Type} (r : result A) : Prop :=
  exists name, r = Err (UnboundLocalError name).

(** A method is bound-safe when it never raises [UnboundLocalError]. *)
Definition bound_safe {A : Type} (m : M A) : Prop :=
  forall self, ~ raises_UnboundLocalError (fst (m self)).

(** A tensor of shape (rows, cols) holds a probability distribution along
    its second axis: entries are non-negative and every row sums to 1. *)
Definition distribution (rows cols : nat) (t : tensor) : Prop :=
  shape t = [rows; cols] /\
  (forall b j, (0 <= data t [b; j])%R) /\
  (forall b, Rsum cols (fun j => data t [b; j]) = 1%R).

(** The shapes that the loop of [Decoder.forward] maintains, for a
    decoder of hidden size [p] on encoder states of size [m]. *)
Definition Decoder_state_ok (p B : nat) (st : Decoder_locals) : Prop :=
  shape (dec_hidden_state st) = [1; B; p] /\
  shape (dec_cell_state st) = [1; B; p].

Definition context_ok (m B : nat) (st : Decoder_locals) : Prop :=
  exists ctx, context_vector st = Some ctx /\ shape ctx = [B; m].

(** The bounds that the loop of [Decoder.forward] maintains after [k]
    iterations: hidden entries lie in (-1, 1), cell entries in [-k, k]. *)
Definition Decoder_state_bounded (k : nat) (st : Decoder_locals) : Prop :=
  (forall idx, (Rabs (data (dec_hidden_state st) idx) < 1)%R) /\
  (forall idx, (Rabs (data (dec_cell_state st) idx) <= INR k)%R).

(** [Y[:, :k]] for [k] within the time axis of [Y]. *)
Definition narrow1 (Y : tensor) (k : nat) : tensor :=
  mkTensor (list_set 1 k (shape Y)) (data Y).

(** The shape of the tensor that a call returns, or its exception. *)
Definition outcome (r : result tensor * object) : result (list nat) :=
  match fst r with
  | Ok t => Ok (shape t)
  | Err e => Err e
  end.

(** A target history of 7 steps for a batch of two, with [Y[b, t, 0] = t]. *)
Definition long_Y : tensor :=
  mkTensor [2; 7; 1] (fun idx => INR (nth 1 idx 0)).

(** Parameter values for the concrete scenarios: every weight and bias
    is 1. *)
Definition theta1 : initializer := fun _ _ => 1%R.

(** An encoder on which [linear] has been bound to a projection of the
    sizes of [WU_e], for the scenario n = 3, T = 5, m = 4. *)
Definition Encoder_with_linear : object :=
  snd (setattr "linear"
         (VLinear (Linear_new theta1 "linear" (4 * 2 + 5) 5 false))
         (Encoder theta1 3 5 4 0%R)).

(** ** One batch entry at a time

    The computation of [Decoder.forward] read for a single batch entry:
    vectors are functions from positions to reals, the hidden and cell states
    [h] and [c] have [p] positions, and [xe k] is the encoder state of time
    step [k]. *)

(** [l(x)] for one vector [x]: entry [o] of the result. *)
Definition Linear_apply (l : Linear) (x : nat -> R) (o : nat) : R :=
  (Rsum (in_features l) (fun k => data (weight l) [o; k] * x k) +
   match bias l with
   | Some b => data b [o]
   | None => 0
   end)%R.

(** The concatenation of a vector [a] of [na] positions and a vector [b]. *)
Definition cat_vec (na : nat) (a b : nat -> R) : nat -> R :=
  fun k => if k <? na then a k else b (k - na).

(** Equation 12 for one batch entry and one encoder time step. *)
Definition sample_score (WU_d v_d : Linear) (p : nat) (h c x_k : nat -> R) : R :=
  Linear_apply v_d
    (fun j => tanh (Linear_apply WU_d (cat_vec (p + p) (cat_vec p h c) x_k) j)) 0.

(** Equation 13 for one batch entry. *)
Definition sample_beta (WU_d v_d : Linear) (p T : nat) (h c : nat -> R)
    (xe : nat -> nat -> R) (k : nat) : R :=
  (exp (sample_score WU_d v_d p h c (xe k)) /
   Rsum T (fun k' => exp (sample_score WU_d v_d p h c (xe k'))))%R.

(** Equation 14 for one batch entry. *)
Definition sample_context (WU_d v_d : Linear) (p T : nat) (h c : nat -> R)
    (xe : nat -> nat -> R) (j : nat) : R :=
  Rsum T (fun k => (sample_beta WU_d v_d p T h c xe k * xe k j)%R).

(** Equations 15 and 16 for one batch entry: the new hidden and cell
    states. *)
Definition sample_update (linear : Linear) (lstm : LSTM) (y_dim : nat)
    (y_t ctx h c : nat -> R) : (nat -> R) * (nat -> R) :=
  let y_tilde := Linear_apply linear (cat_vec y_dim y_t ctx) in
  let hc := lstm_cell lstm (fun _ k => y_tilde k) (fun _ => h, fun _ => c) in
  (fst hc 0, snd hc 0).

(** The hidden state, the cell state and the context vector of one
    batch entry. *)
Record sample_locals : Type := mkSampleLocals {
  s_hidden : nat -> R;
  s_cell : nat -> R;
  s_context : nat -> R
}.

(** The loop of [Decoder.forward] for one batch entry with target
    history [y] and encoder states [xe], after [steps] iterations. *)
Fixpoint sample_loop (theta : initializer) (T m p y_dim : nat) (dropout : R)
    (y xe : nat -> nat -> R) (steps : nat) : sample_locals :=
  match steps with
  | O => mkSampleLocals (fun _ => 0%R) (fun _ => 0%R) (fun _ => 0%R)
  | S t =>
      let st := sample_loop theta T m p y_dim dropout y xe t in
      let ctx :=
        sample_context (Linear_new theta "WU_d" (p * 2 + m) m false)
          (Linear_new theta "v_d" m 1 false) p T (s_hidden st) (s_cell st) xe in
      let hc :=
        sample_update (Linear_new theta "linear" (y_dim + m) 1 false)
          (LSTM_new theta "lstm" 1 p dropout) y_dim (y t) ctx
          (s_hidden st) (s_cell st) in
      mkSampleLocals (fst hc) (snd hc) ctx
  end.

(** Equation 22 for one batch entry, after [T - 1] iterations. *)
Definition sample_forward (theta : initializer) (T m p y_dim : nat) (dropout : R)
    (y xe : nat -> nat -> R) (i : nat) : R :=
  let st := sample_loop theta T m p y_dim dropout y xe (T - 1) in
  Linear_apply (Linear_new theta "vb" p y_dim true)
    (Linear_apply (Linear_new theta "Wb" (p + m) p true)
       (cat_vec p (s_hidden st) (s_context st))) i.

(** The states of a batch after [k] iterations are those of its entries:
    row [b] of the hidden state, of the cell state and, once the loop has
    run, of the context vector are the states of [sample_loop] for
    entry [b]. *)
Definition entries_agree (theta : initializer) (T m p y_dim : nat) (dropout : R)
    (Y Xe : tensor) (B k : nat) (st : Decoder_locals) : Prop :=
  forall b, b < B ->
    let s := sample_loop theta T m p y_dim dropout
               (fun t q => data Y [b; t; q]) (fun i q => data Xe [i; b; q]) k in
    (fun q => data (dec_hidden_state st) [0; b; q]) = s_hidden s /\
    (fun q => data (dec_cell_state st) [0; b; q]) = s_cell s /\
    (1 <= k ->
     exists ctx, context_vector st = Some ctx /\
                 (fun q => data ctx [b; q]) = s_context s).

(** Modelled from the spec: the layers [EncoderInput] and [Decoder] of
    [da_rnn/layers.py] and the Keras [LSTM] layer are not among the
    sources.  These stand-ins, for the concrete scenarios only, keep the
    shapes of sections 3 and 4 of the specification: the transformed input
    has the shape (batch, T, n) of [X], the encoder states have shape
    (batch, T, m), and the prediction has shape (batch, y_dim) with
    [y_dim = 1]; the constructors succeed, and all entries are zero.  A
    built [LSTM] layer is represented by its number of units. *)
Definition spec_layers_EncoderInput (T m : Z) : result unit := Ok tt.

Definition spec_keras_LSTM (m : Z) (return_sequences : bool) : result nat :=
  Ok (Z.to_nat m).

Definition spec_layers_Decoder (T m p : Z) : result unit := Ok tt.

Definition spec_EncoderInput_call (layer : unit) (X h0 s0 : tensor)
    : result tensor :=
  Ok (zeros (shape X)).

Definition spec_LSTM_call (units : nat) (X_tilde : tensor) : result tensor :=
  Ok (zeros [size X_tilde 0; size X_tilde 1; units]).

Definition spec_Decoder_call (layer : unit) (dec_data encoder_h h0 s0 : tensor)
    : result tensor :=
  Ok (zeros [size dec_data 0; 1]).

(** * Properties *)

(** ** Concrete runs *)

(** The end-to-end scenario of the specification, n = 3, T = 5, m = 4,
    p = 4, y_dim = 1 and a batch of two windows. *)
Example Encoder_forward_scenario :
  outcome (Encoder_forward (zeros [2; 5; 3]) (Encoder theta1 3 5 4 0%R)) =
  Err (AttributeError "Encoder" "linear").
Proof. reflexivity. Qed.

(** With [linear] bound, the rest of the loop body runs, and the result
    has the documented shape (T, batch, m). *)
Example Encoder_with_linear_scenario :
  outcome (Encoder_forward (zeros [2; 5; 3]) Encoder_with_linear) =
  Ok [5; 2; 4].
Proof. reflexivity. Qed.

Example Encoder_with_linear_wrong_n :
  outcome (Encoder_forward (zeros [2; 5; 4]) Encoder_with_linear) =
  Err (RuntimeError "Sizes of tensors must match except in the cat dimension").
Proof. reflexivity. Qed.

Example Decoder_forward_scenario :
  outcome (Decoder_forward (zeros [2; 4; 1]) (zeros [5; 2; 4])
             (Decoder theta1 3 5 4 4 1 0%R)) = Ok [2; 1].
Proof. reflexivity. Qed.

Example Decoder_forward_long_Y :
  outcome (Decoder_forward long_Y (zeros [5; 2; 4])
             (Decoder theta1 3 5 4 4 1 0%R)) = Ok [2; 1].
Proof. reflexivity. Qed.

Example Decoder_forward_short_Y_scenario :
  outcome (Decoder_forward (zeros [2; 3; 1]) (zeros [5; 2; 4])
             (Decoder theta1 3 5 4 4 1 0%R)) =
  Err (IndexError "index out of range").
Proof. reflexivity. Qed.

Example Decoder_forward_wrong_y_dim :
  outcome (Decoder_forward (zeros [2; 4; 2]) (zeros [5; 2; 4])
             (Decoder theta1 3 5 4 4 1 0%R)) =
  Err (RuntimeError "mat1 and mat2 shapes cannot be multiplied").
Proof. reflexivity. Qed.

Example Decoder_forward_wrong_T :
  outcome (Decoder_forward (zeros [2; 4; 1]) (zeros [4; 2; 4])
             (Decoder theta1 3 5 4 4 1 0%R)) =
  Err (RuntimeError "Sizes of tensors must match except in the cat dimension").
Proof. reflexivity. Qed.

Example Decoder_forward_T_1 :
  outcome (Decoder_forward (zeros [2; 0; 1]) (zeros [1; 2; 4])
             (Decoder theta1 3 1 4 4 1 0%R)) =
  Err (UnboundLocalError "context_vector").
Proof. reflexivity. Qed.

Example Encoder_attributes :
  map fst (attrs (Encoder theta1 3 5 4 0%R)) =
  ["n"; "T"; "m"; "dropout"; "WU_e"; "v_e"; "lstm"]%string.
Proof. reflexivity. Qed.

Example tf_squeeze_2_1 : shape (tf_squeeze (zeros [2; 1])) = [2].
Proof. reflexivity. Qed.

Example tf_squeeze_1_1 : shape (tf_squeeze (zeros [1; 1])) = [].
Proof. reflexivity. Qed.

(** Entries of the results of the index operations, on a (2, 3, 4)
    tensor. *)
Example permute_entries (f : list nat -> R) (i j k : nat) :
  option_map (fun t => data t [i; j; k])
    (match permute (mkTensor [2; 3; 4] f) [1; 0; 2] with
     | Ok t => Some t
     | Err _ => None
     end) = Some (f [j; i; k]).
Proof. reflexivity. Qed.

Example torch_cat_entries (f g : list nat -> R) :
  option_map (fun t => (shape t, data t [1; 2; 3], data t [1; 2; 5]))
    (match torch_cat (mkTensor [2; 3; 4] f) (mkTensor [2; 3; 2] g) 2 with
     | Ok t => Some t
     | Err _ => None
     end) = Some ([2; 3; 6], f [1; 2; 3], g [1; 2; 1]).
Proof. reflexivity. Qed.

Example torch_repeat_entries (f : list nat -> R) :
  option_map (fun t => (shape t, data t [1; 4; 3]))
    (match torch_repeat (mkTensor [2; 1; 4] f) [1; 5; 1] with
     | Ok t => Some t
     | Err _ => None
     end) = Some ([2; 5; 4], f [1; 0; 3]).
Proof. reflexivity. Qed.

Example view_entries (f : list nat -> R) :
  option_map (fun t => (shape t, data t [1; 2]))
    (match view (mkTensor [2; 3; 1] f) [2; 3] with
     | Ok t => Some t
     | Err _ => None
     end) = Some ([2; 3], f [1; 2; 0]).
Proof. reflexivity. Qed.

Example getitem_entries (f : list nat -> R) :
  option_map (fun t => (shape t, data t [1; 3]))
    (match getitem1 (mkTensor [2; 3; 4] f) 2 with
     | Ok t => Some t
     | Err _ => None
     end) = Some ([2; 4], f [1; 2; 3]).
Proof. reflexivity. Qed.

(** ** The monad of methods *)

Lemma bind_Ok {A B : Type} (m : M A) (f : A -> M B) self a self' :
  m self = (Ok a, self') -> bind m f self = f a self'.
Proof. intros H. unfold bind. rewrite H. reflexivity. Qed.

Lemma bind_Err {A B : Type} (m : M A) (f : A -> M B) self e self' :
  m self = (Err e, self') -> bind m f self = (Err e, self').
Proof. intros H. unfold bind. rewrite H. reflexivity. Qed.

Lemma bind_lift_Ok {A B : Type} (r : result A) (f : A -> M B) self a :
  r = Ok a -> bind (lift r) f self = f a self.
Proof. intros ->. reflexivity. Qed.

Lemma bind_lift_Err {A B : Type} (r : result A) (f : A -> M B) self e :
  r = Err e -> bind (lift r) f self = (Err e, self).
Proof. intros ->. reflexivity. Qed.

Lemma bind_assoc {A B C : Type} (m : M A) (f : A -> M B) (g : B -> M C) self :
  bind (bind m f) g self = bind m (fun a => bind (f a) g) self.
Proof.
  unfold bind. destruct (m self) as [[a|e] self']; reflexivity.
Qed.

Lemma bind_ext {A B : Type} (m : M A) (f g : A -> M B) self :
  (forall a self', f a self' = g a self') -> bind m f self = bind m g self.
Proof.
  intros H. unfold bind. destruct (m self) as [[a|e] self']; auto.
Qed.

Lemma for_each_app {S : Type} (ts1 ts2 : list nat) (body : nat -> S -> M S) s self :
  for_each (ts1 ++ ts2) body s self =
  bind (for_each ts1 body s) (for_each ts2 body) self.
Proof.
  revert s self. induction ts1 as [|t ts1 IH]; intros s self; simpl.
  - reflexivity.
  - rewrite bind_assoc. apply bind_ext. intros a self'. apply IH.
Qed.

Lemma range_S k : range (S k) = range k ++ [k].
Proof. unfold range. rewrite seq_S. reflexivity. Qed.

Lemma readonly_ret {A : Type} (a : A) : readonly (ret a).
Proof. intros self. reflexivity. Qed.

Lemma readonly_lift {A : Type} (r : result A) : readonly (lift r).
Proof. intros self. reflexivity. Qed.

Lemma readonly_raise {A : Type} (e : exn) : readonly (@raise A e).
Proof. intros self. reflexivity. Qed.

Lemma readonly_bind {A B : Type} (m : M A) (f : A -> M B) :
  readonly m -> (forall a, readonly (f a)) -> readonly (bind m f).
Proof.
  intros Hm Hf self. unfold bind. specialize (Hm self).
  destruct (m self) as [[a|e] self']; simpl in Hm; subst self'.
  - apply Hf.
  - reflexivity.
Qed.

Lemma readonly_getattr name : readonly (getattr name).
Proof.
  intros self. unfold getattr. destruct (attrs_get name (attrs self)); reflexivity.
Qed.

Lemma readonly_getattr_int name : readonly (getattr_int name).
Proof.
  apply readonly_bind; [apply readonly_getattr|].
  intros [| | |]; first [apply readonly_ret | apply readonly_raise].
Qed.

Lemma readonly_getattr_Linear name : readonly (getattr_Linear name).
Proof.
  apply readonly_bind; [apply readonly_getattr|].
  intros [| | |]; first [apply readonly_ret | apply readonly_raise].
Qed.

Lemma readonly_getattr_LSTM name : readonly (getattr_LSTM name).
Proof.
  apply readonly_bind; [apply readonly_getattr|].
  intros [| | |]; first [apply readonly_ret | apply readonly_raise].
Qed.

Lemma readonly_read_local name v : readonly (read_local name v).
Proof. destruct v; [apply readonly_ret | apply readonly_raise]. Qed.

Lemma readonly_for_each {S : Type} ts (body : nat -> S -> M S) s :
  (forall t s', readonly (body t s')) -> readonly (for_each ts body s).
Proof.
  intros Hb. revert s. induction ts as [|t ts IH]; intros s; simpl.
  - apply readonly_ret.
  - apply readonly_bind; auto.
Qed.

Create HintDb readonly.
#[local] Hint Resolve readonly_ret readonly_lift readonly_raise
  readonly_getattr_int readonly_getattr_Linear readonly_getattr_LSTM
  readonly_read_local : readonly.

Ltac readonly_tac :=
  repeat (cbv beta zeta;
          first
            [ solve [ auto with readonly ]
            | apply readonly_bind; [| intros ? ]
            | apply readonly_for_each; intros ? ? ]).

Lemma readonly_Encoder_attention X batch h c :
  readonly (Encoder_attention X batch h c).
Proof. unfold Encoder_attention. readonly_tac. Qed.

Lemma readonly_Encoder_update X t st a : readonly (Encoder_update X t st a).
Proof. unfold Encoder_update. readonly_tac. Qed.

Lemma readonly_Encoder_step X batch t st : readonly (Encoder_step X batch t st).
Proof.
  unfold Encoder_step. apply readonly_bind.
  - apply readonly_Encoder_attention.
  - intros a. apply readonly_Encoder_update.
Qed.

Lemma readonly_Encoder_forward X : readonly (Encoder_forward X).
Proof.
  unfold Encoder_forward, Encoder_enter.
  pose proof (readonly_Encoder_step X) as Hs. readonly_tac.
Qed.

Lemma readonly_Decoder_attention Xe batch h c :
  readonly (Decoder_attention Xe batch h c).
Proof. unfold Decoder_attention. readonly_tac. Qed.

Lemma readonly_Decoder_update Y t h c ctx : readonly (Decoder_update Y t h c ctx).
Proof. unfold Decoder_update. readonly_tac. Qed.

Lemma readonly_Decoder_step Y Xe batch t st : readonly (Decoder_step Y Xe batch t st).
Proof.
  unfold Decoder_step. apply readonly_bind.
  - apply readonly_Decoder_attention.
  - intros a. apply readonly_bind; [apply readonly_Decoder_update|].
    intros b. apply readonly_ret.
Qed.

Lemma readonly_Decoder_output st : readonly (Decoder_output st).
Proof. unfold Decoder_output. readonly_tac. Qed.

Lemma readonly_Decoder_forward Y Xe : readonly (Decoder_forward Y Xe).
Proof.
  unfold Decoder_forward, Decoder_enter.
  pose proof (readonly_Decoder_step Y Xe) as Hs.
  pose proof readonly_Decoder_output as Ho. readonly_tac.
Qed.

Lemma call_all_readonly {A B : Type} (f : A -> M B) inputs self :
  (forall x, readonly (f x)) ->
  call_all f inputs self = (map (fun x => fst (f x self)) inputs, self).
Proof.
  intros Hf. induction inputs as [|x rest IH]; simpl.
  - reflexivity.
  - rewrite (Hf x self), IH. reflexivity.
Qed.

(** ** Shapes of the tensor operations *)

Lemma list_eqb_refl l : list_eqb l l = true.
Proof. induction l as [|x l IH]; simpl; [|rewrite Nat.eqb_refl]; auto. Qed.

Lemma list_eqb_eq a b : list_eqb a b = true -> a = b.
Proof.
  revert b. induction a as [|x a IH]; intros [|y b]; simpl; try discriminate; auto.
  intros H. apply andb_prop in H as [H1 H2].
  apply Nat.eqb_eq in H1. subst. f_equal. auto.
Qed.

Lemma torch_cat_3_2 a b x y z w :
  shape a = [x; y; z] -> shape b = [x; y; w] ->
  exists t, torch_cat a b 2 = Ok t /\ shape t = [x; y; z + w].
Proof.
  intros Ha Hb. unfold torch_cat, rank, size. rewrite Ha, Hb. simpl.
  rewrite !Nat.eqb_refl. simpl. eexists. split; reflexivity.
Qed.

Lemma torch_cat_2_1 a b x z w :
  shape a = [x; z] -> shape b = [x; w] ->
  exists t, torch_cat a b 1 = Ok t /\ shape t = [x; z + w].
Proof.
  intros Ha Hb. unfold torch_cat, rank, size. rewrite Ha, Hb. simpl.
  rewrite !Nat.eqb_refl. simpl. eexists. split; reflexivity.
Qed.

Lemma permute_102 t x y z :
  shape t = [x; y; z] ->
  exists t', permute t [1; 0; 2] = Ok t' /\ shape t' = [y; x; z].
Proof.
  intros Ht. unfold permute, rank, size. rewrite Ht. simpl.
  eexists. split; reflexivity.
Qed.

Lemma torch_repeat_3 t x y z a b c :
  shape t = [x; y; z] ->
  exists t', torch_repeat t [a; b; c] = Ok t' /\ shape t' = [x * a; y * b; z * c].
Proof.
  intros Ht. unfold torch_repeat, rank. rewrite Ht. simpl.
  eexists. split; reflexivity.
Qed.

Lemma Linear_forward_ok l x sh k :
  shape x = sh ++ [k] -> k = in_features l ->
  exists t, Linear_forward l x = Ok t /\ shape t = sh ++ [out_features l].
Proof.
  intros Hx Hk. unfold Linear_forward. rewrite Hx.
  destruct (sh ++ [k]) as [|d rest] eqn:E.
  - destruct sh; discriminate.
  - rewrite <- E. rewrite last_last, removelast_last. subst k.
    rewrite Nat.eqb_refl. simpl. eexists. split; reflexivity.
Qed.

Lemma torch_tanh_shape t : shape (torch_tanh t) = shape t.
Proof. reflexivity. Qed.

Lemma view_ok t sh :
  prod sh = prod (shape t) ->
  exists t', view t sh = Ok t' /\ shape t' = sh.
Proof.
  intros H. unfold view. rewrite H, Nat.eqb_refl. simpl.
  eexists. split; reflexivity.
Qed.

Lemma torch_softmax_2_1 t x y :
  shape t = [x; y] ->
  torch_softmax t 1 = Ok (mkTensor [x; y] (softmax_values t 1)).
Proof. intros Ht. unfold torch_softmax, rank. rewrite Ht. reflexivity. Qed.

Lemma unsqueeze_2_1 t x y :
  shape t = [x; y] ->
  exists t', unsqueeze t 1 = Ok t' /\ shape t' = [x; 1; y].
Proof.
  intros Ht. unfold unsqueeze, rank. rewrite Ht. simpl.
  eexists. split; reflexivity.
Qed.

Lemma unsqueeze_2_0 t x y :
  shape t = [x; y] ->
  exists t', unsqueeze t 0 = Ok t' /\ shape t' = [1; x; y].
Proof.
  intros Ht. unfold unsqueeze, rank. rewrite Ht. simpl.
  eexists. split; reflexivity.
Qed.

Lemma bmm_ok a b x n k p :
  shape a = [x; n; k] -> shape b = [x; k; p] ->
  exists t, bmm a b = Ok t /\ shape t = [x; n; p].
Proof.
  intros Ha Hb. unfold bmm. rewrite Ha, Hb, !Nat.eqb_refl. simpl.
  eexists. split; reflexivity.
Qed.

Lemma squeeze_3_1 t x z :
  shape t = [x; 1; z] ->
  exists t', squeeze t 1 = Ok t' /\ shape t' = [x; z].
Proof.
  intros Ht. unfold squeeze, rank, size. rewrite Ht. simpl.
  eexists. split; reflexivity.
Qed.

Lemma squeeze_3_0 t y z :
  shape t = [1; y; z] ->
  exists t', squeeze t 0 = Ok t' /\ shape t' = [y; z].
Proof.
  intros Ht. unfold squeeze, rank, size. rewrite Ht. simpl.
  eexists. split; reflexivity.
Qed.

Lemma getitem1_3 t x y z i :
  shape t = [x; y; z] -> i < y ->
  getitem1 t i = Ok (mkTensor [x; z] (fun idx => data t (insert_nth 1 i idx))).
Proof.
  intros Ht Hi. unfold getitem1, rank, size. rewrite Ht. simpl.
  apply Nat.ltb_lt in Hi. rewrite Hi. reflexivity.
Qed.

Lemma getitem1_out_of_range t x y z i :
  shape t = [x; y; z] -> y <= i ->
  getitem1 t i = Err (IndexError "index out of range").
Proof.
  intros Ht Hi. unfold getitem1, rank, size. rewrite Ht. simpl.
  apply Nat.ltb_ge in Hi. rewrite Hi. reflexivity.
Qed.

Lemma LSTM_forward_ok l input h c L B :
  shape input = [L; B; input_size l] ->
  shape h = [1; B; hidden_size l] -> shape c = [1; B; hidden_size l] ->
  exists out h' c',
    LSTM_forward l input (h, c) = Ok (out, (h', c')) /\
    shape h' = [1; B; hidden_size l] /\ shape c' = [1; B; hidden_size l].
Proof.
  intros Hi Hh Hc. unfold LSTM_forward. cbn [fst snd].
  rewrite Hi, Hh, Hc, Nat.eqb_refl, list_eqb_refl. cbn [negb].
  do 3 eexists. split; [reflexivity|]. split; reflexivity.
Qed.

(** ** Softmax yields a probability distribution *)

Lemma Rsum_ext n f g :
  (forall k, k < n -> f k = g k) -> Rsum n f = Rsum n g.
Proof.
  induction n as [|n IH]; intros H; simpl; [reflexivity|].
  rewrite IH, H by auto. reflexivity.
Qed.

Lemma Rsum_scale n f (c : R) :
  Rsum n (fun k => (f k * c)%R) = (Rsum n f * c)%R.
Proof.
  induction n as [|n IH]; simpl; [lra|]. rewrite IH. lra.
Qed.

Lemma Rsum_exp_pos n (g : nat -> R) :
  1 <= n -> (0 < Rsum n (fun k => exp (g k)))%R.
Proof.
  intros Hn. induction n as [|n IH]; [lia|]. simpl.
  pose proof (exp_pos (g n)) as Hp.
  destruct n as [|n'].
  - simpl. lra.
  - assert (1 <= S n') as H1 by lia. specialize (IH H1). lra.
Qed.

Lemma Rsum_exp_nonneg n (g : nat -> R) :
  (0 <= Rsum n (fun k => exp (g k)))%R.
Proof.
  induction n as [|n IH]; simpl; [lra|].
  pose proof (exp_pos (g n)). lra.
Qed.

Lemma softmax_distribution t x y :
  shape t = [x; y] -> 1 <= y ->
  distribution x y (mkTensor [x; y] (softmax_values t 1)).
Proof.
  intros Ht Hy. split; [reflexivity|]. cbn [data].
  unfold softmax_values, size. rewrite Ht. unfold list_set.
  cbn [nth firstn skipn app].
  split.
  - intros b j.
    pose proof (exp_pos (data t [b; j])) as He.
    pose proof (Rsum_exp_pos y (fun k => data t [b; k]) Hy) as Hs.
    apply Rlt_le. apply Rdiv_lt_0_compat; assumption.
  - intros b.
    pose proof (Rsum_exp_pos y (fun k => data t [b; k]) Hy) as Hs.
    unfold Rdiv. rewrite Rsum_scale. apply Rinv_r. lra.
Qed.

(** ** The decoder on well-shaped inputs *)

Ltac step_with L := rewrite (bind_Ok _ _ _ _ _ L); cbv beta.

Ltac step_lift E :=
  match type of E with
  | ?r = Ok ?a => rewrite (bind_lift_Ok r _ _ a E); cbv beta
  end.

Section DecoderObject.

Variable theta : initializer.
Variables n T m p y_dim : nat.
Variable dropout : R.

Local Abbreviation self := (Decoder theta n T m p y_dim dropout).

Lemma Decoder_attr_T : getattr_int "T" self = (Ok T, self).
Proof. reflexivity. Qed.

Lemma Decoder_attr_p : getattr_int "p" self = (Ok p, self).
Proof. reflexivity. Qed.

Lemma Decoder_attr_WU_d :
  getattr_Linear "WU_d" self =
  (Ok (Linear_new theta "WU_d" (p * 2 + m) m false), self).
Proof. reflexivity. Qed.

Lemma Decoder_attr_v_d :
  getattr_Linear "v_d" self = (Ok (Linear_new theta "v_d" m 1 false), self).
Proof. reflexivity. Qed.

Lemma Decoder_attr_linear :
  getattr_Linear "linear" self =
  (Ok (Linear_new theta "linear" (y_dim + m) 1 false), self).
Proof. reflexivity. Qed.

Lemma Decoder_attr_lstm :
  getattr_LSTM "lstm" self = (Ok (LSTM_new theta "lstm" 1 p dropout), self).
Proof. reflexivity. Qed.

Lemma Decoder_attr_Wb :
  getattr_Linear "Wb" self = (Ok (Linear_new theta "Wb" (p + m) p true), self).
Proof. reflexivity. Qed.

Lemma Decoder_attr_vb :
  getattr_Linear "vb" self = (Ok (Linear_new theta "vb" p y_dim true), self).
Proof. reflexivity. Qed.

(** Equations 12 to 14 succeed on states and encoder outputs of the
    expected shapes, and [Beta_t] is the softmax of a (batch, T) score. *)
Lemma Decoder_attention_ok Xe B h c :
  shape Xe = [T; B; m] -> shape h = [1; B; p] -> shape c = [1; B; p] ->
  exists l ctx,
    shape l = [B; T] /\ shape ctx = [B; m] /\
    Decoder_attention Xe B h c self =
    (Ok (mkTensor [B; T] (softmax_values l 1), ctx), self).
Proof.
  intros HX Hh Hc. unfold Decoder_attention.
  step_with Decoder_attr_v_d. step_with Decoder_attr_WU_d.
  destruct (torch_cat_3_2 h c 1 B p p Hh Hc) as (t1 & E1 & S1). step_lift E1.
  destruct (permute_102 t1 _ _ _ S1) as (t2 & E2 & S2). step_lift E2.
  step_with Decoder_attr_T.
  destruct (torch_repeat_3 t2 _ _ _ 1 T 1 S2) as (t3 & E3 & S3). step_lift E3.
  rewrite !Nat.mul_1_r, Nat.mul_1_l in S3.
  destruct (permute_102 Xe _ _ _ HX) as (t4 & E4 & S4). step_lift E4.
  destruct (torch_cat_3_2 t3 t4 _ _ _ _ S3 S4) as (t5 & E5 & S5). step_lift E5.
  destruct (Linear_forward_ok (Linear_new theta "WU_d" (p * 2 + m) m false)
              t5 [B; T] (p + p + m) S5) as (t6 & E6 & S6); [simpl; lia|].
  step_lift E6.
  destruct (Linear_forward_ok (Linear_new theta "v_d" m 1 false)
              (torch_tanh t6) [B; T] m S6) as (t7 & E7 & S7); [reflexivity|].
  step_lift E7. step_with Decoder_attr_T.
  destruct (view_ok t7 [B; T]) as (t8 & E8 & S8).
  { rewrite S7. simpl. lia. }
  step_lift E8.
  pose proof (torch_softmax_2_1 t8 B T S8) as E9. step_lift E9.
  destruct (unsqueeze_2_1 (mkTensor [B; T] (softmax_values t8 1)) B T eq_refl)
    as (t10 & E10 & S10).
  step_lift E10. step_lift E4.
  destruct (bmm_ok t10 t4 _ _ _ _ S10 S4) as (t11 & E11 & S11). step_lift E11.
  destruct (squeeze_3_1 t11 _ _ S11) as (t12 & E12 & S12). step_lift E12.
  exists t8, t12. repeat split; assumption.
Qed.

(** Equations 15 and 16 succeed when step [t] of [Y] exists. *)
Lemma Decoder_update_ok Y B L t h c ctx :
  shape Y = [B; L; y_dim] -> t < L ->
  shape h = [1; B; p] -> shape c = [1; B; p] -> shape ctx = [B; m] ->
  exists h' c',
    shape h' = [1; B; p] /\ shape c' = [1; B; p] /\
    Decoder_update Y t h c ctx self = (Ok (h', c'), self).
Proof.
  intros HY Ht Hh Hc Hctx. unfold Decoder_update.
  step_with Decoder_attr_linear.
  pose proof (getitem1_3 Y B L y_dim t HY Ht) as E1. step_lift E1.
  destruct (torch_cat_2_1 (mkTensor [B; y_dim]
                             (fun idx => data Y (insert_nth 1 t idx)))
              ctx B y_dim m eq_refl Hctx) as (t2 & E2 & S2).
  step_lift E2.
  destruct (Linear_forward_ok (Linear_new theta "linear" (y_dim + m) 1 false)
              t2 [B] (y_dim + m) S2 eq_refl) as (t3 & E3 & S3).
  step_lift E3. step_with Decoder_attr_lstm.
  destruct (unsqueeze_2_0 t3 B 1 S3) as (t4 & E4 & S4). step_lift E4.
  destruct (LSTM_forward_ok (LSTM_new theta "lstm" 1 p dropout) t4 h c 1 B
              S4 Hh Hc) as (out & h' & c' & E5 & Sh & Sc).
  step_lift E5. exists h', c'. repeat split; assumption.
Qed.

(** The update fails with [IndexError] when [Y] has no step [t]. *)
Lemma Decoder_update_IndexError Y B L t h c ctx :
  shape Y = [B; L; y_dim] -> L <= t ->
  Decoder_update Y t h c ctx self =
  (Err (IndexError "index out of range"), self).
Proof.
  intros HY Ht. unfold Decoder_update.
  step_with Decoder_attr_linear.
  apply bind_lift_Err. apply (getitem1_out_of_range Y B L y_dim t HY Ht).
Qed.

Lemma Decoder_step_ok Y Xe B L t st :
  shape Y = [B; L; y_dim] -> shape Xe = [T; B; m] -> t < L ->
  Decoder_state_ok p B st ->
  exists st',
    Decoder_step Y Xe B t st self = (Ok st', self) /\
    Decoder_state_ok p B st' /\ context_ok m B st'.
Proof.
  intros HY HX Ht [Hh Hc]. unfold Decoder_step.
  destruct (Decoder_attention_ok Xe B _ _ HX Hh Hc) as (l & ctx & Sl & Sctx & E1).
  step_with E1. cbn [fst snd].
  destruct (Decoder_update_ok Y B L t _ _ ctx HY Ht Hh Hc Sctx)
    as (h' & c' & Sh & Sc & E2).
  step_with E2. cbn [fst snd].
  eexists. split; [reflexivity|]. split.
  - split; assumption.
  - exists ctx. split; [reflexivity | assumption].
Qed.

Lemma Decoder_loop_ok Y Xe B L k a st :
  shape Y = [B; L; y_dim] -> shape Xe = [T; B; m] -> a + k <= L ->
  Decoder_state_ok p B st ->
  exists st',
    for_each (seq a k) (Decoder_step Y Xe B) st self = (Ok st', self) /\
    Decoder_state_ok p B st' /\ (1 <= k -> context_ok m B st').
Proof.
  intros HY HX. revert a st. induction k as [|k IH]; intros a st Hk Hst.
  - exists st. split; [reflexivity|]. split; [assumption|]. lia.
  - rewrite seq_S, for_each_app.
    destruct (IH a st) as (st1 & E1 & Hst1 & _); [lia | assumption |].
    step_with E1.
    destruct (Decoder_step_ok Y Xe B L (a + k) st1 HY HX) as (st2 & E2 & Hst2 & Hc2);
      [lia | assumption |].
    cbn [for_each]. step_with E2.
    exists st2. split; [reflexivity|]. split; [assumption|]. intros _. assumption.
Qed.

Lemma Decoder_enter_ok Y B sh :
  shape Y = B :: sh ->
  Decoder_enter Y self =
  (Ok (B, mkDecoderLocals (zeros [1; B; p]) (zeros [1; B; p]) None), self).
Proof.
  intros HY. unfold Decoder_enter, shape0. rewrite HY. reflexivity.
Qed.

(** Equation 22 on a final state of the expected shapes. *)
Lemma Decoder_output_ok B st :
  Decoder_state_ok p B st -> context_ok m B st ->
  exists out, Decoder_output st self = (Ok out, self) /\ shape out = [B; y_dim].
Proof.
  intros [Hh Hc] (ctx & Ectx & Sctx). unfold Decoder_output.
  step_with Decoder_attr_vb. step_with Decoder_attr_Wb.
  destruct (squeeze_3_0 _ _ _ Hh) as (t1 & E1 & S1). step_lift E1.
  rewrite Ectx. cbn [read_local].
  assert (Er : ret ctx self = (Ok ctx, self)) by reflexivity. step_with Er.
  destruct (torch_cat_2_1 t1 ctx _ _ _ S1 Sctx) as (t2 & E2 & S2). step_lift E2.
  destruct (Linear_forward_ok (Linear_new theta "Wb" (p + m) p true)
              t2 [B] (p + m) S2 eq_refl) as (t3 & E3 & S3).
  step_lift E3.
  destruct (Linear_forward_ok (Linear_new theta "vb" p y_dim true)
              t3 [B] p S3 eq_refl) as (t4 & E4 & S4).
  exists t4. split; [|assumption]. unfold lift. rewrite E4. reflexivity.
Qed.

(** [Decoder.forward] returns a (batch, y_dim) tensor whenever [Y] has
    at least the [T - 1] steps that the loop reads. *)
Lemma Decoder_forward_ok Y Xe B L :
  2 <= T -> shape Y = [B; L; y_dim] -> T - 1 <= L -> shape Xe = [T; B; m] ->
  exists out,
    Decoder_forward Y Xe self = (Ok out, self) /\ shape out = [B; y_dim].
Proof.
  intros HT HY HL HX. unfold Decoder_forward.
  step_with (Decoder_enter_ok Y B _ HY). cbn [fst snd].
  step_with Decoder_attr_T.
  destruct (Decoder_loop_ok Y Xe B L (T - 1) 0
              (mkDecoderLocals (zeros [1; B; p]) (zeros [1; B; p]) None) HY HX)
    as (st & E & Hst & Hctx); [lia | split; reflexivity |].
  unfold range. step_with E.
  apply Decoder_output_ok; [assumption | apply Hctx; lia].
Qed.

End DecoderObject.

(** ** No read of an unbound local variable *)

Lemma bound_safe_ret {A : Type} (a : A) : bound_safe (ret a).
Proof. intros self [name H]. discriminate. Qed.

Lemma bound_safe_lift {A : Type} (r : result A) :
  ~ raises_UnboundLocalError r -> bound_safe (lift r).
Proof. intros H self. exact H. Qed.

Lemma bound_safe_bind {A B : Type} (m : M A) (f : A -> M B) :
  bound_safe m -> (forall a, bound_safe (f a)) -> bound_safe (bind m f).
Proof.
  intros Hm Hf self. unfold bind. specialize (Hm self).
  destruct (m self) as [[a|e] self']; simpl in *.
  - apply Hf.
  - intros [name H]. apply Hm. exists name. congruence.
Qed.

Lemma bound_safe_for_each {S : Type} ts (body : nat -> S -> M S) s :
  (forall t s', bound_safe (body t s')) -> bound_safe (for_each ts body s).
Proof.
  intros Hb. revert s. induction ts as [|t ts IH]; intros s; simpl.
  - apply bound_safe_ret.
  - apply bound_safe_bind; auto.
Qed.

Ltac no_unbound :=
  intros;
  repeat match goal with
         | |- context [match ?x with _ => _ end] => destruct x
         end;
  let H := fresh in intros [? H]; cbn in H; discriminate H.

Lemma bound_safe_getattr_int name : bound_safe (getattr_int name).
Proof.
  intros self. unfold getattr_int, getattr, bind.
  destruct (attrs_get name (attrs self)) as [[| | |]|];
    cbn; intros [? H]; discriminate H.
Qed.

Lemma bound_safe_getattr_Linear name : bound_safe (getattr_Linear name).
Proof.
  intros self. unfold getattr_Linear, getattr, bind.
  destruct (attrs_get name (attrs self)) as [[| | |]|];
    cbn; intros [? H]; discriminate H.
Qed.

Lemma bound_safe_getattr_LSTM name : bound_safe (getattr_LSTM name).
Proof.
  intros self. unfold getattr_LSTM, getattr, bind.
  destruct (attrs_get name (attrs self)) as [[| | |]|];
    cbn; intros [? H]; discriminate H.
Qed.

Lemma safe_shape0 t : ~ raises_UnboundLocalError (shape0 t).
Proof. unfold shape0. no_unbound. Qed.

Lemma safe_torch_cat a b d : ~ raises_UnboundLocalError (torch_cat a b d).
Proof. unfold torch_cat. no_unbound. Qed.

Lemma safe_permute t dims : ~ raises_UnboundLocalError (permute t dims).
Proof. unfold permute. no_unbound. Qed.

Lemma safe_torch_repeat t reps : ~ raises_UnboundLocalError (torch_repeat t reps).
Proof. unfold torch_repeat. no_unbound. Qed.

Lemma safe_Linear_forward l x : ~ raises_UnboundLocalError (Linear_forward l x).
Proof. unfold Linear_forward. no_unbound. Qed.

Lemma safe_view t sh : ~ raises_UnboundLocalError (view t sh).
Proof. unfold view. no_unbound. Qed.

Lemma safe_torch_softmax t d : ~ raises_UnboundLocalError (torch_softmax t d).
Proof. unfold torch_softmax. no_unbound. Qed.

Lemma safe_unsqueeze t d : ~ raises_UnboundLocalError (unsqueeze t d).
Proof. unfold unsqueeze. no_unbound. Qed.

Lemma safe_squeeze t d : ~ raises_UnboundLocalError (squeeze t d).
Proof. unfold squeeze. no_unbound. Qed.

Lemma safe_bmm a b : ~ raises_UnboundLocalError (bmm a b).
Proof. unfold bmm. no_unbound. Qed.

Lemma safe_getitem1 t i : ~ raises_UnboundLocalError (getitem1 t i).
Proof. unfold getitem1. no_unbound. Qed.

Lemma safe_LSTM_forward l x hx : ~ raises_UnboundLocalError (LSTM_forward l x hx).
Proof. unfold LSTM_forward. no_unbound. Qed.

Create HintDb bound_safe.
#[local] Hint Resolve bound_safe_ret bound_safe_lift bound_safe_getattr_int
  bound_safe_getattr_Linear bound_safe_getattr_LSTM safe_shape0 safe_torch_cat
  safe_permute safe_torch_repeat safe_Linear_forward safe_view
  safe_torch_softmax safe_unsqueeze safe_squeeze safe_bmm safe_getitem1
  safe_LSTM_forward : bound_safe.

Ltac bound_safe_tac :=
  repeat (cbv beta zeta;
          first
            [ solve [ auto with bound_safe ]
            | apply bound_safe_bind; [| intros ? ]
            | apply bound_safe_for_each; intros ? ? ]).

Lemma bound_safe_Decoder_attention Xe batch h c :
  bound_safe (Decoder_attention Xe batch h c).
Proof. unfold Decoder_attention. bound_safe_tac. Qed.

Lemma bound_safe_Decoder_update Y t h c ctx :
  bound_safe (Decoder_update Y t h c ctx).
Proof. unfold Decoder_update. bound_safe_tac. Qed.

Lemma bound_safe_Decoder_step Y Xe batch t st :
  bound_safe (Decoder_step Y Xe batch t st).
Proof.
  unfold Decoder_step.
  pose proof bound_safe_Decoder_attention. pose proof bound_safe_Decoder_update.
  bound_safe_tac.
Qed.

Lemma bound_safe_Decoder_enter Y : bound_safe (Decoder_enter Y).
Proof. unfold Decoder_enter. bound_safe_tac. Qed.

(** After the loop body has run, [context_vector] is bound. *)
Lemma Decoder_step_binds_context Y Xe batch t st self st' self' :
  Decoder_step Y Xe batch t st self = (Ok st', self') ->
  exists ctx, context_vector st' = Some ctx.
Proof.
  unfold Decoder_step, bind.
  destruct (Decoder_attention _ _ _ _ self) as [[bc|e] s1]; [|discriminate].
  destruct (Decoder_update _ _ _ _ _ s1) as [[hc|e] s2]; [|discriminate].
  unfold ret. intros H. inversion H. simpl. eexists. reflexivity.
Qed.

Lemma Decoder_loop_binds_context Y Xe batch ts st self st' self' :
  ts <> [] ->
  for_each ts (Decoder_step Y Xe batch) st self = (Ok st', self') ->
  exists ctx, context_vector st' = Some ctx.
Proof.
  intros Hts. destruct (exists_last Hts) as (ts0 & t & ->).
  rewrite for_each_app. unfold bind at 1.
  destruct (for_each ts0 _ st self) as [[st1|e] s1]; [|discriminate].
  cbn [for_each]. unfold bind at 1.
  destruct (Decoder_step Y Xe batch t st1 s1) as [[st2|e] s2] eqn:E; [|discriminate].
  unfold ret. intros H. inversion H. subst.
  eapply Decoder_step_binds_context. exact E.
Qed.

Lemma bound_safe_Decoder_output st ctx :
  context_vector st = Some ctx -> bound_safe (Decoder_output st).
Proof.
  intros H. unfold Decoder_output. rewrite H. cbn [read_local]. bound_safe_tac.
Qed.

(** ** The encoder *)

Section EncoderObject.

Variable theta : initializer.
Variables n T m : nat.
Variable dropout : R.

Local Abbreviation self := (Encoder theta n T m dropout).

Lemma Encoder_attr_n : getattr_int "n" self = (Ok n, self).
Proof. reflexivity. Qed.

Lemma Encoder_attr_m : getattr_int "m" self = (Ok m, self).
Proof. reflexivity. Qed.

Lemma Encoder_attr_T : getattr_int "T" self = (Ok T, self).
Proof. reflexivity. Qed.

(** The constructor sets [WU_e], [v_e] and [lstm], and no [linear]. *)
Lemma Encoder_attr_linear :
  getattr_Linear "linear" self = (Err (AttributeError "Encoder" "linear"), self).
Proof. reflexivity. Qed.

Lemma Encoder_enter_ok X B sh :
  shape X = B :: sh ->
  Encoder_enter X self =
  (Ok (B, mkEncoderLocals (zeros [1; B; m]) (zeros [1; B; m]) (zeros [T; B; m])),
   self).
Proof.
  intros HX. unfold Encoder_enter, shape0. rewrite HX. reflexivity.
Qed.

(** On states of the shape that [forward] starts from, the attention part
    of the loop body reaches the read of [self.linear] and raises. *)
Lemma Encoder_attention_AttributeError X B h c :
  shape h = [1; B; m] -> shape c = [1; B; m] ->
  Encoder_attention X B h c self = (Err (AttributeError "Encoder" "linear"), self).
Proof.
  intros Hh Hc. unfold Encoder_attention.
  destruct (torch_cat_3_2 h c 1 B m m Hh Hc) as (t1 & E1 & S1). step_lift E1.
  destruct (permute_102 t1 _ _ _ S1) as (t2 & E2 & S2). step_lift E2.
  step_with Encoder_attr_n.
  destruct (torch_repeat_3 t2 _ _ _ 1 n 1 S2) as (t3 & E3 & S3). step_lift E3.
  apply bind_Err. apply Encoder_attr_linear.
Qed.

End EncoderObject.

(** C1 (defect of the code).  The claim expects [Encoder.forward] to
    return the (T, batch, m) tensor of hidden states.  The constructor
    stores the first projection of Equation 8 as [self.WU_e], while
    [forward] calls [self.linear], an attribute that no [Encoder] has: for
    every configuration with at least one time step and every input tensor
    with a batch axis, the first iteration raises [AttributeError] and no
    tensor is returned. *)
Theorem Encoder_forward_raises_AttributeError
    (theta : initializer) (n T m : nat) (dropout : R) (X : tensor) :
  1 <= T -> 1 <= rank X ->
  Encoder_forward X (Encoder theta n T m dropout) =
  (Err (AttributeError "Encoder" "linear"), Encoder theta n T m dropout).
Proof.
  intros HT HX. unfold Encoder_forward.
  destruct (shape X) as [|B sh] eqn:EX.
  { unfold rank in HX. rewrite EX in HX. simpl in HX. lia. }
  step_with (Encoder_enter_ok theta n T m dropout X B sh EX). cbn [fst snd].
  step_with (Encoder_attr_T theta n T m dropout).
  destruct T as [|k]; [lia|].
  apply bind_Err. unfold range. cbn [seq for_each].
  apply bind_Err. unfold Encoder_step. apply bind_Err.
  cbn [enc_hidden_state enc_cell_state].
  apply Encoder_attention_AttributeError; reflexivity.
Qed.

(** The end-to-end scenario of the specification: n = 3, T = 5, m = 4 and
    a batch of two windows. *)
Lemma Encoder_forward_raises_AttributeError_witness :
  Encoder_forward (zeros [2; 5; 3]) (Encoder theta1 3 5 4 0%R) =
  (Err (AttributeError "Encoder" "linear"), Encoder theta1 3 5 4 0%R).
Proof.
  apply Encoder_forward_raises_AttributeError; [lia | unfold rank; simpl; lia].
Defined.

(** ** The claims on [Decoder.forward] *)

(** C4.  For every configuration with [T >= 2] and positive sizes, every
    [Y] of shape (batch, T - 1, y_dim) and every [X_encoded] of shape
    (T, batch, m), [Decoder.forward] returns a tensor of shape
    (batch, y_dim), and leaves the decoder object as it was. *)
Theorem Decoder_forward_shape
    (theta : initializer) (n T m p y_dim : nat) (dropout : R)
    (Y X_encoded : tensor) (batch : nat) :
  2 <= T -> 0 < batch -> 0 < m -> 0 < p -> 0 < y_dim ->
  shape Y = [batch; T - 1; y_dim] ->
  shape X_encoded = [T; batch; m] ->
  exists y_hat_T,
    Decoder_forward Y X_encoded (Decoder theta n T m p y_dim dropout) =
    (Ok y_hat_T, Decoder theta n T m p y_dim dropout) /\
    shape y_hat_T = [batch; y_dim].
Proof.
  intros HT _ _ _ _ HY HX.
  apply (Decoder_forward_ok theta n T m p y_dim dropout Y X_encoded batch (T - 1));
    auto.
Qed.

(** The end-to-end scenario of the specification: T = 5, m = 4, p = 4,
    y_dim = 1 and a batch of two windows. *)
Lemma Decoder_forward_shape_witness :
  exists y_hat_T,
    Decoder_forward (zeros [2; 4; 1]) (zeros [5; 2; 4])
      (Decoder theta1 3 5 4 4 1 0%R) =
    (Ok y_hat_T, Decoder theta1 3 5 4 4 1 0%R) /\
    shape y_hat_T = [2; 1].
Proof.
  apply (Decoder_forward_shape theta1 3 5 4 4 1 0%R
           (zeros [2; 4; 1]) (zeros [5; 2; 4]) 2);
    first [ lia | reflexivity ].
Defined.

(** ** The last iteration of the decoder loop *)

Lemma readonly_Decoder_enter Y : readonly (Decoder_enter Y).
Proof. unfold Decoder_enter. readonly_tac. Qed.

Lemma bind_cong_l {A B : Type} (m m' : M A) (f : A -> M B) self :
  (forall s, m s = m' s) -> bind m f self = bind m' f self.
Proof. intros H. unfold bind. rewrite H. reflexivity. Qed.

Lemma bind_ret_l {A B : Type} (a : A) (f : A -> M B) self :
  bind (ret a) f self = f a self.
Proof. reflexivity. Qed.

Lemma bind_ext_readonly {A B : Type} (m : M A) (f g : A -> M B) self :
  readonly m -> (forall a, f a self = g a self) -> bind m f self = bind m g self.
Proof.
  intros Hm H. unfold bind. specialize (Hm self).
  destruct (m self) as [[a|e] self']; simpl in Hm; subst; auto.
Qed.

Local Open Scope method_scope.

(** C3.  With [T >= 2] the loop of [Decoder.forward] runs for
    [t = 0 .. T - 2], and the forward pass is the first [T - 2] iterations
    followed by the attention, the cell update and the projection of
    Equation 22 below: the context vector [snd bc] that iteration [T - 2]
    computes from the state before its cell update is the one that is
    concatenated with the hidden state [fst hc] after that update; no
    attention is evaluated in between. *)
Theorem Decoder_forward_uses_last_context
    (theta : initializer) (n T m p y_dim : nat) (dropout : R)
    (Y X_encoded : tensor) :
  2 <= T ->
  range (T - 1) = range (T - 2) ++ [T - 2] /\
  Decoder_forward Y X_encoded (Decoder theta n T m p y_dim dropout) =
  (e <- Decoder_enter Y ;;
   st <- for_each (range (T - 2)) (Decoder_step Y X_encoded (fst e)) (snd e) ;;
   bc <- Decoder_attention X_encoded (fst e)
           (dec_hidden_state st) (dec_cell_state st) ;;
   hc <- Decoder_update Y (T - 2)
           (dec_hidden_state st) (dec_cell_state st) (snd bc) ;;
   vb <- getattr_Linear "vb" ;;
   Wb <- getattr_Linear "Wb" ;;
   h <- lift (squeeze (fst hc) 0) ;;
   x <- lift (torch_cat h (snd bc) 1) ;;
   z <- lift (Linear_forward Wb x) ;;
   lift (Linear_forward vb z))
    (Decoder theta n T m p y_dim dropout).
Proof.
  intros HT.
  assert (HR : range (T - 1) = range (T - 2) ++ [T - 2]).
  { replace (T - 1) with (S (T - 2)) by lia. apply range_S. }
  split; [exact HR|].
  unfold Decoder_forward. apply bind_ext_readonly.
  { apply readonly_Decoder_enter. }
  intros e. step_with (Decoder_attr_T theta n T m p y_dim dropout).
  rewrite HR.
  rewrite (bind_cong_l _ _ _ _ (for_each_app _ _ _ _)).
  rewrite bind_assoc. apply bind_ext. intros st s1.
  cbn [for_each]. rewrite bind_assoc.
  unfold Decoder_step. rewrite !bind_assoc.
  apply bind_ext. intros bc s2. rewrite !bind_assoc.
  apply bind_ext. intros hc s3.
  reflexivity.
Qed.


Lemma Decoder_forward_uses_last_context_witness :
  range (5 - 1) = range (5 - 2) ++ [5 - 2] /\
  Decoder_forward (zeros [2; 4; 1]) (zeros [5; 2; 4])
    (Decoder theta1 3 5 4 4 1 0%R) =
  (e <- Decoder_enter (zeros [2; 4; 1]) ;;
   st <- for_each (range (5 - 2))
           (Decoder_step (zeros [2; 4; 1]) (zeros [5; 2; 4]) (fst e)) (snd e) ;;
   bc <- Decoder_attention (zeros [5; 2; 4]) (fst e)
           (dec_hidden_state st) (dec_cell_state st) ;;
   hc <- Decoder_update (zeros [2; 4; 1]) (5 - 2)
           (dec_hidden_state st) (dec_cell_state st) (snd bc) ;;
   vb <- getattr_Linear "vb" ;;
   Wb <- getattr_Linear "Wb" ;;
   h <- lift (squeeze (fst hc) 0) ;;
   x <- lift (torch_cat h (snd bc) 1) ;;
   z <- lift (Linear_forward Wb x) ;;
   lift (Linear_forward vb z))
    (Decoder theta1 3 5 4 4 1 0%R).
Proof.
  apply (Decoder_forward_uses_last_context theta1 3 5 4 4 1 0%R
           (zeros [2; 4; 1]) (zeros [5; 2; 4])).
  lia.
Defined.

Local Close Scope method_scope.

(** C10.  With [T >= 2] the loop of [Decoder.forward] runs its body at
    least once (for [t = 0]), every completed loop leaves [context_vector]
    bound, and the forward pass never fails on an unbound variable,
    whatever the inputs.  With [T = 1] the constructor returns a decoder
    without raising, the loop of its forward pass runs no iteration, and
    the read of [context_vector] in Equation 22 raises [UnboundLocalError]
    for every input that has a batch axis. *)
Theorem Decoder_forward_context_bound
    (theta : initializer) (n T m p y_dim : nat) (dropout : R)
    (Y X_encoded : tensor) :
  (2 <= T ->
   (exists ts, range (T - 1) = 0 :: ts) /\
   (forall name,
      fst (Decoder_forward Y X_encoded (Decoder theta n T m p y_dim dropout))
      <> Err (UnboundLocalError name)) /\
   (forall batch st0 st self',
      for_each (range (T - 1)) (Decoder_step Y X_encoded batch) st0
        (Decoder theta n T m p y_dim dropout) = (Ok st, self') ->
      exists c, context_vector st = Some c)) /\
  (T = 1 -> 1 <= rank Y ->
   Decoder_init theta n T m p y_dim dropout (mkObject "Decoder" []) =
   (Ok tt, Decoder theta n T m p y_dim dropout) /\
   Decoder_forward Y X_encoded (Decoder theta n T m p y_dim dropout) =
   (Err (UnboundLocalError "context_vector"),
    Decoder theta n T m p y_dim dropout)).
Proof.
  split.
  - intros HT.
    assert (HR : exists ts, range (T - 1) = 0 :: ts).
    { destruct (T - 1) as [|k] eqn:E; [lia|].
      exists (seq 1 k). reflexivity. }
    destruct HR as [ts HR]. split; [exists ts; exact HR|]. split.
    + intros name Hraise. unfold Decoder_forward in Hraise.
      unfold bind at 1 in Hraise.
      pose proof (readonly_Decoder_enter Y (Decoder theta n T m p y_dim dropout))
        as Hro.
      destruct (Decoder_enter Y (Decoder theta n T m p y_dim dropout))
        as [[e|err] s1] eqn:E1; simpl in Hro; subst s1.
      * rewrite (bind_Ok _ _ _ _ _ (Decoder_attr_T theta n T m p y_dim dropout))
          in Hraise.
        unfold bind at 1 in Hraise.
        destruct (for_each (range (T - 1)) (Decoder_step Y X_encoded (fst e))
                    (snd e) (Decoder theta n T m p y_dim dropout))
          as [[st|err] s2] eqn:E2.
        -- destruct (Decoder_loop_binds_context Y X_encoded (fst e)
                       (range (T - 1)) (snd e)
                       (Decoder theta n T m p y_dim dropout) st s2) as [c Hc];
             [rewrite HR; discriminate | exact E2 |].
           apply (bound_safe_Decoder_output st c Hc s2). exists name. exact Hraise.
        -- apply (bound_safe_for_each (range (T - 1))
                    (Decoder_step Y X_encoded (fst e)) (snd e)
                    (bound_safe_Decoder_step Y X_encoded (fst e))
                    (Decoder theta n T m p y_dim dropout)).
           rewrite E2. exists name. simpl in Hraise. simpl. congruence.
      * apply (bound_safe_Decoder_enter Y (Decoder theta n T m p y_dim dropout)).
        rewrite E1. exists name. simpl in Hraise. simpl. congruence.
    + intros batch st0 st self' E.
      apply (Decoder_loop_binds_context Y X_encoded batch (range (T - 1)) st0
               (Decoder theta n T m p y_dim dropout) st self');
        [rewrite HR; discriminate | exact E].
  - intros HT HY. subst T. split; [reflexivity|]. unfold Decoder_forward.
    destruct (shape Y) as [|B sh] eqn:EY.
    { unfold rank in HY. rewrite EY in HY. simpl in HY. lia. }
    step_with (Decoder_enter_ok theta n 1 m p y_dim dropout Y B sh EY).
    step_with (Decoder_attr_T theta n 1 m p y_dim dropout).
    cbn [Nat.sub range seq for_each fst snd].
    rewrite bind_ret_l. unfold Decoder_output.
    step_with (Decoder_attr_vb theta n 1 m p y_dim dropout).
    step_with (Decoder_attr_Wb theta n 1 m p y_dim dropout).
    cbn [dec_hidden_state context_vector].
    destruct (squeeze_3_0 (zeros [1; B; p]) B p eq_refl) as (t1 & E1 & S1).
    step_lift E1. reflexivity.
Qed.

Lemma Decoder_forward_context_bound_witness :
  ((exists ts, range (5 - 1) = 0 :: ts) /\
   (forall name,
      fst (Decoder_forward (zeros [2; 4; 1]) (zeros [5; 2; 4])
             (Decoder theta1 3 5 4 4 1 0%R))
      <> Err (UnboundLocalError name)) /\
   (forall batch st0 st self',
      for_each (range (5 - 1))
        (Decoder_step (zeros [2; 4; 1]) (zeros [5; 2; 4]) batch) st0
        (Decoder theta1 3 5 4 4 1 0%R) = (Ok st, self') ->
      exists c, context_vector st = Some c)) /\
  (Decoder_init theta1 3 1 4 4 1 0%R (mkObject "Decoder" []) =
   (Ok tt, Decoder theta1 3 1 4 4 1 0%R) /\
   Decoder_forward (zeros [2; 0; 1]) (zeros [1; 2; 4])
     (Decoder theta1 3 1 4 4 1 0%R) =
   (Err (UnboundLocalError "context_vector"),
    Decoder theta1 3 1 4 4 1 0%R)).
Proof.
  split.
  - apply (proj1 (Decoder_forward_context_bound theta1 3 5 4 4 1 0%R
                    (zeros [2; 4; 1]) (zeros [5; 2; 4]))).
    lia.
  - apply (proj2 (Decoder_forward_context_bound theta1 3 1 4 4 1 0%R
                    (zeros [2; 0; 1]) (zeros [1; 2; 4]))).
    + reflexivity.
    + unfold rank. simpl. lia.
Defined.

(** ** [Decoder.forward] and the time axis of [Y] *)

Lemma shape0_narrow1 Y k : shape0 (narrow1 Y k) = shape0 Y.
Proof.
  unfold shape0, narrow1. cbn [shape].
  destruct (shape Y) as [|a [|b r]]; reflexivity.
Qed.

Lemma getitem1_narrow1 Y k t :
  t < k -> k <= size Y 1 -> getitem1 (narrow1 Y k) t = getitem1 Y t.
Proof.
  intros Ht Hk. unfold getitem1, narrow1, rank, size in *. cbn [shape data].
  destruct (shape Y) as [|a [|b [|c r]]]; try reflexivity.
  unfold list_set, remove_nth. cbn [firstn skipn app length nth] in Hk |- *.
  assert (H1 : (t <? k) = true) by (apply Nat.ltb_lt; lia).
  assert (H2 : (t <? b) = true) by (apply Nat.ltb_lt; lia).
  rewrite H1, H2. reflexivity.
Qed.

Lemma Decoder_update_narrow1 Y k t h c ctx self :
  t < k -> k <= size Y 1 ->
  Decoder_update (narrow1 Y k) t h c ctx self = Decoder_update Y t h c ctx self.
Proof.
  intros Ht Hk. unfold Decoder_update. rewrite getitem1_narrow1 by assumption.
  reflexivity.
Qed.

Lemma Decoder_step_narrow1 Y Xe B k t st self :
  t < k -> k <= size Y 1 ->
  Decoder_step (narrow1 Y k) Xe B t st self = Decoder_step Y Xe B t st self.
Proof.
  intros Ht Hk. unfold Decoder_step. apply bind_ext. intros bc s1.
  apply bind_cong_l. intros s. apply Decoder_update_narrow1; assumption.
Qed.

Lemma Decoder_loop_narrow1 Y Xe B k ts st self :
  Forall (fun t => t < k) ts -> k <= size Y 1 ->
  for_each ts (Decoder_step (narrow1 Y k) Xe B) st self =
  for_each ts (Decoder_step Y Xe B) st self.
Proof.
  intros Hts Hk. revert st self.
  induction Hts as [|t ts Ht _ IH]; intros st self; cbn [for_each].
  - reflexivity.
  - unfold bind. rewrite Decoder_step_narrow1 by assumption.
    destruct (Decoder_step Y Xe B t st self) as [[st'|e] s1]; auto.
Qed.

Lemma range_below k : Forall (fun t => t < k) (range k).
Proof.
  apply Forall_forall. intros t Ht. unfold range in Ht.
  apply in_seq in Ht. lia.
Qed.

(** Only the first [T - 1] steps of [Y] enter the forward pass. *)
Lemma Decoder_forward_narrow1 theta n T m p y_dim dropout Y Xe :
  T - 1 <= size Y 1 ->
  Decoder_forward (narrow1 Y (T - 1)) Xe (Decoder theta n T m p y_dim dropout) =
  Decoder_forward Y Xe (Decoder theta n T m p y_dim dropout).
Proof.
  intros Hk. unfold Decoder_forward, Decoder_enter.
  rewrite shape0_narrow1.
  apply bind_ext_readonly.
  { apply (readonly_Decoder_enter Y). }
  intros e. step_with (Decoder_attr_T theta n T m p y_dim dropout).
  unfold bind.
  rewrite Decoder_loop_narrow1 by (auto using range_below). reflexivity.
Qed.

(** A [Y] with fewer than [T - 1] steps: the loop fails at the first
    missing step. *)
Lemma Decoder_forward_short_Y theta n T m p y_dim dropout Y Xe B L :
  shape Y = [B; L; y_dim] -> shape Xe = [T; B; m] -> L < T - 1 ->
  Decoder_forward Y Xe (Decoder theta n T m p y_dim dropout) =
  (Err (IndexError "index out of range"), Decoder theta n T m p y_dim dropout).
Proof.
  intros HY HX HL. unfold Decoder_forward.
  step_with (Decoder_enter_ok theta n T m p y_dim dropout Y B _ HY).
  cbn [fst snd]. step_with (Decoder_attr_T theta n T m p y_dim dropout).
  apply bind_Err. unfold range.
  replace (T - 1) with (L + S (T - 1 - L - 1)) by lia.
  rewrite seq_app, for_each_app. cbn [Nat.add seq].
  destruct (Decoder_loop_ok theta n T m p y_dim dropout Y Xe B L L 0
              (mkDecoderLocals (zeros [1; B; p]) (zeros [1; B; p]) None) HY HX)
    as (st & E & [Hh Hc] & _); [lia | split; reflexivity |].
  step_with E. cbn [for_each]. apply bind_Err.
  unfold Decoder_step.
  destruct (Decoder_attention_ok theta n T m p y_dim dropout Xe B _ _ HX Hh Hc)
    as (l & ctx & _ & _ & E1).
  step_with E1. apply bind_Err.
  apply (Decoder_update_IndexError theta n T m p y_dim dropout Y B L L); auto.
Qed.

(** C9 as the claim states it fails: a [Y] of shape (2, 7, 1), whose
    time axis differs from [T - 1 = 4], is accepted by [Decoder.forward];
    its last three steps are never read, and the prediction is the one for
    [Y[:, :4]]. *)
Lemma Decoder_forward_accepts_long_Y :
  size long_Y 1 <> 5 - 1 /\
  exists y_hat_T,
    Decoder_forward long_Y (zeros [5; 2; 4]) (Decoder theta1 3 5 4 4 1 0%R) =
    (Ok y_hat_T, Decoder theta1 3 5 4 4 1 0%R) /\
    Decoder_forward (narrow1 long_Y 4) (zeros [5; 2; 4])
      (Decoder theta1 3 5 4 4 1 0%R) =
    (Ok y_hat_T, Decoder theta1 3 5 4 4 1 0%R).
Proof.
  split; [unfold size; simpl; lia|].
  destruct (Decoder_forward_ok theta1 3 5 4 4 1 0%R long_Y (zeros [5; 2; 4]) 2 7)
    as (out & E & _); [lia | reflexivity | lia | reflexivity |].
  exists out. split; [exact E|].
  rewrite <- E. apply (Decoder_forward_narrow1 theta1 3 5 4 4 1 0%R).
  unfold size. simpl. lia.
Qed.

(** C9, amended.  [Decoder.forward] compares no shape with the
    configuration.  For [Y] of shape (batch, L, y_dim) and [X_encoded] of
    shape (T, batch, m): when [L < T - 1] the read of [Y[:, t, :]] at the
    first missing step raises [IndexError]; when [L >= T - 1] the call
    returns a (batch, y_dim) prediction, which is the prediction for the
    first [T - 1] steps of [Y]. *)
Theorem Decoder_forward_time_axis_of_Y
    (theta : initializer) (n T m p y_dim : nat) (dropout : R)
    (Y X_encoded : tensor) (batch L : nat) :
  2 <= T ->
  shape Y = [batch; L; y_dim] ->
  shape X_encoded = [T; batch; m] ->
  (L < T - 1 ->
   Decoder_forward Y X_encoded (Decoder theta n T m p y_dim dropout) =
   (Err (IndexError "index out of range"), Decoder theta n T m p y_dim dropout))
  /\
  (T - 1 <= L ->
   exists y_hat_T,
     Decoder_forward Y X_encoded (Decoder theta n T m p y_dim dropout) =
     (Ok y_hat_T, Decoder theta n T m p y_dim dropout) /\
     shape y_hat_T = [batch; y_dim] /\
     Decoder_forward (narrow1 Y (T - 1)) X_encoded
       (Decoder theta n T m p y_dim dropout) =
     (Ok y_hat_T, Decoder theta n T m p y_dim dropout)).
Proof.
  intros HT HY HX. split.
  - intros HL. apply (Decoder_forward_short_Y theta n T m p y_dim dropout
                        Y X_encoded batch L); assumption.
  - intros HL.
    destruct (Decoder_forward_ok theta n T m p y_dim dropout Y X_encoded batch L)
      as (out & E & S); auto.
    exists out. split; [exact E|]. split; [exact S|].
    rewrite <- E. apply Decoder_forward_narrow1.
    unfold size. rewrite HY. exact HL.
Qed.

Lemma Decoder_forward_time_axis_of_Y_witness :
  Decoder_forward (zeros [2; 3; 1]) (zeros [5; 2; 4])
    (Decoder theta1 3 5 4 4 1 0%R) =
  (Err (IndexError "index out of range"), Decoder theta1 3 5 4 4 1 0%R)
  /\
  exists y_hat_T,
    Decoder_forward long_Y (zeros [5; 2; 4]) (Decoder theta1 3 5 4 4 1 0%R) =
    (Ok y_hat_T, Decoder theta1 3 5 4 4 1 0%R) /\
    shape y_hat_T = [2; 1] /\
    Decoder_forward (narrow1 long_Y (5 - 1)) (zeros [5; 2; 4])
      (Decoder theta1 3 5 4 4 1 0%R) =
    (Ok y_hat_T, Decoder theta1 3 5 4 4 1 0%R).
Proof.
  split.
  - apply (proj1 (Decoder_forward_time_axis_of_Y theta1 3 5 4 4 1 0%R
                    (zeros [2; 3; 1]) (zeros [5; 2; 4]) 2 3
                    ltac:(lia) eq_refl eq_refl)).
    simpl. lia.
  - apply (proj2 (Decoder_forward_time_axis_of_Y theta1 3 5 4 4 1 0%R
                    long_Y (zeros [5; 2; 4]) 2 7
                    ltac:(lia) eq_refl eq_refl)).
    simpl. lia.
Defined.

(** ** Attention weights *)

Lemma bind_lift_inv {A B : Type} (r : result A) (f : A -> M B) self b self' :
  bind (lift r) f self = (Ok b, self') ->
  exists a, r = Ok a /\ f a self = (Ok b, self').
Proof.
  unfold bind, lift. destruct r as [a|e]; [|discriminate].
  intros H. exists a. split; [reflexivity | exact H].
Qed.

Lemma bind_inv_readonly {A B : Type} (m : M A) (f : A -> M B) self b self' :
  readonly m ->
  bind m f self = (Ok b, self') ->
  exists a, m self = (Ok a, self) /\ f a self = (Ok b, self').
Proof.
  intros Hm. unfold bind. specialize (Hm self).
  destruct (m self) as [[a|e] s1]; simpl in Hm; subst; [|discriminate].
  intros H. exists a. split; [reflexivity | exact H].
Qed.

Lemma getattr_int_known name k self :
  attrs_get name (attrs self) = Some (VInt k) ->
  getattr_int name self = (Ok k, self).
Proof.
  intros H. unfold getattr_int, bind, getattr. rewrite H. reflexivity.
Qed.

Lemma view_shape t sh t' : view t sh = Ok t' -> shape t' = sh.
Proof.
  unfold view. destruct (negb _); [discriminate|].
  intros H. inversion H. reflexivity.
Qed.


Lemma getattr_Linear_known name l self :
  attrs_get name (attrs self) = Some (VLinear l) ->
  getattr_Linear name self = (Ok l, self).
Proof.
  intros H. unfold getattr_Linear, bind, getattr. rewrite H. reflexivity.
Qed.

Lemma permute_021 t x y z :
  shape t = [x; y; z] ->
  exists t', permute t [0; 2; 1] = Ok t' /\ shape t' = [x; z; y].
Proof.
  intros Ht. unfold permute, rank, size. rewrite Ht. simpl.
  eexists. split; reflexivity.
Qed.

(** Equations 8 and 9 go through on any object that does bind [linear]
    to a projection of the sizes of [WU_e], next to [n] and [v_e]. *)
Lemma Encoder_attention_ok self n T m lin v X B h c :
  attrs_get "n" (attrs self) = Some (VInt n) ->
  attrs_get "linear" (attrs self) = Some (VLinear lin) ->
  attrs_get "v_e" (attrs self) = Some (VLinear v) ->
  in_features lin = m * 2 + T -> out_features lin = in_features v ->
  out_features v = 1 ->
  shape X = [B; T; n] -> shape h = [1; B; m] -> shape c = [1; B; m] ->
  exists E,
    shape E = [B; n] /\
    Encoder_attention X B h c self =
    (Ok (mkTensor [B; n] (softmax_values E 1)), self).
Proof.
  intros Hn Hlin Hv Hin Hmid Hout HX Hh Hc. unfold Encoder_attention.
  destruct (torch_cat_3_2 h c 1 B m m Hh Hc) as (t1 & E1 & S1). step_lift E1.
  destruct (permute_102 t1 _ _ _ S1) as (t2 & E2 & S2). step_lift E2.
  step_with (getattr_int_known "n" n self Hn).
  destruct (torch_repeat_3 t2 _ _ _ 1 n 1 S2) as (t3 & E3 & S3). step_lift E3.
  rewrite !Nat.mul_1_r, Nat.mul_1_l in S3.
  step_with (getattr_Linear_known "linear" lin self Hlin).
  destruct (permute_021 X _ _ _ HX) as (t4 & E4 & S4). step_lift E4.
  destruct (torch_cat_3_2 t3 t4 _ _ _ _ S3 S4) as (t5 & E5 & S5). step_lift E5.
  destruct (Linear_forward_ok lin t5 [B; n] (m + m + T) S5) as (t6 & E6 & S6);
    [lia|].
  step_lift E6. cbv zeta.
  step_with (getattr_Linear_known "v_e" v self Hv).
  destruct (Linear_forward_ok v (torch_tanh t6) [B; n] (out_features lin) S6 Hmid)
    as (t7 & E7 & S7).
  step_lift E7. step_with (getattr_int_known "n" n self Hn).
  destruct (view_ok t7 [B; n]) as (t8 & E8 & S8).
  { rewrite S7, Hout. simpl. lia. }
  step_lift E8. exists t8. split; [exact S8|].
  unfold lift. rewrite (torch_softmax_2_1 t8 B n S8). reflexivity.
Qed.

(** Whenever Equations 8 and 9 go through on an object whose [n] is
    positive, [Alpha_t] is the softmax of a (batch, n) score. *)
Lemma Encoder_attention_distribution self n X batch h c Alpha_t self' :
  attrs_get "n" (attrs self) = Some (VInt n) -> 1 <= n ->
  Encoder_attention X batch h c self = (Ok Alpha_t, self') ->
  distribution batch n Alpha_t.
Proof.
  intros Hn Hpos H. unfold Encoder_attention in H.
  apply bind_lift_inv in H as (t1 & _ & H).
  apply bind_lift_inv in H as (t2 & _ & H).
  rewrite (bind_Ok _ _ _ _ _ (getattr_int_known "n" n self Hn)) in H.
  apply bind_lift_inv in H as (t3 & _ & H).
  apply bind_inv_readonly in H as (lin & _ & H);
    [|apply readonly_getattr_Linear].
  apply bind_lift_inv in H as (t4 & _ & H).
  apply bind_lift_inv in H as (t5 & _ & H).
  apply bind_lift_inv in H as (t6 & _ & H).
  cbv zeta in H.
  apply bind_inv_readonly in H as (v_e & _ & H);
    [|apply readonly_getattr_Linear].
  apply bind_lift_inv in H as (t7 & _ & H).
  rewrite (bind_Ok _ _ _ _ _ (getattr_int_known "n" n self Hn)) in H.
  apply bind_lift_inv in H as (E & HE & H).
  apply view_shape in HE.
  unfold lift in H. rewrite (torch_softmax_2_1 E batch n HE) in H.
  inversion H. subst. apply softmax_distribution; assumption.
Qed.



(** ** The Keras model [DARNN] *)

Lemma tf_zeros_ok (b : nat) (m : Z) :
  (0 <= m)%Z -> tf_zeros [Z.of_nat b; m] = Ok (zeros [b; Z.to_nat m]).
Proof.
  intros Hm. unfold tf_zeros. cbn [forallb map].
  assert (H1 : (0 <=? Z.of_nat b)%Z = true) by (apply Z.leb_le; lia).
  assert (H2 : (0 <=? m)%Z = true) by (apply Z.leb_le; lia).
  rewrite H1, H2, Nat2Z.id. reflexivity.
Qed.

Lemma tf_squeeze_shape_2 y b d :
  shape y = [b; d] ->
  shape (tf_squeeze y) =
  (if b =? 1 then [] else [b]) ++ (if d =? 1 then [] else [d]).
Proof.
  intros Hy. unfold tf_squeeze. cbn [shape]. rewrite Hy. cbn [filter].
  destruct (b =? 1), (d =? 1); reflexivity.
Qed.

Section DARNN_properties.

Variables EncoderInput_layer LSTM_layer Decoder_layer : Type.
Variable layers_EncoderInput : Z -> Z -> result EncoderInput_layer.
Variable keras_LSTM : Z -> bool -> result LSTM_layer.
Variable layers_Decoder : Z -> Z -> Z -> result Decoder_layer.
Variable EncoderInput_call :
  EncoderInput_layer -> tensor -> tensor -> tensor -> result tensor.
Variable LSTM_call : LSTM_layer -> tensor -> result tensor.
Variable Decoder_call :
  Decoder_layer -> tensor -> tensor -> tensor -> tensor -> result tensor.

(** C5.  The constructor of the model, [DARNN.__init__], rejects every
    [T < 2], in particular 0 and 1, with the [ValueError] of the source,
    whatever the layer constructors would do: none of them is reached, and
    no model exists on which a forward pass could be called.  For [T >= 2],
    in particular 2, the check passes and the construction succeeds as soon
    as the three layers are built. *)
Theorem DARNN_init_validates_T (T m p : Z) :
  ((T < 2)%Z ->
   DARNN_init layers_EncoderInput keras_LSTM layers_Decoder T m p =
   Err (ValueError
          ("T must be an integer larger than 1, but got `" ++ str T ++ "`")))
  /\
  ((2 <= T)%Z ->
   forall ei l d,
     layers_EncoderInput T m = Ok ei ->
     keras_LSTM m true = Ok l ->
     layers_Decoder T m p = Ok d ->
     DARNN_init layers_EncoderInput keras_LSTM layers_Decoder T m p =
     Ok (mkDARNN m ei l d)).
Proof.
  split.
  - intros HT. unfold DARNN_init.
    apply Z.ltb_lt in HT. rewrite HT. reflexivity.
  - intros HT ei l d Hei Hl Hd. unfold DARNN_init.
    apply Z.ltb_ge in HT. rewrite HT, Hei, Hl, Hd. reflexivity.
Qed.

(** C8, amended.  [DARNN.call] returns [tf.squeeze] of the decoder's
    prediction.  When that prediction has shape (batch, y_dim), every axis
    of size 1 is removed: the result has shape (batch, y_dim) when neither
    is 1, (batch) when only [y_dim] is 1, (y_dim) when only [batch] is 1,
    and no axis when both are 1; for [batch > 1] the batch axis is the
    first axis of the result. *)
Theorem DARNN_call_squeezes_unit_axes
    (self : DARNN EncoderInput_layer LSTM_layer Decoder_layer)
    (X dec_data h0 X_tilde encoder_h y_hat_T : tensor) (batch y_dim : nat) :
  shape0 X = Ok batch ->
  tf_zeros [Z.of_nat batch; DARNN_m self] = Ok h0 ->
  EncoderInput_call (encoder_input self) X h0 h0 = Ok X_tilde ->
  LSTM_call (encoder_lstm self) X_tilde = Ok encoder_h ->
  Decoder_call (decoder self) dec_data encoder_h h0 h0 = Ok y_hat_T ->
  shape y_hat_T = [batch; y_dim] ->
  DARNN_call EncoderInput_call LSTM_call Decoder_call self (X, dec_data) =
  Ok (tf_squeeze y_hat_T) /\
  shape (tf_squeeze y_hat_T) =
  (if batch =? 1 then [] else [batch]) ++ (if y_dim =? 1 then [] else [y_dim]) /\
  (1 < batch -> hd 0 (shape (tf_squeeze y_hat_T)) = batch).
Proof.
  intros HX Hz He Hl Hd Hy.
  pose proof (tf_squeeze_shape_2 y_hat_T batch y_dim Hy) as Hs.
  split; [|split].
  - unfold DARNN_call. cbn [fst snd rbind].
    rewrite HX. cbn [rbind]. rewrite Hz. cbn [rbind].
    rewrite He. cbn [rbind]. rewrite Hl. cbn [rbind]. rewrite Hd. reflexivity.
  - exact Hs.
  - intros Hb. rewrite Hs.
    assert (H1 : (batch =? 1) = false) by (apply Nat.eqb_neq; lia).
    rewrite H1. reflexivity.
Qed.

End DARNN_properties.

Lemma DARNN_init_validates_T_witness :
  (DARNN_init spec_layers_EncoderInput spec_keras_LSTM spec_layers_Decoder
     0%Z 4%Z 4%Z =
   Err (ValueError "T must be an integer larger than 1, but got `0`") /\
   DARNN_init spec_layers_EncoderInput spec_keras_LSTM spec_layers_Decoder
     1%Z 4%Z 4%Z =
   Err (ValueError "T must be an integer larger than 1, but got `1`")) /\
  DARNN_init spec_layers_EncoderInput spec_keras_LSTM spec_layers_Decoder
    2%Z 4%Z 4%Z = Ok (mkDARNN 4%Z tt 4 tt).
Proof.
  split; [split|].
  - apply (proj1 (DARNN_init_validates_T unit nat unit
                    spec_layers_EncoderInput spec_keras_LSTM spec_layers_Decoder
                    0%Z 4%Z 4%Z)).
    lia.
  - apply (proj1 (DARNN_init_validates_T unit nat unit
                    spec_layers_EncoderInput spec_keras_LSTM spec_layers_Decoder
                    1%Z 4%Z 4%Z)).
    lia.
  - apply (proj2 (DARNN_init_validates_T unit nat unit
                    spec_layers_EncoderInput spec_keras_LSTM spec_layers_Decoder
                    2%Z 4%Z 4%Z));
      first [ lia | reflexivity ].
Defined.

(** C8 as the claim states it fails: for a batch of two windows and a
    decoder that returns a prediction of shape (2, 1), that is [batch = 2]
    and [y_dim = 1], [DARNN.call] returns a tensor of shape (2): it has
    fewer axes than (batch, y_dim) although [batch] is not 1. *)
Lemma DARNN_call_squeezes_batch_of_two :
  exists out,
    DARNN_call spec_EncoderInput_call spec_LSTM_call spec_Decoder_call
      (mkDARNN 4%Z tt 4 tt) (zeros [2; 5; 3], zeros [2; 4; 1]) = Ok out /\
    shape out = [2] /\ shape out <> [2; 1].
Proof.
  eexists. split; [reflexivity|]. split; [reflexivity | discriminate].
Qed.

Lemma DARNN_call_squeezes_unit_axes_witness :
  DARNN_call spec_EncoderInput_call spec_LSTM_call spec_Decoder_call
    (mkDARNN 4%Z tt 4 tt) (zeros [2; 5; 3], zeros [2; 4; 1]) =
  Ok (tf_squeeze (zeros [2; 1])) /\
  shape (tf_squeeze (zeros [2; 1])) = [2] /\
  hd 0 (shape (tf_squeeze (zeros [2; 1]))) = 2.
Proof.
  assert (H12 : 1 < 2) by lia.
  refine ((fun H => conj (proj1 H)
             (conj (proj1 (proj2 H)) (proj2 (proj2 H) H12))) _).
  apply (DARNN_call_squeezes_unit_axes unit nat unit
           spec_EncoderInput_call spec_LSTM_call spec_Decoder_call
           (mkDARNN 4%Z tt 4 tt)
           (zeros [2; 5; 3]) (zeros [2; 4; 1]) (zeros [2; 4])
           (zeros [2; 5; 3]) (zeros [2; 5; 4]) (zeros [2; 1]) 2 1);
    reflexivity.
Defined.

(** ** Zero initial state, statelessness and determinism *)

Section DARNN_initial_state.

Variables EncoderInput_layer LSTM_layer Decoder_layer : Type.
Variable EncoderInput_call :
  EncoderInput_layer -> tensor -> tensor -> tensor -> result tensor.
Variable LSTM_call : LSTM_layer -> tensor -> result tensor.
Variable Decoder_call :
  Decoder_layer -> tensor -> tensor -> tensor -> tensor -> result tensor.

(** [DARNN.call] hands the all-zero (batch, m) tensor to the input
    attention layer and to the decoder as both initial states. *)
Lemma DARNN_call_zero_state
    (self : DARNN EncoderInput_layer LSTM_layer Decoder_layer)
    (X dec_data : tensor) (batch : nat) (sh : list nat) :
  shape X = batch :: sh -> (0 <= DARNN_m self)%Z ->
  DARNN_call EncoderInput_call LSTM_call Decoder_call self (X, dec_data) =
  (let h0 := zeros [batch; Z.to_nat (DARNN_m self)] in
   X_tilde <- EncoderInput_call (encoder_input self) X h0 h0 ;;
   encoder_h <- LSTM_call (encoder_lstm self) X_tilde ;;
   y_hat_T <- Decoder_call (decoder self) dec_data encoder_h h0 h0 ;;
   Ok (tf_squeeze y_hat_T))%result.
Proof.
  intros HX Hm. unfold DARNN_call, shape0. cbn [fst snd]. rewrite HX.
  cbn [rbind]. rewrite (tf_zeros_ok batch (DARNN_m self) Hm). reflexivity.
Qed.

End DARNN_initial_state.

Local Open Scope method_scope.



Local Close Scope method_scope.


(** * Further properties of the code *)

(** ** Bounds on the recurrent state *)

Lemma sigmoid_bounds x : (0 < sigmoid x < 1)%R.
Proof.
  unfold sigmoid. pose proof (exp_pos (- x)) as He.
  assert (Hd : (0 < 1 + exp (- x))%R) by lra.
  split.
  - apply Rdiv_lt_0_compat; lra.
  - apply (Rmult_lt_reg_r (1 + exp (- x))); [exact Hd|].
    unfold Rdiv. rewrite Rmult_assoc, Rinv_l by lra. lra.
Qed.

Lemma tanh_bounds x : (-1 < tanh x < 1)%R.
Proof.
  unfold tanh, sinh, cosh.
  pose proof (exp_pos x) as Ha. pose proof (exp_pos (- x)) as Hb.
  assert (Hd : (0 < (exp x + exp (- x)) / 2)%R) by lra.
  split.
  - apply (Rmult_lt_reg_r ((exp x + exp (- x)) / 2)); [exact Hd|].
    unfold Rdiv at 2. rewrite Rmult_assoc, Rinv_l by lra. lra.
  - apply (Rmult_lt_reg_r ((exp x + exp (- x)) / 2)); [exact Hd|].
    unfold Rdiv at 1. rewrite Rmult_assoc, Rinv_l by lra. lra.
Qed.

Lemma Rabs_lt_1_mult s t : (0 < s < 1)%R -> (-1 < t < 1)%R -> (Rabs (s * t) < 1)%R.
Proof.
  intros Hs Ht. apply Rabs_def1; nra.
Qed.

(** One step of the cell: the hidden state lies in (-1, 1) and the cell
    state grows by less than 1 in absolute value. *)
Lemma lstm_cell_hidden_bound l x hc b j :
  (Rabs (fst (lstm_cell l x hc) b j) < 1)%R.
Proof.
  unfold lstm_cell. cbn [fst].
  apply Rabs_lt_1_mult; [apply sigmoid_bounds | apply tanh_bounds].
Qed.

Lemma lstm_cell_cell_bound l x hc b j K :
  (Rabs (snd hc b j) <= K)%R ->
  (Rabs (snd (lstm_cell l x hc) b j) < K + 1)%R.
Proof.
  destruct hc as [h c0]. unfold lstm_cell. cbn [fst snd]. intros HK.
  set (f := sigmoid _). set (i := sigmoid _). set (g := tanh _).
  assert (Hf : (0 < f < 1)%R) by apply sigmoid_bounds.
  assert (Hi : (0 < i < 1)%R) by apply sigmoid_bounds.
  assert (Hg : (-1 < g < 1)%R) by apply tanh_bounds.
  set (c := c0 b j) in *. clearbody f i g c.
  assert (Hc : (- K <= c <= K)%R).
  { unfold Rabs in HK. destruct (Rcase_abs c); lra. }
  assert (HK0 : (0 <= K)%R) by lra.
  assert (Hfc : (- K <= f * c <= K)%R) by nra.
  assert (Hig : (-1 < i * g < 1)%R) by nra.
  apply Rabs_def1; lra.
Qed.

Lemma LSTM_forward_1_bounded l input h c B :
  shape input = [1; B; input_size l] ->
  shape h = [1; B; hidden_size l] -> shape c = [1; B; hidden_size l] ->
  exists out h' c',
    LSTM_forward l input (h, c) = Ok (out, (h', c')) /\
    shape h' = [1; B; hidden_size l] /\ shape c' = [1; B; hidden_size l] /\
    (forall idx, (Rabs (data h' idx) < 1)%R) /\
    (forall K, (forall idx, (Rabs (data c idx) <= K)%R) ->
               forall idx, (Rabs (data c' idx) < K + 1)%R).
Proof.
  intros Hi Hh Hc. unfold LSTM_forward. cbn [fst snd].
  rewrite Hi, Hh, Hc, Nat.eqb_refl, list_eqb_refl. cbn [negb].
  do 3 eexists. split; [reflexivity|].
  split; [reflexivity|]. split; [reflexivity|]. cbn [data lstm_run]. split.
  - intros idx. apply lstm_cell_hidden_bound.
  - intros K HK idx. apply lstm_cell_cell_bound. cbn [snd]. apply HK.
Qed.

Section DecoderBounds.

Variable theta : initializer.
Variables n T m p y_dim : nat.
Variable dropout : R.

Local Abbreviation self := (Decoder theta n T m p y_dim dropout).

Lemma Decoder_update_bounded Y B L t h c ctx :
  shape Y = [B; L; y_dim] -> t < L ->
  shape h = [1; B; p] -> shape c = [1; B; p] -> shape ctx = [B; m] ->
  exists h' c',
    Decoder_update Y t h c ctx self = (Ok (h', c'), self) /\
    shape h' = [1; B; p] /\ shape c' = [1; B; p] /\
    (forall idx, (Rabs (data h' idx) < 1)%R) /\
    (forall K, (forall idx, (Rabs (data c idx) <= K)%R) ->
               forall idx, (Rabs (data c' idx) < K + 1)%R).
Proof.
  intros HY Ht Hh Hc Hctx. unfold Decoder_update.
  step_with (Decoder_attr_linear theta n T m p y_dim dropout).
  pose proof (getitem1_3 Y B L y_dim t HY Ht) as E1. step_lift E1.
  destruct (torch_cat_2_1 (mkTensor [B; y_dim]
                             (fun idx => data Y (insert_nth 1 t idx)))
              ctx B y_dim m eq_refl Hctx) as (t2 & E2 & S2).
  step_lift E2.
  destruct (Linear_forward_ok (Linear_new theta "linear" (y_dim + m) 1 false)
              t2 [B] (y_dim + m) S2 eq_refl) as (t3 & E3 & S3).
  step_lift E3. step_with (Decoder_attr_lstm theta n T m p y_dim dropout).
  destruct (unsqueeze_2_0 t3 B 1 S3) as (t4 & E4 & S4). step_lift E4.
  destruct (LSTM_forward_1_bounded (LSTM_new theta "lstm" 1 p dropout) t4 h c B
              S4 Hh Hc) as (out & h' & c' & E5 & Sh & Sc & Bh & Bc).
  step_lift E5. exists h', c'. repeat split; assumption.
Qed.

Lemma Decoder_step_bounded Y Xe B L t st k :
  shape Y = [B; L; y_dim] -> shape Xe = [T; B; m] -> t < L ->
  Decoder_state_ok p B st -> Decoder_state_bounded k st ->
  exists st',
    Decoder_step Y Xe B t st self = (Ok st', self) /\
    Decoder_state_ok p B st' /\ context_ok m B st' /\
    Decoder_state_bounded (S k) st'.
Proof.
  intros HY HX Ht [Hh Hc] [Bh Bc]. unfold Decoder_step.
  destruct (Decoder_attention_ok theta n T m p y_dim dropout Xe B _ _ HX Hh Hc)
    as (l & ctx & Sl & Sctx & E1).
  step_with E1. cbn [fst snd].
  destruct (Decoder_update_bounded Y B L t _ _ ctx HY Ht Hh Hc Sctx)
    as (h' & c' & E2 & Sh & Sc & Bh' & Bc').
  step_with E2. cbn [fst snd].
  eexists. split; [reflexivity|]. split; [split; assumption|]. split.
  - exists ctx. split; [reflexivity | assumption].
  - split; cbn [dec_hidden_state dec_cell_state].
    + exact Bh'.
    + intros idx. rewrite S_INR. apply Rlt_le. apply Bc'. exact Bc.
Qed.

Lemma Decoder_loop_bounded Y Xe B L k st j :
  shape Y = [B; L; y_dim] -> shape Xe = [T; B; m] -> k <= L ->
  Decoder_state_ok p B st -> Decoder_state_bounded j st ->
  forall a, a + k <= L ->
  exists st',
    for_each (seq a k) (Decoder_step Y Xe B) st self = (Ok st', self) /\
    Decoder_state_ok p B st' /\ (1 <= k -> context_ok m B st') /\
    Decoder_state_bounded (j + k) st'.
Proof.
  intros HY HX. revert st. induction k as [|k IH]; intros st Hk Hst Hb a Ha.
  - exists st. split; [reflexivity|]. split; [assumption|]. split; [lia|].
    rewrite Nat.add_0_r. assumption.
  - rewrite seq_S, for_each_app.
    destruct (IH st) with (a := a) as (st1 & E1 & Hst1 & _ & Hb1);
      [lia | assumption | assumption | lia |].
    step_with E1.
    destruct (Decoder_step_bounded Y Xe B L (a + k) st1 (j + k) HY HX)
      as (st2 & E2 & Hst2 & Hc2 & Hb2); [lia | assumption | assumption |].
    cbn [for_each]. step_with E2.
    exists st2. split; [reflexivity|]. split; [assumption|].
    split; [intros _; assumption|].
    rewrite Nat.add_succ_r. assumption.
Qed.

End DecoderBounds.



(** ** The context vector *)

Lemma unsqueeze_2_1_eq t x y :
  shape t = [x; y] ->
  unsqueeze t 1 = Ok (mkTensor [x; 1; y] (fun idx => data t (remove_nth 1 idx))).
Proof. intros Ht. unfold unsqueeze, rank. rewrite Ht. reflexivity. Qed.

Lemma permute_102_eq t x y z :
  shape t = [x; y; z] ->
  permute t [1; 0; 2] =
  Ok (mkTensor [y; x; z]
        (fun idx => data t [nth 1 idx 0; nth 0 idx 0; nth 2 idx 0])).
Proof. intros Ht. unfold permute, rank, size. rewrite Ht. reflexivity. Qed.

Lemma bmm_eq a b x n k p :
  shape a = [x; n; k] -> shape b = [x; k; p] ->
  bmm a b =
  Ok (mkTensor [x; n; p]
        (fun idx =>
           let i := nth 0 idx 0 in
           let r := nth 1 idx 0 in
           let c := nth 2 idx 0 in
           Rsum k (fun l => (data a [i; r; l] * data b [i; l; c])%R))).
Proof.
  intros Ha Hb. unfold bmm. rewrite Ha, Hb, !Nat.eqb_refl. reflexivity.
Qed.

Lemma squeeze_3_1_eq t x z :
  shape t = [x; 1; z] ->
  squeeze t 1 = Ok (mkTensor [x; z] (fun idx => data t (insert_nth 1 0 idx))).
Proof. intros Ht. unfold squeeze, rank, size. rewrite Ht. reflexivity. Qed.

Lemma softmax_values_pos t x y b j :
  shape t = [x; y] -> 1 <= y -> (0 < softmax_values t 1 [b; j])%R.
Proof.
  intros Ht Hy. unfold softmax_values, size. rewrite Ht. unfold list_set.
  cbn [nth firstn skipn app].
  apply Rdiv_lt_0_compat; [apply exp_pos|].
  apply (Rsum_exp_pos y (fun k => data t [b; k]) Hy).
Qed.

(** A weighted mean, with non-negative weights that sum to 1, of values
    between [lo] and [hi] lies between [lo] and [hi]. *)
Lemma Rsum_weighted_bounds n (w x : nat -> R) (lo hi : R) :
  (forall k, (0 <= w k)%R) ->
  (forall k, k < n -> (lo <= x k <= hi)%R) ->
  (lo * Rsum n w <= Rsum n (fun k => w k * x k) <= hi * Rsum n w)%R.
Proof.
  intros Hw Hx. induction n as [|n IH]; simpl; [lra|].
  assert (IH' := IH (fun k Hk => Hx k (Nat.lt_lt_succ_r _ _ Hk))).
  specialize (Hw n). specialize (Hx n (Nat.lt_succ_diag_r n)). nra.
Qed.

Section DecoderContext.

Variable theta : initializer.
Variables n T m p y_dim : nat.
Variable dropout : R.

Local Abbreviation self := (Decoder theta n T m p y_dim dropout).

(** Equations 13 and 14 entry by entry. *)
Lemma Decoder_attention_entries Xe B h c :
  1 <= T ->
  shape Xe = [T; B; m] -> shape h = [1; B; p] -> shape c = [1; B; p] ->
  exists Beta_t c_t,
    Decoder_attention Xe B h c self = (Ok (Beta_t, c_t), self) /\
    distribution B T Beta_t /\
    (forall b k, (0 < data Beta_t [b; k])%R) /\
    shape c_t = [B; m] /\
    (forall b j,
       data c_t [b; j] =
       Rsum T (fun k => (data Beta_t [b; k] * data Xe [k; b; j])%R)).
Proof.
  intros HT HX Hh Hc. unfold Decoder_attention.
  step_with (Decoder_attr_v_d theta n T m p y_dim dropout).
  step_with (Decoder_attr_WU_d theta n T m p y_dim dropout).
  destruct (torch_cat_3_2 h c 1 B p p Hh Hc) as (t1 & E1 & S1). step_lift E1.
  destruct (permute_102 t1 _ _ _ S1) as (t2 & E2 & S2). step_lift E2.
  step_with (Decoder_attr_T theta n T m p y_dim dropout).
  destruct (torch_repeat_3 t2 _ _ _ 1 T 1 S2) as (t3 & E3 & S3). step_lift E3.
  rewrite !Nat.mul_1_r, Nat.mul_1_l in S3.
  pose proof (permute_102_eq Xe _ _ _ HX) as E4. step_lift E4.
  match goal with
  | |- context [torch_cat t3 ?b 2] =>
      destruct (torch_cat_3_2 t3 b B T (p + p) m S3 eq_refl) as (t5 & E5 & S5)
  end.
  step_lift E5.
  destruct (Linear_forward_ok (Linear_new theta "WU_d" (p * 2 + m) m false)
              t5 [B; T] (p + p + m) S5) as (t6 & E6 & S6); [simpl; lia|].
  step_lift E6.
  destruct (Linear_forward_ok (Linear_new theta "v_d" m 1 false)
              (torch_tanh t6) [B; T] m S6) as (t7 & E7 & S7); [reflexivity|].
  step_lift E7. step_with (Decoder_attr_T theta n T m p y_dim dropout).
  destruct (view_ok t7 [B; T]) as (t8 & E8 & S8).
  { rewrite S7. simpl. lia. }
  step_lift E8.
  pose proof (torch_softmax_2_1 t8 B T S8) as E9. step_lift E9.
  pose proof (unsqueeze_2_1_eq (mkTensor [B; T] (softmax_values t8 1)) B T eq_refl)
    as E10.
  step_lift E10. step_lift E4.
  match goal with
  | |- context [bmm ?a ?b] =>
      pose proof (bmm_eq a b B 1 T m eq_refl eq_refl) as E11
  end.
  step_lift E11.
  match goal with
  | |- context [squeeze ?a 1] =>
      pose proof (squeeze_3_1_eq a B m eq_refl) as E12
  end.
  step_lift E12.
  eexists. eexists. split; [reflexivity|].
  split; [apply softmax_distribution; assumption|].
  split; [intros b k; apply (softmax_values_pos t8 B T b k S8 HT)|].
  split; reflexivity.
Qed.

End DecoderContext.



(** ** Inputs that [Decoder.forward] rejects *)

Lemma permute_bad_rank t :
  rank t <> 3 ->
  permute t [1; 0; 2] =
  Err (RuntimeError "permute: dims do not match the tensor dimensions").
Proof.
  intros Hr. unfold permute, is_permutation. cbn [length].
  destruct (3 =? rank t) eqn:E.
  - apply Nat.eqb_eq in E. congruence.
  - reflexivity.
Qed.

Lemma torch_cat_3_2_mismatch a b x y z x' y' w :
  shape a = [x; y; z] -> shape b = [x'; y'; w] -> (x <> x' \/ y <> y') ->
  torch_cat a b 2 =
  Err (RuntimeError "Sizes of tensors must match except in the cat dimension").
Proof.
  intros Ha Hb Hne. unfold torch_cat, rank, size. rewrite Ha, Hb. simpl.
  destruct (x =? x') eqn:Ex; [|reflexivity].
  destruct (y =? y') eqn:Ey; [|reflexivity].
  apply Nat.eqb_eq in Ex. apply Nat.eqb_eq in Ey. destruct Hne; congruence.
Qed.

Lemma torch_cat_rank_mismatch a b d :
  rank a <> rank b ->
  torch_cat a b d =
  Err (RuntimeError "Tensors must have same number of dimensions").
Proof.
  intros Hr. unfold torch_cat.
  destruct (rank a =? rank b) eqn:E; [|reflexivity].
  apply Nat.eqb_eq in E. congruence.
Qed.

Lemma Linear_forward_mismatch l x sh k :
  shape x = sh ++ [k] -> k <> in_features l ->
  Linear_forward l x =
  Err (RuntimeError "mat1 and mat2 shapes cannot be multiplied").
Proof.
  intros Hx Hk. unfold Linear_forward. rewrite Hx.
  destruct (sh ++ [k]) as [|d rest] eqn:E.
  - destruct sh; discriminate.
  - rewrite <- E, last_last.
    destruct (k =? in_features l) eqn:Ek; [|reflexivity].
    apply Nat.eqb_eq in Ek. congruence.
Qed.

Lemma getitem1_low_rank t i :
  rank t < 3 -> getitem1 t i = Err (IndexError "too many indices for tensor").
Proof.
  intros Hr. unfold getitem1. apply Nat.ltb_lt in Hr. rewrite Hr. reflexivity.
Qed.

Section DecoderRejects.

Variable theta : initializer.
Variables n T m p y_dim : nat.
Variable dropout : R.

Local Abbreviation self := (Decoder theta n T m p y_dim dropout).

(** The attention of an iteration raises on an [X_encoded] that is not
    of shape (T, batch, m). *)
Lemma Decoder_attention_bad_X_encoded Xe B h c :
  shape h = [1; B; p] -> shape c = [1; B; p] -> shape Xe <> [T; B; m] ->
  exists msg,
    Decoder_attention Xe B h c self = (Err (RuntimeError msg), self).
Proof.
  intros Hh Hc HX. unfold Decoder_attention.
  step_with (Decoder_attr_v_d theta n T m p y_dim dropout).
  step_with (Decoder_attr_WU_d theta n T m p y_dim dropout).
  destruct (torch_cat_3_2 h c 1 B p p Hh Hc) as (t1 & E1 & S1). step_lift E1.
  destruct (permute_102 t1 _ _ _ S1) as (t2 & E2 & S2). step_lift E2.
  step_with (Decoder_attr_T theta n T m p y_dim dropout).
  destruct (torch_repeat_3 t2 _ _ _ 1 T 1 S2) as (t3 & E3 & S3). step_lift E3.
  rewrite !Nat.mul_1_r, Nat.mul_1_l in S3.
  destruct (Nat.eq_dec (rank Xe) 3) as [Hr|Hr].
  - unfold rank in Hr.
    destruct (shape Xe) as [|a [|b [|d [|e r]]]] eqn:EX; try discriminate.
    destruct (permute_102 Xe _ _ _ EX) as (t4 & E4 & S4). step_lift E4.
    destruct (Nat.eq_dec B b) as [HB|HB]; [destruct (Nat.eq_dec T a) as [HT|HT]|].
    + subst a b.
      destruct (torch_cat_3_2 t3 t4 _ _ _ _ S3 S4) as (t5 & E5 & S5). step_lift E5.
      eexists. apply bind_lift_Err.
      apply (Linear_forward_mismatch _ t5 [B; T] (p + p + d) S5).
      simpl. intros H. apply HX. f_equal. f_equal. f_equal. lia.
    + eexists. apply bind_lift_Err.
      apply (torch_cat_3_2_mismatch t3 t4 _ _ _ _ _ _ S3 S4). right. exact HT.
    + eexists. apply bind_lift_Err.
      apply (torch_cat_3_2_mismatch t3 t4 _ _ _ _ _ _ S3 S4). left. exact HB.
  - eexists. apply bind_lift_Err. apply permute_bad_rank. exact Hr.
Qed.

(** An exception of the first iteration is the outcome of the forward
    pass. *)
Lemma Decoder_forward_first_iteration Y Xe B shY e :
  2 <= T -> shape Y = B :: shY ->
  Decoder_step Y Xe B 0
    (mkDecoderLocals (zeros [1; B; p]) (zeros [1; B; p]) None) self =
  (Err e, self) ->
  Decoder_forward Y Xe self = (Err e, self).
Proof.
  intros HT HY Hs. unfold Decoder_forward.
  step_with (Decoder_enter_ok theta n T m p y_dim dropout Y B shY HY).
  cbn [fst snd]. step_with (Decoder_attr_T theta n T m p y_dim dropout).
  apply bind_Err. destruct (T - 1) as [|k] eqn:Ek; [lia|].
  unfold range. cbn [seq for_each]. apply bind_Err. exact Hs.
Qed.

Lemma Decoder_forward_bad_X_encoded Y Xe B shY :
  2 <= T -> shape Y = B :: shY -> shape Xe <> [T; B; m] ->
  exists msg, Decoder_forward Y Xe self = (Err (RuntimeError msg), self).
Proof.
  intros HT HY HX.
  destruct (Decoder_attention_bad_X_encoded Xe B (zeros [1; B; p])
              (zeros [1; B; p]) eq_refl eq_refl HX) as (msg & E).
  exists msg. apply (Decoder_forward_first_iteration Y Xe B shY _ HT HY).
  unfold Decoder_step. apply bind_Err. exact E.
Qed.

(** The first iteration on a well-shaped [X_encoded] fails in the update
    when the update does. *)
Lemma Decoder_forward_first_update Y Xe B shY e :
  2 <= T -> shape Y = B :: shY -> shape Xe = [T; B; m] ->
  (forall ctx, shape ctx = [B; m] ->
     Decoder_update Y 0 (zeros [1; B; p]) (zeros [1; B; p]) ctx self =
     (Err e, self)) ->
  Decoder_forward Y Xe self = (Err e, self).
Proof.
  intros HT HY HX Hu.
  apply (Decoder_forward_first_iteration Y Xe B shY _ HT HY).
  unfold Decoder_step. cbn [dec_hidden_state dec_cell_state].
  destruct (Decoder_attention_ok theta n T m p y_dim dropout Xe B
              (zeros [1; B; p]) (zeros [1; B; p]) HX eq_refl eq_refl)
    as (l & ctx & _ & Sctx & E1).
  step_with E1. cbn [fst snd]. apply bind_Err. apply Hu. exact Sctx.
Qed.

Lemma Decoder_update_low_rank Y t h c ctx :
  rank Y < 3 ->
  Decoder_update Y t h c ctx self =
  (Err (IndexError "too many indices for tensor"), self).
Proof.
  intros Hr. unfold Decoder_update.
  step_with (Decoder_attr_linear theta n T m p y_dim dropout).
  apply bind_lift_Err. apply getitem1_low_rank. exact Hr.
Qed.

Lemma Decoder_update_bad_y_dim Y B L y t h c ctx :
  shape Y = [B; L; y] -> t < L -> y <> y_dim -> shape ctx = [B; m] ->
  Decoder_update Y t h c ctx self =
  (Err (RuntimeError "mat1 and mat2 shapes cannot be multiplied"), self).
Proof.
  intros HY Ht Hy Hctx. unfold Decoder_update.
  step_with (Decoder_attr_linear theta n T m p y_dim dropout).
  pose proof (getitem1_3 Y B L y t HY Ht) as E1. step_lift E1.
  destruct (torch_cat_2_1 (mkTensor [B; y]
                             (fun idx => data Y (insert_nth 1 t idx)))
              ctx B y m eq_refl Hctx) as (t2 & E2 & S2).
  step_lift E2. apply bind_lift_Err.
  apply (Linear_forward_mismatch _ t2 [B] (y + m) S2). simpl. lia.
Qed.

Lemma Decoder_update_high_rank Y t h c ctx B :
  4 <= rank Y -> shape ctx = [B; m] ->
  exists e, Decoder_update Y t h c ctx self = (Err e, self).
Proof.
  intros Hr Hctx. unfold Decoder_update.
  step_with (Decoder_attr_linear theta n T m p y_dim dropout).
  destruct (getitem1 Y t) as [Yt|e] eqn:E1.
  - rewrite (bind_lift_Ok (Ok Yt) _ _ Yt eq_refl). cbv beta.
    eexists. apply bind_lift_Err.
    apply torch_cat_rank_mismatch.
    unfold getitem1 in E1.
    destruct (rank Y <? 3); [discriminate|].
    destruct (negb (t <? size Y 1)); [discriminate|].
    inversion E1. unfold rank in *. cbn [shape]. rewrite Hctx.
    destruct (shape Y) as [|a [|b [|d [|e r]]]]; simpl in *; lia.
  - exists e. apply bind_lift_Err. reflexivity.
Qed.

End DecoderRejects.

Section DecoderContract.

Variable theta : initializer.
Variables n T m p y_dim : nat.
Variable dropout : R.

Local Abbreviation self := (Decoder theta n T m p y_dim dropout).

Lemma Decoder_update_out_of_range Y B L y t h c ctx :
  shape Y = [B; L; y] -> L <= t ->
  Decoder_update Y t h c ctx self =
  (Err (IndexError "index out of range"), self).
Proof.
  intros HY Ht. unfold Decoder_update.
  step_with (Decoder_attr_linear theta n T m p y_dim dropout).
  apply bind_lift_Err. apply (getitem1_out_of_range Y B L y t HY Ht).
Qed.

(** Without an iteration, Equation 22 reads the unbound
    [context_vector]. *)
Lemma Decoder_forward_no_iteration Y Xe B shY :
  T <= 1 -> shape Y = B :: shY ->
  Decoder_forward Y Xe self =
  (Err (UnboundLocalError "context_vector"), self).
Proof.
  intros HT HY. unfold Decoder_forward.
  step_with (Decoder_enter_ok theta n T m p y_dim dropout Y B shY HY).
  step_with (Decoder_attr_T theta n T m p y_dim dropout).
  replace (T - 1) with 0 by lia.
  cbn [range seq for_each fst snd]. rewrite bind_ret_l. unfold Decoder_output.
  step_with (Decoder_attr_vb theta n T m p y_dim dropout).
  step_with (Decoder_attr_Wb theta n T m p y_dim dropout).
  cbn [dec_hidden_state context_vector].
  destruct (squeeze_3_0 (zeros [1; B; p]) B p eq_refl) as (t1 & E1 & S1).
  step_lift E1. reflexivity.
Qed.

(** Every input outside the contract makes the forward pass raise. *)
Lemma Decoder_forward_outside_contract Y Xe B shY :
  shape Y = B :: shY ->
  ~ (2 <= T /\ exists L, shY = [L; y_dim] /\ T - 1 <= L /\
                         shape Xe = [T; B; m]) ->
  exists e, Decoder_forward Y Xe self = (Err e, self).
Proof.
  intros HY Hno.
  destruct (le_lt_dec T 1) as [HT|HT].
  { eexists. apply (Decoder_forward_no_iteration Y Xe B shY HT HY). }
  destruct (list_eq_dec Nat.eq_dec (shape Xe) [T; B; m]) as [HX|HX].
  2:{ destruct (Decoder_forward_bad_X_encoded theta n T m p y_dim dropout
                  Y Xe B shY HT HY HX) as (msg & E).
      eexists. exact E. }
  destruct shY as [|L [|y [|z r]]].
  - eexists.
    apply (Decoder_forward_first_update theta n T m p y_dim dropout
             Y Xe B [] _ HT HY HX).
    intros ctx _. apply Decoder_update_low_rank.
    unfold rank. rewrite HY. simpl. lia.
  - eexists.
    apply (Decoder_forward_first_update theta n T m p y_dim dropout
             Y Xe B [L] _ HT HY HX).
    intros ctx _. apply Decoder_update_low_rank.
    unfold rank. rewrite HY. simpl. lia.
  - destruct (Nat.eq_dec L 0) as [HL0|HL0].
    { eexists.
      apply (Decoder_forward_first_update theta n T m p y_dim dropout
               Y Xe B [L; y] _ HT HY HX).
      intros ctx _. apply (Decoder_update_out_of_range Y B L y 0); [exact HY|lia]. }
    destruct (Nat.eq_dec y y_dim) as [Hy|Hy].
    + subst y. destruct (le_lt_dec (T - 1) L) as [HL|HL].
      * exfalso. apply Hno. split; [lia|]. exists L. auto.
      * eexists.
        apply (Decoder_forward_short_Y theta n T m p y_dim dropout Y Xe B L
                 HY HX HL).
    + eexists.
      apply (Decoder_forward_first_update theta n T m p y_dim dropout
               Y Xe B [L; y] _ HT HY HX).
      intros ctx Sctx.
      apply (Decoder_update_bad_y_dim theta n T m p y_dim dropout Y B L y 0);
        [exact HY | lia | exact Hy | exact Sctx].
  - assert (Hr : 4 <= rank Y) by (unfold rank; rewrite HY; simpl; lia).
    destruct (Decoder_attention_ok theta n T m p y_dim dropout Xe B
                (zeros [1; B; p]) (zeros [1; B; p]) HX eq_refl eq_refl)
      as (l & ctx & _ & Sctx & E1).
    destruct (Decoder_update_high_rank theta n T m p y_dim dropout Y 0
                (zeros [1; B; p]) (zeros [1; B; p]) ctx B Hr Sctx) as (e & E2).
    exists e.
    apply (Decoder_forward_first_iteration theta n T m p y_dim dropout
             Y Xe B _ _ HT HY).
    unfold Decoder_step. cbn [dec_hidden_state dec_cell_state].
    step_with E1. cbn [fst snd]. apply bind_Err. exact E2.
Qed.

End DecoderContract.

(** The input contract of [Decoder.forward], for a configuration of
    positive sizes and a [Y] with a non-empty batch axis: the forward pass
    returns a prediction exactly when [T >= 2], [Y] has three axes
    (batch, L, y_dim) with [L >= T - 1], and [X_encoded] has shape
    (T, batch, m); on every other input it raises. *)
Theorem Decoder_forward_returns_iff
    (theta : initializer) (n T m p y_dim : nat) (dropout : R)
    (Y X_encoded : tensor) :
  0 < m -> 0 < p -> 0 < y_dim -> 0 < size Y 0 ->
  ((exists y_hat_T,
      Decoder_forward Y X_encoded (Decoder theta n T m p y_dim dropout) =
      (Ok y_hat_T, Decoder theta n T m p y_dim dropout))
   <->
   (2 <= T /\
    exists L, shape Y = [size Y 0; L; y_dim] /\ T - 1 <= L /\
              shape X_encoded = [T; size Y 0; m])) /\
  ((exists e,
      Decoder_forward Y X_encoded (Decoder theta n T m p y_dim dropout) =
      (Err e, Decoder theta n T m p y_dim dropout))
   <->
   ~ (2 <= T /\
      exists L, shape Y = [size Y 0; L; y_dim] /\ T - 1 <= L /\
                shape X_encoded = [T; size Y 0; m])).
Proof.
  intros _ _ _ HB.
  assert (HY : exists shY, shape Y = size Y 0 :: shY).
  { unfold size in *. destruct (shape Y) as [|B shY]; [simpl in HB; lia|].
    exists shY. reflexivity. }
  destruct HY as [shY HY].
  assert (Hok : (2 <= T /\ exists L, shape Y = [size Y 0; L; y_dim] /\
                   T - 1 <= L /\ shape X_encoded = [T; size Y 0; m]) ->
                exists y_hat_T,
                  Decoder_forward Y X_encoded (Decoder theta n T m p y_dim dropout) =
                  (Ok y_hat_T, Decoder theta n T m p y_dim dropout)).
  { intros (HT & L & HYL & HL & HX).
    destruct (Decoder_forward_ok theta n T m p y_dim dropout Y X_encoded
                (size Y 0) L HT HYL HL HX) as (out & E & _).
    exists out. exact E. }
  assert (Herr : ~ (2 <= T /\ exists L, shape Y = [size Y 0; L; y_dim] /\
                      T - 1 <= L /\ shape X_encoded = [T; size Y 0; m]) ->
                 exists e,
                   Decoder_forward Y X_encoded (Decoder theta n T m p y_dim dropout) =
                   (Err e, Decoder theta n T m p y_dim dropout)).
  { intros Hno.
    apply (Decoder_forward_outside_contract theta n T m p y_dim dropout
             Y X_encoded (size Y 0) shY HY).
    intros (HT & L & HshY & HL & HX). apply Hno. split; [exact HT|].
    exists L. rewrite HY at 1. rewrite HshY. auto. }
  assert (Hdec : {2 <= T /\ exists L, shape Y = [size Y 0; L; y_dim] /\
                    T - 1 <= L /\ shape X_encoded = [T; size Y 0; m]} +
                 {~ (2 <= T /\ exists L, shape Y = [size Y 0; L; y_dim] /\
                       T - 1 <= L /\ shape X_encoded = [T; size Y 0; m])}).
  { destruct (le_lt_dec 2 T) as [HT|HT]; [|right; intros [H _]; lia].
    destruct (list_eq_dec Nat.eq_dec (shape X_encoded) [T; size Y 0; m])
      as [HX|HX]; [|right; intros (_ & L & _ & _ & H); congruence].
    destruct shY as [|L [|y [|z r]]];
      try (right; intros (_ & L' & H & _); rewrite HY in H; discriminate).
    destruct (Nat.eq_dec y y_dim) as [Hy|Hy];
      [|right; intros (_ & L' & H & _); rewrite HY in H; congruence].
    destruct (le_lt_dec (T - 1) L) as [HL|HL].
    - left. split; [exact HT|]. exists L. subst y. auto.
    - right. intros (_ & L' & H & HL' & _). rewrite HY in H.
      inversion H. subst. lia. }
  split; split.
  - intros (out & E). destruct Hdec as [H|H]; [exact H|].
    destruct (Herr H) as (e & E'). rewrite E in E'. discriminate.
  - exact Hok.
  - intros (e & E) H. destruct (Hok H) as (out & E').
    rewrite E in E'. discriminate.
  - exact Herr.
Qed.

Lemma Decoder_forward_returns_iff_witness :
  (exists y_hat_T,
     Decoder_forward (zeros [2; 4; 1]) (zeros [5; 2; 4])
       (Decoder theta1 3 5 4 4 1 0%R) =
     (Ok y_hat_T, Decoder theta1 3 5 4 4 1 0%R)) /\
  (exists e,
     Decoder_forward (zeros [2; 4; 1]) (zeros [2; 5; 4])
       (Decoder theta1 3 5 4 4 1 0%R) =
     (Err e, Decoder theta1 3 5 4 4 1 0%R)).
Proof.
  split.
  - apply (proj1 (Decoder_forward_returns_iff theta1 3 5 4 4 1 0%R
                    (zeros [2; 4; 1]) (zeros [5; 2; 4])
                    ltac:(lia) ltac:(lia) ltac:(lia) ltac:(unfold size; simpl; lia))).
    split; [lia|]. exists 4. repeat split; first [ reflexivity | simpl; lia ].
  - apply (proj2 (Decoder_forward_returns_iff theta1 3 5 4 4 1 0%R
                    (zeros [2; 4; 1]) (zeros [2; 5; 4])
                    ltac:(lia) ltac:(lia) ltac:(lia) ltac:(unfold size; simpl; lia))).
    intros (_ & L & _ & _ & H). discriminate H.
Defined.

(** [Decoder.forward] rejects every [X_encoded] that is not of shape
    (T, batch, m), where [batch] is the leading size of [Y]: the first
    iteration raises [RuntimeError], in the permutation when [X_encoded] does
    not have three axes, in the concatenation when its time or batch size is
    off, and in the projection [WU_d] when its state size is off. *)
Theorem Decoder_forward_rejects_X_encoded
    (theta : initializer) (n T m p y_dim : nat) (dropout : R)
    (Y X_encoded : tensor) (batch : nat) (shY : list nat) :
  2 <= T -> 0 < m -> 0 < p -> 0 < y_dim ->
  shape Y = batch :: shY ->
  shape X_encoded <> [T; batch; m] ->
  exists msg,
    Decoder_forward Y X_encoded (Decoder theta n T m p y_dim dropout) =
    (Err (RuntimeError msg), Decoder theta n T m p y_dim dropout).
Proof.
  intros HT _ _ _ HY HX.
  apply (Decoder_forward_bad_X_encoded theta n T m p y_dim dropout
           Y X_encoded batch shY HT HY HX).
Qed.

(** A batch-major (batch, T, m) tensor in place of the time-major
    [X_encoded]. *)
Lemma Decoder_forward_rejects_X_encoded_witness :
  exists msg,
    Decoder_forward (zeros [2; 4; 1]) (zeros [2; 5; 4])
      (Decoder theta1 3 5 4 4 1 0%R) =
    (Err (RuntimeError msg), Decoder theta1 3 5 4 4 1 0%R).
Proof.
  apply (Decoder_forward_rejects_X_encoded theta1 3 5 4 4 1 0%R
           (zeros [2; 4; 1]) (zeros [2; 5; 4]) 2 [4; 1]);
    first [ lia | reflexivity | discriminate ].
Defined.

(** With a well-shaped [X_encoded], [Decoder.forward] rejects in its
    first iteration a [Y] of fewer than three axes, with [IndexError], and a
    [Y] of shape (batch, L, y) with [L >= 1] whose last size [y] is not
    [y_dim], with [RuntimeError] in the projection of Equation 15.  *)
Theorem Decoder_forward_rejects_Y
    (theta : initializer) (n T m p y_dim : nat) (dropout : R)
    (Y X_encoded : tensor) (batch : nat) (shY : list nat) :
  2 <= T -> 0 < m -> 0 < p -> 0 < y_dim ->
  shape Y = batch :: shY ->
  shape X_encoded = [T; batch; m] ->
  (length shY < 2 ->
   Decoder_forward Y X_encoded (Decoder theta n T m p y_dim dropout) =
   (Err (IndexError "too many indices for tensor"),
    Decoder theta n T m p y_dim dropout)) /\
  (forall L y, shY = [L; y] -> 1 <= L -> y <> y_dim ->
   Decoder_forward Y X_encoded (Decoder theta n T m p y_dim dropout) =
   (Err (RuntimeError "mat1 and mat2 shapes cannot be multiplied"),
    Decoder theta n T m p y_dim dropout)).
Proof.
  intros HT _ _ _ HY HX. split.
  - intros Hlen.
    apply (Decoder_forward_first_update theta n T m p y_dim dropout
             Y X_encoded batch shY _ HT HY HX).
    intros ctx _. apply Decoder_update_low_rank.
    unfold rank. rewrite HY. simpl. lia.
  - intros L y HshY HL Hy. subst shY.
    apply (Decoder_forward_first_update theta n T m p y_dim dropout
             Y X_encoded batch [L; y] _ HT HY HX).
    intros ctx Sctx.
    apply (Decoder_update_bad_y_dim theta n T m p y_dim dropout Y batch L y 0);
      [exact HY | lia | exact Hy | exact Sctx].
Qed.

Lemma Decoder_forward_rejects_Y_witness :
  Decoder_forward (zeros [2; 4]) (zeros [5; 2; 4])
    (Decoder theta1 3 5 4 4 1 0%R) =
  (Err (IndexError "too many indices for tensor"),
   Decoder theta1 3 5 4 4 1 0%R) /\
  Decoder_forward (zeros [2; 4; 3]) (zeros [5; 2; 4])
    (Decoder theta1 3 5 4 4 1 0%R) =
  (Err (RuntimeError "mat1 and mat2 shapes cannot be multiplied"),
   Decoder theta1 3 5 4 4 1 0%R).
Proof.
  split.
  - apply (proj1 (Decoder_forward_rejects_Y theta1 3 5 4 4 1 0%R
                    (zeros [2; 4]) (zeros [5; 2; 4]) 2 [4]
                    ltac:(lia) ltac:(lia) ltac:(lia) ltac:(lia)
                    eq_refl eq_refl)).
    simpl. lia.
  - apply (proj2 (Decoder_forward_rejects_Y theta1 3 5 4 4 1 0%R
                    (zeros [2; 4; 3]) (zeros [5; 2; 4]) 2 [4; 3]
                    ltac:(lia) ltac:(lia) ltac:(lia) ltac:(lia)
                    eq_refl eq_refl) 4 3 eq_refl);
      lia.
Defined.

(** ** Constructor arguments that do not reach the prediction *)

Lemma lstm_run_dropout theta name i h d d' input steps hc0 :
  lstm_run (LSTM_new theta name i h d) input steps hc0 =
  lstm_run (LSTM_new theta name i h d') input steps hc0.
Proof.
  induction steps as [|k IH]; cbn [lstm_run]; [reflexivity|].
  rewrite IH. reflexivity.
Qed.

Lemma LSTM_forward_dropout theta name i h d d' input hx :
  LSTM_forward (LSTM_new theta name i h d) input hx =
  LSTM_forward (LSTM_new theta name i h d') input hx.
Proof.
  unfold LSTM_forward.
  change (input_size (LSTM_new theta name i h d)) with i.
  change (input_size (LSTM_new theta name i h d')) with i.
  change (hidden_size (LSTM_new theta name i h d)) with h.
  change (hidden_size (LSTM_new theta name i h d')) with h.
  destruct (shape input) as [|L [|B [|F [|z r]]]]; try reflexivity.
  destruct (negb (F =? i)); [reflexivity|].
  destruct (negb (list_eqb (shape (fst hx)) [1; B; h])); [reflexivity|].
  destruct (negb (list_eqb (shape (snd hx)) [1; B; h])); [reflexivity|].
  do 2 f_equal; [|f_equal]; f_equal; apply functional_extensionality;
    intros idx; rewrite (lstm_run_dropout theta name i h d d'); reflexivity.
Qed.

Lemma fst_bind_lift {A B : Type} (r : result A) (f g : A -> M B) s1 s2 :
  (forall a, fst (f a s1) = fst (g a s2)) ->
  fst (bind (lift r) f s1) = fst (bind (lift r) g s2).
Proof. intros H. unfold bind, lift. destruct r; [apply H | reflexivity]. Qed.

Lemma fst_bind_readonly {A B : Type} (m : M A) (f g : A -> M B) s1 s2 :
  readonly m -> fst (m s1) = fst (m s2) ->
  (forall a, fst (f a s1) = fst (g a s2)) ->
  fst (bind m f s1) = fst (bind m g s2).
Proof.
  intros Hr Hm H. unfold bind.
  pose proof (Hr s1) as H1. pose proof (Hr s2) as H2.
  destruct (m s1) as [[a1|e1] s1'], (m s2) as [[a2|e2] s2'];
    simpl in *; subst; try discriminate.
  - inversion Hm. subst. apply H.
  - inversion Hm. reflexivity.
Qed.

Section DecoderUnusedArguments.

Variable theta : initializer.
Variables n n' T m p y_dim : nat.
Variables dropout dropout' : R.

Local Abbreviation self1 := (Decoder theta n T m p y_dim dropout).
Local Abbreviation self2 := (Decoder theta n' T m p y_dim dropout').

Ltac same_lifts := repeat (apply fst_bind_lift; intros ?).

Lemma Decoder_attention_unused Xe B h c :
  fst (Decoder_attention Xe B h c self1) = fst (Decoder_attention Xe B h c self2).
Proof.
  unfold Decoder_attention. same_lifts. reflexivity.
Qed.

Lemma Decoder_update_unused Y t h c ctx :
  fst (Decoder_update Y t h c ctx self1) = fst (Decoder_update Y t h c ctx self2).
Proof.
  unfold Decoder_update. same_lifts.
  rewrite (LSTM_forward_dropout theta "lstm" 1 p dropout dropout').
  same_lifts. reflexivity.
Qed.

Lemma Decoder_step_unused Y Xe B t st :
  fst (Decoder_step Y Xe B t st self1) = fst (Decoder_step Y Xe B t st self2).
Proof.
  unfold Decoder_step.
  apply fst_bind_readonly;
    [apply readonly_Decoder_attention | apply Decoder_attention_unused |].
  intros bc.
  apply fst_bind_readonly;
    [apply readonly_Decoder_update | apply Decoder_update_unused |].
  intros hc. reflexivity.
Qed.

Lemma Decoder_loop_unused Y Xe B ts st :
  fst (for_each ts (Decoder_step Y Xe B) st self1) =
  fst (for_each ts (Decoder_step Y Xe B) st self2).
Proof.
  revert st. induction ts as [|t ts IH]; intros st; cbn [for_each].
  - reflexivity.
  - apply fst_bind_readonly;
      [apply readonly_Decoder_step | apply Decoder_step_unused | exact IH].
Qed.

Lemma Decoder_output_unused st :
  fst (Decoder_output st self1) = fst (Decoder_output st self2).
Proof.
  unfold Decoder_output. same_lifts.
  destruct (context_vector st) as [ctx|]; cbn [read_local]; [|reflexivity].
  rewrite !bind_ret_l. same_lifts. reflexivity.
Qed.

Lemma Decoder_forward_unused Y Xe :
  fst (Decoder_forward Y Xe self1) = fst (Decoder_forward Y Xe self2).
Proof.
  unfold Decoder_forward, Decoder_enter. rewrite !bind_assoc. same_lifts.
  apply fst_bind_readonly.
  - apply readonly_for_each. intros t st. apply readonly_Decoder_step.
  - apply Decoder_loop_unused.
  - intros st. apply Decoder_output_unused.
Qed.

End DecoderUnusedArguments.

(** The argument [n] of the [Decoder] constructor is stored and never
    read: decoders that differ only in [n] give the same outcome, prediction
    or exception, on every input. *)
Theorem Decoder_forward_ignores_n
    (theta : initializer) (n n' T m p y_dim : nat) (dropout : R)
    (Y X_encoded : tensor) :
  fst (Decoder_forward Y X_encoded (Decoder theta n T m p y_dim dropout)) =
  fst (Decoder_forward Y X_encoded (Decoder theta n' T m p y_dim dropout)).
Proof. apply Decoder_forward_unused. Qed.

(** The argument [dropout] of the [Decoder] constructor only reaches
    the one-layer [LSTM], where it has no effect: decoders that differ only
    in a [dropout] between 0 and 1 give the same outcome on every input. *)
Theorem Decoder_forward_ignores_dropout
    (theta : initializer) (n T m p y_dim : nat) (dropout dropout' : R)
    (Y X_encoded : tensor) :
  (0 <= dropout <= 1)%R -> (0 <= dropout' <= 1)%R ->
  fst (Decoder_forward Y X_encoded (Decoder theta n T m p y_dim dropout)) =
  fst (Decoder_forward Y X_encoded (Decoder theta n T m p y_dim dropout')).
Proof. intros _ _. apply Decoder_forward_unused. Qed.

Lemma Decoder_forward_ignores_dropout_witness :
  fst (Decoder_forward (zeros [2; 4; 1]) (zeros [5; 2; 4])
         (Decoder theta1 3 5 4 4 1 0%R)) =
  fst (Decoder_forward (zeros [2; 4; 1]) (zeros [5; 2; 4])
         (Decoder theta1 3 5 4 4 1 (1 / 2)%R)).
Proof.
  apply (Decoder_forward_ignores_dropout theta1 3 5 4 4 1 0%R (1 / 2)%R);
    lra.
Defined.

(** ** The second half of the encoder loop body *)

Lemma torch_mul_2 a b x y :
  shape a = [x; y] -> shape b = [x; y] ->
  exists t, torch_mul a b = Ok t /\ shape t = [x; y].
Proof.
  intros Ha Hb. unfold torch_mul, broadcast_shapes. rewrite Ha, Hb.
  cbn [rev app broadcast_rev]. rewrite !Nat.eqb_refl. cbn [option_map rev app].
  eexists. split; reflexivity.
Qed.

Lemma getitem0_3 t x y z i :
  shape t = [x; y; z] -> i < x ->
  getitem0 t i = Ok (mkTensor [y; z] (fun idx => data t (i :: idx))).
Proof.
  intros Ht Hi. unfold getitem0. rewrite Ht.
  apply Nat.ltb_lt in Hi. rewrite Hi. reflexivity.
Qed.

Lemma setitem0_3 t v x y z i :
  shape t = [x; y; z] -> shape v = [y; z] -> i < x ->
  setitem0 t i v =
  Ok (mkTensor [x; y; z]
        (fun idx =>
           match idx with
           | j :: rest =>
               if j =? i then data v (broadcast_index [y; z] rest)
               else data t idx
           | [] => data t idx
           end)).
Proof.
  intros Ht Hv Hi. unfold setitem0, broadcast_shapes. rewrite Ht, Hv.
  apply Nat.ltb_lt in Hi. rewrite Hi.
  cbn [negb rev app broadcast_rev]. rewrite !Nat.eqb_refl.
  cbn [option_map rev app list_eqb]. rewrite !Nat.eqb_refl. reflexivity.
Qed.

Lemma broadcast_index_in_range y z b j :
  b < y -> j < z -> broadcast_index [y; z] [b; j] = [b; j].
Proof.
  intros Hb Hj. unfold broadcast_index. cbn [length Nat.sub skipn combine map fst snd].
  destruct (y =? 1) eqn:Ey; destruct (z =? 1) eqn:Ez;
    try apply Nat.eqb_eq in Ey; try apply Nat.eqb_eq in Ez;
    repeat f_equal; lia.
Qed.

Section EncoderUpdate.

Variable theta : initializer.
Variables n T m : nat.
Variable dropout : R.

Local Abbreviation self := (Encoder theta n T m dropout).

Lemma Encoder_attr_lstm :
  getattr_LSTM "lstm" self = (Ok (LSTM_new theta "lstm" n m dropout), self).
Proof. reflexivity. Qed.

Lemma Encoder_update_ok X B L t st Alpha_t :
  shape X = [B; L; n] -> t < L -> t < T ->
  shape Alpha_t = [B; n] ->
  shape (enc_hidden_state st) = [1; B; m] ->
  shape (enc_cell_state st) = [1; B; m] ->
  shape (X_encoded_acc st) = [T; B; m] ->
  exists st',
    Encoder_update X t st Alpha_t self = (Ok st', self) /\
    shape (enc_hidden_state st') = [1; B; m] /\
    shape (enc_cell_state st') = [1; B; m] /\
    shape (X_encoded_acc st') = [T; B; m] /\
    (forall b j, b < B -> j < m ->
       data (X_encoded_acc st') [t; b; j] = data (enc_hidden_state st') [0; b; j]) /\
    (forall i rest, i <> t ->
       data (X_encoded_acc st') (i :: rest) = data (X_encoded_acc st) (i :: rest)) /\
    (forall idx, (Rabs (data (enc_hidden_state st') idx) < 1)%R).
Proof.
  intros HX HtL HtT HA Hh Hc Hacc. unfold Encoder_update.
  step_with Encoder_attr_lstm.
  pose proof (getitem1_3 X B L n t HX HtL) as E1. step_lift E1.
  destruct (torch_mul_2 (mkTensor [B; n] (fun idx => data X (insert_nth 1 t idx)))
              Alpha_t B n eq_refl HA) as (t2 & E2 & S2).
  step_lift E2.
  destruct (unsqueeze_2_0 t2 B n S2) as (t3 & E3 & S3). step_lift E3.
  destruct (LSTM_forward_1_bounded (LSTM_new theta "lstm" n m dropout) t3
              (enc_hidden_state st) (enc_cell_state st) B S3 Hh Hc)
    as (out & h' & c' & E4 & Sh & Sc & Bh & _).
  step_lift E4. cbn [fst snd].
  pose proof (getitem0_3 h' 1 B m 0 Sh ltac:(lia)) as E5. step_lift E5.
  pose proof (setitem0_3 (X_encoded_acc st)
                (mkTensor [B; m] (fun idx => data h' (0 :: idx)))
                T B m t Hacc eq_refl HtT) as E6.
  step_lift E6.
  eexists. split; [reflexivity|].
  cbn [enc_hidden_state enc_cell_state X_encoded_acc shape data].
  split; [exact Sh|]. split; [exact Sc|]. split; [reflexivity|].
  split; [|split].
  - intros b j Hb Hj. rewrite Nat.eqb_refl.
    rewrite (broadcast_index_in_range B m b j Hb Hj). reflexivity.
  - intros i rest Hi.
    destruct (i =? t) eqn:E; [apply Nat.eqb_eq in E; congruence | reflexivity].
  - exact Bh.
Qed.

End EncoderUpdate.



(** ** The Keras model: construction and call, case by case *)

Lemma prod_filter_unit sh :
  prod (filter (fun d => negb (d =? 1)) sh) = prod sh.
Proof.
  unfold prod. induction sh as [|d sh IH]; [reflexivity|]. cbn [filter].
  destruct (d =? 1) eqn:E; cbn [negb fold_right]; rewrite IH.
  - apply Nat.eqb_eq in E. subst d. lia.
  - reflexivity.
Qed.

Lemma filter_unit_no_unit sh :
  Forall (fun d => d <> 1) (filter (fun d => negb (d =? 1)) sh).
Proof.
  apply Forall_forall. intros d Hd. apply filter_In in Hd as [_ Hd].
  intros ->. discriminate Hd.
Qed.

Section DARNN_cases.

Variables EncoderInput_layer LSTM_layer Decoder_layer : Type.
Variable layers_EncoderInput : Z -> Z -> result EncoderInput_layer.
Variable keras_LSTM : Z -> bool -> result LSTM_layer.
Variable layers_Decoder : Z -> Z -> Z -> result Decoder_layer.
Variable EncoderInput_call :
  EncoderInput_layer -> tensor -> tensor -> tensor -> result tensor.
Variable LSTM_call : LSTM_layer -> tensor -> result tensor.
Variable Decoder_call :
  Decoder_layer -> tensor -> tensor -> tensor -> tensor -> result tensor.

(** Every model that [DARNN.__init__] returns was configured with
    [T >= 2], stores [m], and holds the three layers built, in this order,
    by [EncoderInput(T, m)], [LSTM(m, return_sequences=True)] and
    [Decoder(T, m, p)].  Every exception of the constructor is the
    [ValueError] on [T], or the exception of the first layer constructor that
    fails; the later layers are then not built. *)
Theorem DARNN_init_cases (T m p : Z) :
  (forall model,
     DARNN_init layers_EncoderInput keras_LSTM layers_Decoder T m p = Ok model ->
     (2 <= T)%Z /\ DARNN_m model = m /\
     layers_EncoderInput T m = Ok (encoder_input model) /\
     keras_LSTM m true = Ok (encoder_lstm model) /\
     layers_Decoder T m p = Ok (decoder model)) /\
  (forall e,
     DARNN_init layers_EncoderInput keras_LSTM layers_Decoder T m p = Err e ->
     ((T < 2)%Z /\
      e = ValueError
            ("T must be an integer larger than 1, but got `" ++ str T ++ "`")) \/
     ((2 <= T)%Z /\ layers_EncoderInput T m = Err e) \/
     ((2 <= T)%Z /\ (exists ei, layers_EncoderInput T m = Ok ei) /\
      keras_LSTM m true = Err e) \/
     ((2 <= T)%Z /\ (exists ei, layers_EncoderInput T m = Ok ei) /\
      (exists l, keras_LSTM m true = Ok l) /\ layers_Decoder T m p = Err e)).
Proof.
  unfold DARNN_init. destruct (T <? 2)%Z eqn:ET.
  - apply Z.ltb_lt in ET. split.
    + intros model H. discriminate H.
    + intros e H. inversion H. left. split; [exact ET | reflexivity].
  - apply Z.ltb_ge in ET.
    destruct (layers_EncoderInput T m) as [ei|e1] eqn:E1; cbn [rbind].
    2:{ split; [intros model H; discriminate H|].
        intros e H. inversion H. subst. right. left. split; [exact ET | reflexivity]. }
    destruct (keras_LSTM m true) as [l|e2] eqn:E2; cbn [rbind].
    2:{ split; [intros model H; discriminate H|].
        intros e H. inversion H. subst. right. right. left.
        split; [exact ET|]. split; [exists ei; reflexivity | reflexivity]. }
    destruct (layers_Decoder T m p) as [d|e3] eqn:E3; cbn [rbind].
    2:{ split; [intros model H; discriminate H|].
        intros e H. inversion H. subst. right. right. right.
        split; [exact ET|]. split; [exists ei; reflexivity|].
        split; [exists l; reflexivity | reflexivity]. }
    split.
    + intros model H. inversion H. subst. cbn. auto.
    + intros e H. discriminate H.
Qed.

(** Whatever [DARNN.call] returns is [tf.squeeze] of the prediction that
    the decoder layer returned, on zero initial states of shape (batch, m):
    it has no axis of size 1, as many entries as that prediction and at most
    as many axes; for a prediction of shape (batch, 1) with [batch] other
    than 1, entry [i] of the result is entry [(i, 0)] of the prediction. *)
Theorem DARNN_call_result
    (self : DARNN EncoderInput_layer LSTM_layer Decoder_layer)
    (X dec_data out : tensor) :
  DARNN_call EncoderInput_call LSTM_call Decoder_call self (X, dec_data) = Ok out ->
  exists batch X_tilde encoder_h y_hat_T,
    shape0 X = Ok batch /\ (0 <= DARNN_m self)%Z /\
    EncoderInput_call (encoder_input self) X
      (zeros [batch; Z.to_nat (DARNN_m self)])
      (zeros [batch; Z.to_nat (DARNN_m self)]) = Ok X_tilde /\
    LSTM_call (encoder_lstm self) X_tilde = Ok encoder_h /\
    Decoder_call (decoder self) dec_data encoder_h
      (zeros [batch; Z.to_nat (DARNN_m self)])
      (zeros [batch; Z.to_nat (DARNN_m self)]) = Ok y_hat_T /\
    out = tf_squeeze y_hat_T /\
    Forall (fun d => d <> 1) (shape out) /\
    prod (shape out) = prod (shape y_hat_T) /\
    rank out <= rank y_hat_T /\
    (forall b, shape y_hat_T = [b; 1] -> b <> 1 ->
       shape out = [b] /\ forall i, data out [i] = data y_hat_T [i; 0]).
Proof.
  unfold DARNN_call. cbn [fst snd]. intros H.
  destruct (shape0 X) as [batch|e] eqn:E0; cbn [rbind] in H; [|discriminate H].
  unfold tf_zeros in H. cbn [forallb map] in H.
  assert (H0 : (0 <=? Z.of_nat batch)%Z = true) by (apply Z.leb_le; lia).
  rewrite H0 in H. cbn [andb] in H.
  destruct (0 <=? DARNN_m self)%Z eqn:Em; cbn [andb rbind] in H; [|discriminate H].
  apply Z.leb_le in Em. rewrite Nat2Z.id in H.
  destruct (EncoderInput_call _ _ _ _) as [X_tilde|e] eqn:E1;
    cbn [rbind] in H; [|discriminate H].
  destruct (LSTM_call _ _) as [encoder_h|e] eqn:E2;
    cbn [rbind] in H; [|discriminate H].
  destruct (Decoder_call _ _ _ _ _) as [y_hat_T|e] eqn:E3;
    cbn [rbind] in H; [|discriminate H].
  inversion H. subst out.
  exists batch, X_tilde, encoder_h, y_hat_T.
  repeat (split; [first [reflexivity | assumption]|]).
  split; [apply filter_unit_no_unit|].
  split; [apply prod_filter_unit|].
  split; [unfold rank, tf_squeeze; cbn [shape]; apply filter_length_le|].
  intros b Hs Hb. unfold tf_squeeze. cbn [shape data]. rewrite Hs.
  cbn [filter squeeze_index].
  assert (Hb' : (b =? 1) = false) by (apply Nat.eqb_neq; exact Hb).
  rewrite Hb'. cbn [negb Nat.eqb]. split; reflexivity.
Qed.

End DARNN_cases.

Lemma DARNN_init_cases_witness :
  (2 <= 2)%Z /\ DARNN_m (mkDARNN 4%Z tt 4 tt) = 4%Z /\
  spec_layers_EncoderInput 2 4 = Ok tt /\
  spec_keras_LSTM 4 true = Ok 4 /\
  spec_layers_Decoder 2 4 4 = Ok tt.
Proof.
  apply (proj1 (DARNN_init_cases unit nat unit
                  spec_layers_EncoderInput spec_keras_LSTM spec_layers_Decoder
                  2%Z 4%Z 4%Z) (mkDARNN 4%Z tt 4 tt)).
  reflexivity.
Defined.

Lemma DARNN_call_result_witness :
  exists batch X_tilde encoder_h y_hat_T,
    shape0 (zeros [2; 5; 3]) = Ok batch /\
    spec_EncoderInput_call tt (zeros [2; 5; 3]) (zeros [batch; 4])
      (zeros [batch; 4]) = Ok X_tilde /\
    spec_LSTM_call 4 X_tilde = Ok encoder_h /\
    spec_Decoder_call tt (zeros [2; 4; 1]) encoder_h (zeros [batch; 4])
      (zeros [batch; 4]) = Ok y_hat_T /\
    Forall (fun d => d <> 1) (shape (tf_squeeze (zeros [2; 1]))) /\
    prod (shape (tf_squeeze (zeros [2; 1]))) = prod (shape y_hat_T).
Proof.
  destruct (DARNN_call_result unit nat unit
              spec_EncoderInput_call spec_LSTM_call spec_Decoder_call
              (mkDARNN 4%Z tt 4 tt) (zeros [2; 5; 3]) (zeros [2; 4; 1])
              (tf_squeeze (zeros [2; 1])) eq_refl)
    as (batch & X_tilde & encoder_h & y_hat_T & E0 & _ & E1 & E2 & E3 & _ &
        Hf & Hp & _).
  exists batch, X_tilde, encoder_h, y_hat_T.
  repeat (split; [assumption|]). assumption.
Defined.

(** ** Entries of the tensor operations *)

Lemma torch_cat_3_2_spec a b x y z w :
  shape a = [x; y; z] -> shape b = [x; y; w] ->
  exists t,
    torch_cat a b 2 = Ok t /\ shape t = [x; y; z + w] /\
    forall i j k,
      data t [i; j; k] = if k <? z then data a [i; j; k] else data b [i; j; k - z].
Proof.
  intros Ha Hb. unfold torch_cat, rank, size. rewrite Ha, Hb. simpl.
  rewrite !Nat.eqb_refl. simpl. eexists. split; [reflexivity|].
  split; reflexivity.
Qed.

Lemma torch_cat_2_1_spec a b x z w :
  shape a = [x; z] -> shape b = [x; w] ->
  exists t,
    torch_cat a b 1 = Ok t /\ shape t = [x; z + w] /\
    forall i k,
      data t [i; k] = if k <? z then data a [i; k] else data b [i; k - z].
Proof.
  intros Ha Hb. unfold torch_cat, rank, size. rewrite Ha, Hb. simpl.
  rewrite !Nat.eqb_refl. simpl. eexists. split; [reflexivity|].
  split; reflexivity.
Qed.

Lemma permute_102_spec t x y z :
  shape t = [x; y; z] ->
  exists t',
    permute t [1; 0; 2] = Ok t' /\ shape t' = [y; x; z] /\
    forall i j k, data t' [i; j; k] = data t [j; i; k].
Proof.
  intros Ht. unfold permute, rank, size. rewrite Ht. simpl.
  eexists. split; [reflexivity|]. split; reflexivity.
Qed.

Lemma torch_repeat_time_spec t x z r :
  shape t = [x; 1; z] ->
  exists t',
    torch_repeat t [1; r; 1] = Ok t' /\ shape t' = [x; r; z] /\
    forall i j k, i < x -> k < z -> data t' [i; j; k] = data t [i; 0; k].
Proof.
  intros Ht. unfold torch_repeat, rank. rewrite Ht.
  cbn -[Nat.modulo Nat.mul].
  eexists. split; [reflexivity|]. split.
  - cbn [shape]. rewrite !Nat.mul_1_r, Nat.mul_1_l. reflexivity.
  - intros i j k Hi Hk. cbn -[Nat.modulo Nat.mul].
    rewrite (Nat.mod_small i x Hi), (Nat.mod_small k z Hk), Nat.mod_1_r.
    reflexivity.
Qed.

Lemma Linear_forward_3_spec l t x y k :
  shape t = [x; y; k] -> k = in_features l ->
  exists t',
    Linear_forward l t = Ok t' /\ shape t' = [x; y; out_features l] /\
    forall i j o,
      data t' [i; j; o] = Linear_apply l (fun q => data t [i; j; q]) o.
Proof.
  intros Ht Hk. unfold Linear_forward. rewrite Ht. subst k.
  cbn [last removelast app]. rewrite Nat.eqb_refl. cbn [negb].
  eexists. split; [reflexivity|]. split; reflexivity.
Qed.

Lemma Linear_forward_2_spec l t x k :
  shape t = [x; k] -> k = in_features l ->
  exists t',
    Linear_forward l t = Ok t' /\ shape t' = [x; out_features l] /\
    forall i o, data t' [i; o] = Linear_apply l (fun q => data t [i; q]) o.
Proof.
  intros Ht Hk. unfold Linear_forward. rewrite Ht. subst k.
  cbn [last removelast app]. rewrite Nat.eqb_refl. cbn [negb].
  eexists. split; [reflexivity|]. split; reflexivity.
Qed.

Lemma view_3_2_spec t x y :
  shape t = [x; y; 1] ->
  exists t',
    view t [x; y] = Ok t' /\ shape t' = [x; y] /\
    forall i j, j < y -> data t' [i; j] = data t [i; j; 0].
Proof.
  intros Ht. unfold view. rewrite Ht.
  assert (Hp : prod [x; y] = prod [x; y; 1]) by (simpl; lia).
  rewrite Hp, Nat.eqb_refl. cbn [negb].
  eexists. split; [reflexivity|]. split; [reflexivity|].
  intros i j Hj. cbn [data ravel unravel prod fold_right].
  rewrite !Nat.mul_1_r, !Nat.add_0_r.
  assert (Hq : (i * y + j) / y = i).
  { symmetry. apply (Nat.div_unique _ _ _ j); lia. }
  assert (Hr : (i * y + j) mod y = j).
  { symmetry. apply (Nat.mod_unique _ _ i); lia. }
  rewrite Hq, Hr, Nat.div_1_r, Nat.mod_1_r. reflexivity.
Qed.

Lemma unsqueeze_2_0_spec t x y :
  shape t = [x; y] ->
  exists t',
    unsqueeze t 0 = Ok t' /\ shape t' = [1; x; y] /\
    forall i j k, data t' [i; j; k] = data t [j; k].
Proof.
  intros Ht. unfold unsqueeze, rank. rewrite Ht. simpl.
  eexists. split; [reflexivity|]. split; reflexivity.
Qed.

Lemma squeeze_3_0_spec t y z :
  shape t = [1; y; z] ->
  exists t',
    squeeze t 0 = Ok t' /\ shape t' = [y; z] /\
    forall j k, data t' [j; k] = data t [0; j; k].
Proof.
  intros Ht. unfold squeeze, rank, size. rewrite Ht. simpl.
  eexists. split; [reflexivity|]. split; reflexivity.
Qed.

Lemma LSTM_forward_1_spec l input h c B :
  shape input = [1; B; input_size l] ->
  shape h = [1; B; hidden_size l] -> shape c = [1; B; hidden_size l] ->
  exists out h' c',
    LSTM_forward l input (h, c) = Ok (out, (h', c')) /\
    shape h' = [1; B; hidden_size l] /\ shape c' = [1; B; hidden_size l] /\
    (forall i b j,
       data h' [i; b; j] =
       fst (lstm_cell l (fun b k => data input [0; b; k])
              (fun b j => data h [0; b; j], fun b j => data c [0; b; j])) b j) /\
    (forall i b j,
       data c' [i; b; j] =
       snd (lstm_cell l (fun b k => data input [0; b; k])
              (fun b j => data h [0; b; j], fun b j => data c [0; b; j])) b j).
Proof.
  intros Hi Hh Hc. unfold LSTM_forward. cbn [fst snd].
  rewrite Hi, Hh, Hc, Nat.eqb_refl, list_eqb_refl. cbn [negb].
  do 3 eexists. split; [reflexivity|].
  split; [reflexivity|]. split; [reflexivity|]. split; reflexivity.
Qed.

(** ** Extensionality of the one-entry computation *)

Lemma Linear_apply_ext l x x' o :
  (forall k, k < in_features l -> x k = x' k) ->
  Linear_apply l x o = Linear_apply l x' o.
Proof.
  intros H. unfold Linear_apply. f_equal.
  apply Rsum_ext. intros k Hk. rewrite (H k Hk). reflexivity.
Qed.


(** ** [Decoder.forward], batch entry by batch entry *)

Section DecoderEntries.

Variable theta : initializer.
Variables n T m p y_dim : nat.
Variable dropout : R.

Local Abbreviation self := (Decoder theta n T m p y_dim dropout).
Local Abbreviation WU_d := (Linear_new theta "WU_d" (p * 2 + m) m false).
Local Abbreviation v_d := (Linear_new theta "v_d" m 1 false).
Local Abbreviation linear := (Linear_new theta "linear" (y_dim + m) 1 false).
Local Abbreviation lstm := (LSTM_new theta "lstm" 1 p dropout).
Local Abbreviation Wb := (Linear_new theta "Wb" (p + m) p true).
Local Abbreviation vb := (Linear_new theta "vb" p y_dim true).

(** Equations 12 to 14 compute, for each batch entry, the context vector
    of that entry. *)
Lemma Decoder_attention_entry Xe B h c :
  shape Xe = [T; B; m] -> shape h = [1; B; p] -> shape c = [1; B; p] ->
  exists Beta_t c_t,
    Decoder_attention Xe B h c self = (Ok (Beta_t, c_t), self) /\
    shape c_t = [B; m] /\
    forall b j, b < B ->
      data c_t [b; j] =
      sample_context WU_d v_d p T
        (fun q => data h [0; b; q]) (fun q => data c [0; b; q])
        (fun k q => data Xe [k; b; q]) j.
Proof.
  intros HX Hh Hc. unfold Decoder_attention.
  step_with (Decoder_attr_v_d theta n T m p y_dim dropout).
  step_with (Decoder_attr_WU_d theta n T m p y_dim dropout).
  destruct (torch_cat_3_2_spec h c 1 B p p Hh Hc) as (t1 & E1 & S1 & D1).
  step_lift E1.
  destruct (permute_102_spec t1 _ _ _ S1) as (t2 & E2 & S2 & D2). step_lift E2.
  step_with (Decoder_attr_T theta n T m p y_dim dropout).
  destruct (torch_repeat_time_spec t2 B (p + p) T S2) as (t3 & E3 & S3 & D3).
  step_lift E3.
  destruct (permute_102_spec Xe _ _ _ HX) as (t4 & E4 & S4 & D4). step_lift E4.
  destruct (torch_cat_3_2_spec t3 t4 _ _ _ _ S3 S4) as (t5 & E5 & S5 & D5).
  step_lift E5.
  destruct (Linear_forward_3_spec WU_d t5 B T (p + p + m) S5)
    as (t6 & E6 & S6 & D6); [simpl; lia|].
  step_lift E6.
  destruct (Linear_forward_3_spec v_d (torch_tanh t6) B T m S6 eq_refl)
    as (t7 & E7 & S7 & D7).
  step_lift E7. step_with (Decoder_attr_T theta n T m p y_dim dropout).
  destruct (view_3_2_spec t7 B T S7) as (t8 & E8 & S8 & D8). step_lift E8.
  pose proof (torch_softmax_2_1 t8 B T S8) as E9. step_lift E9.
  pose proof (unsqueeze_2_1_eq (mkTensor [B; T] (softmax_values t8 1)) B T eq_refl)
    as E10.
  step_lift E10. step_lift E4.
  match goal with
  | |- context [bmm ?a ?b] => pose proof (bmm_eq a b B 1 T m eq_refl S4) as E11
  end.
  step_lift E11.
  match goal with
  | |- context [squeeze ?a 1] =>
      pose proof (squeeze_3_1_eq a B m eq_refl) as E12
  end.
  step_lift E12.
  eexists. eexists. split; [reflexivity|]. split; [reflexivity|].
  intros b j Hb. cbn [data insert_nth remove_nth firstn skipn app nth].
  unfold sample_context. apply Rsum_ext. intros k Hk.
  rewrite D4. f_equal.
  assert (Hscore : forall k', k' < T ->
            data t8 [b; k'] =
            sample_score WU_d v_d p
              (fun q => data h [0; b; q]) (fun q => data c [0; b; q])
              (fun q => data Xe [k'; b; q])).
  { intros k' Hk'. rewrite (D8 b k' Hk'), D7. unfold sample_score.
    apply Linear_apply_ext. intros q _. cbn [torch_tanh data]. f_equal.
    rewrite D6. apply Linear_apply_ext. intros r _.
    rewrite D5. unfold cat_vec.
    destruct (r <? p + p) eqn:Er.
    - apply Nat.ltb_lt in Er. rewrite (D3 b k' r Hb Er), D2, D1. reflexivity.
    - rewrite D4. reflexivity. }
  unfold sample_beta, softmax_values, size. rewrite S8.
  unfold list_set. cbn [nth firstn skipn app].
  rewrite (Hscore k Hk). f_equal. apply Rsum_ext. intros k' Hk'.
  rewrite (Hscore k' Hk'). reflexivity.
Qed.

(** Equations 15 and 16 compute, for each batch entry, the new states of
    that entry. *)
Lemma Decoder_update_entry Y B L t h c ctx :
  shape Y = [B; L; y_dim] -> t < L ->
  shape h = [1; B; p] -> shape c = [1; B; p] -> shape ctx = [B; m] ->
  exists h' c',
    Decoder_update Y t h c ctx self = (Ok (h', c'), self) /\
    shape h' = [1; B; p] /\ shape c' = [1; B; p] /\
    forall b j,
      data h' [0; b; j] =
      fst (sample_update linear lstm y_dim
             (fun q => data Y [b; t; q]) (fun q => data ctx [b; q])
             (fun q => data h [0; b; q]) (fun q => data c [0; b; q])) j /\
      data c' [0; b; j] =
      snd (sample_update linear lstm y_dim
             (fun q => data Y [b; t; q]) (fun q => data ctx [b; q])
             (fun q => data h [0; b; q]) (fun q => data c [0; b; q])) j.
Proof.
  intros HY Ht Hh Hc Hctx. unfold Decoder_update.
  step_with (Decoder_attr_linear theta n T m p y_dim dropout).
  pose proof (getitem1_3 Y B L y_dim t HY Ht) as E1. step_lift E1.
  destruct (torch_cat_2_1_spec
              (mkTensor [B; y_dim] (fun idx => data Y (insert_nth 1 t idx)))
              ctx B y_dim m eq_refl Hctx) as (t2 & E2 & S2 & D2).
  step_lift E2.
  destruct (Linear_forward_2_spec linear t2 B (y_dim + m) S2 eq_refl)
    as (t3 & E3 & S3 & D3).
  step_lift E3. step_with (Decoder_attr_lstm theta n T m p y_dim dropout).
  destruct (unsqueeze_2_0_spec t3 B 1 S3) as (t4 & E4 & S4 & D4). step_lift E4.
  destruct (LSTM_forward_1_spec lstm t4 h c B S4 Hh Hc)
    as (out & h' & c' & E5 & Sh & Sc & Dh & Dc).
  step_lift E5. exists h', c'.
  split; [reflexivity|]. split; [exact Sh|]. split; [exact Sc|].
  intros b j.
  assert (Hin : (fun (_ : nat) k => data t4 [0; b; k]) =
                (fun (_ : nat) k =>
                   Linear_apply linear
                     (cat_vec y_dim (fun q => data Y [b; t; q])
                        (fun q => data ctx [b; q])) k)).
  { apply functional_extensionality. intros _.
    apply functional_extensionality. intros k.
    rewrite D4, D3. apply Linear_apply_ext. intros q _.
    rewrite D2. reflexivity. }
  rewrite Dh, Dc. unfold sample_update. cbv zeta. rewrite <- Hin.
  split; reflexivity.
Qed.

Lemma Decoder_step_entry Y Xe B L k st :
  shape Y = [B; L; y_dim] -> shape Xe = [T; B; m] -> k < L ->
  Decoder_state_ok p B st -> entries_agree theta T m p y_dim dropout Y Xe B k st ->
  exists st',
    Decoder_step Y Xe B k st self = (Ok st', self) /\
    Decoder_state_ok p B st' /\ context_ok m B st' /\
    entries_agree theta T m p y_dim dropout Y Xe B (S k) st'.
Proof.
  intros HY HX Hk [Hh Hc] Hag. unfold Decoder_step.
  destruct (Decoder_attention_entry Xe B _ _ HX Hh Hc)
    as (Beta_t & c_t & E1 & Sc_t & Dc_t).
  step_with E1. cbn [fst snd].
  destruct (Decoder_update_entry Y B L k _ _ c_t HY Hk Hh Hc Sc_t)
    as (h' & c' & E2 & Sh & Sc & Dhc).
  step_with E2. cbn [fst snd].
  eexists. split; [reflexivity|]. split; [split; assumption|]. split.
  { exists c_t. split; [reflexivity | assumption]. }
  intros b Hb. cbn zeta. cbn [dec_hidden_state dec_cell_state context_vector].
  destruct (Hag b Hb) as (Ah & Ac & _). cbn zeta in Ah, Ac.
  assert (Actx : (fun q => data c_t [b; q]) =
                 sample_context WU_d v_d p T
                   (fun q => data (dec_hidden_state st) [0; b; q])
                   (fun q => data (dec_cell_state st) [0; b; q])
                   (fun i q => data Xe [i; b; q])).
  { apply functional_extensionality. intros q. apply (Dc_t b q Hb). }
  cbn [sample_loop s_hidden s_cell s_context].
  rewrite <- Ah, <- Ac, <- Actx.
  split; [|split].
  - apply functional_extensionality. intros q. apply (proj1 (Dhc b q)).
  - apply functional_extensionality. intros q. apply (proj2 (Dhc b q)).
  - intros _. exists c_t. split; reflexivity.
Qed.

Lemma Decoder_loop_entry Y Xe B L k :
  shape Y = [B; L; y_dim] -> shape Xe = [T; B; m] -> k <= L ->
  exists st,
    for_each (range k) (Decoder_step Y Xe B)
      (mkDecoderLocals (zeros [1; B; p]) (zeros [1; B; p]) None) self =
    (Ok st, self) /\
    Decoder_state_ok p B st /\ (1 <= k -> context_ok m B st) /\
    entries_agree theta T m p y_dim dropout Y Xe B k st.
Proof.
  intros HY HX. induction k as [|k IH]; intros Hk.
  - eexists. split; [reflexivity|]. split; [split; reflexivity|].
    split; [lia|]. intros b Hb. cbn zeta.
    cbn [sample_loop s_hidden s_cell dec_hidden_state dec_cell_state zeros data].
    split; [reflexivity|]. split; [reflexivity|]. lia.
  - destruct IH as (st1 & E1 & Hst1 & _ & Hag1); [lia|].
    rewrite range_S, for_each_app. step_with E1.
    destruct (Decoder_step_entry Y Xe B L k st1 HY HX) as (st2 & E2 & Hst2 & Hc2 & Hag2);
      [lia | assumption | assumption |].
    cbn [for_each]. step_with E2.
    exists st2. split; [reflexivity|]. split; [assumption|].
    split; [intros _; assumption | assumption].
Qed.

(** Equation 22 computes, for each batch entry, the prediction of that
    entry. *)
Lemma Decoder_output_entry B st ctx :
  Decoder_state_ok p B st ->
  context_vector st = Some ctx -> shape ctx = [B; m] ->
  exists out,
    Decoder_output st self = (Ok out, self) /\ shape out = [B; y_dim] /\
    forall b i,
      data out [b; i] =
      Linear_apply vb
        (Linear_apply Wb
           (cat_vec p (fun q => data (dec_hidden_state st) [0; b; q])
              (fun q => data ctx [b; q]))) i.
Proof.
  intros [Hh Hc] Ectx Sctx. unfold Decoder_output.
  step_with (Decoder_attr_vb theta n T m p y_dim dropout).
  step_with (Decoder_attr_Wb theta n T m p y_dim dropout).
  destruct (squeeze_3_0_spec _ _ _ Hh) as (t1 & E1 & S1 & D1). step_lift E1.
  rewrite Ectx. cbn [read_local]. rewrite bind_ret_l.
  destruct (torch_cat_2_1_spec t1 ctx _ _ _ S1 Sctx) as (t2 & E2 & S2 & D2).
  step_lift E2.
  destruct (Linear_forward_2_spec Wb t2 B (p + m) S2 eq_refl)
    as (t3 & E3 & S3 & D3).
  step_lift E3.
  destruct (Linear_forward_2_spec vb t3 B p S3 eq_refl) as (t4 & E4 & S4 & D4).
  exists t4. split; [unfold lift; rewrite E4; reflexivity|].
  split; [exact S4|].
  intros b i. rewrite D4. apply Linear_apply_ext. intros q _.
  rewrite D3. apply Linear_apply_ext. intros r _.
  rewrite D2, D1. reflexivity.
Qed.

Lemma Decoder_forward_entry Y Xe B L :
  2 <= T -> shape Y = [B; L; y_dim] -> T - 1 <= L -> shape Xe = [T; B; m] ->
  exists out,
    Decoder_forward Y Xe self = (Ok out, self) /\ shape out = [B; y_dim] /\
    forall b i, b < B ->
      data out [b; i] =
      sample_forward theta T m p y_dim dropout
        (fun t q => data Y [b; t; q]) (fun k q => data Xe [k; b; q]) i.
Proof.
  intros HT HY HL HX. unfold Decoder_forward.
  step_with (Decoder_enter_ok theta n T m p y_dim dropout Y B _ HY).
  cbn [fst snd]. step_with (Decoder_attr_T theta n T m p y_dim dropout).
  destruct (Decoder_loop_entry Y Xe B L (T - 1) HY HX HL)
    as (st & E & Hst & Hctx & Hag).
  step_with E.
  destruct Hctx as (ctx & Ectx & Sctx); [lia|].
  destruct (Decoder_output_entry B st ctx Hst Ectx Sctx) as (out & Eo & So & Do).
  exists out. split; [exact Eo|]. split; [exact So|].
  intros b i Hb. rewrite Do. unfold sample_forward.
  destruct (Hag b Hb) as (Ah & Ac & Actx). cbn zeta in Ah, Ac, Actx.
  destruct Actx as (ctx' & Ectx' & Actx); [lia|].
  rewrite Ectx in Ectx'. inversion Ectx'. subst ctx'.
  rewrite <- Ah, <- Actx. reflexivity.
Qed.

End DecoderEntries.

(** ** What one batch entry depends on *)

Lemma lstm_gate_ext l x x' h h' b b' j :
  (forall k, k < input_size l -> x b k = x' b' k) ->
  (forall k, k < hidden_size l -> h b k = h' b' k) ->
  lstm_gate l x h b j = lstm_gate l x' h' b' j.
Proof.
  intros Hx Hh. unfold lstm_gate.
  rewrite (Rsum_ext (input_size l) _
             (fun k => (data (weight_ih_l0 l) [j; k] * x' b' k)%R)).
  2:{ intros k Hk. rewrite (Hx k Hk). reflexivity. }
  rewrite (Rsum_ext (hidden_size l) _
             (fun k => (data (weight_hh_l0 l) [j; k] * h' b' k)%R)).
  2:{ intros k Hk. rewrite (Hh k Hk). reflexivity. }
  reflexivity.
Qed.

Lemma sample_score_ext WU_d v_d p h h' c c' x x' :
  (forall q, q < p -> h q = h' q) ->
  (forall q, q < p -> c q = c' q) ->
  (forall q, p + p + q < in_features WU_d -> x q = x' q) ->
  sample_score WU_d v_d p h c x = sample_score WU_d v_d p h' c' x'.
Proof.
  intros Hh Hc Hx. unfold sample_score.
  apply Linear_apply_ext. intros j _. f_equal.
  apply Linear_apply_ext. intros r Hr. unfold cat_vec.
  destruct (r <? p + p) eqn:E1.
  - apply Nat.ltb_lt in E1. destruct (r <? p) eqn:E2.
    + apply Nat.ltb_lt in E2. auto.
    + apply Nat.ltb_ge in E2. apply Hc. lia.
  - apply Nat.ltb_ge in E1. apply Hx. lia.
Qed.

Lemma sample_context_ext WU_d v_d p T h h' c c' xe xe' j :
  (forall q, q < p -> h q = h' q) ->
  (forall q, q < p -> c q = c' q) ->
  (forall k q, k < T -> p + p + q < in_features WU_d -> xe k q = xe' k q) ->
  (forall k, k < T -> xe k j = xe' k j) ->
  sample_context WU_d v_d p T h c xe j =
  sample_context WU_d v_d p T h' c' xe' j.
Proof.
  intros Hh Hc Hx Hj.
  assert (Hs : forall k, k < T ->
            sample_score WU_d v_d p h c (xe k) =
            sample_score WU_d v_d p h' c' (xe' k)).
  { intros k Hk. apply sample_score_ext; auto. }
  unfold sample_context. apply Rsum_ext. intros k Hk.
  rewrite (Hj k Hk). f_equal. unfold sample_beta.
  rewrite (Hs k Hk). f_equal. apply Rsum_ext. intros k' Hk'.
  rewrite (Hs k' Hk'). reflexivity.
Qed.

Lemma sample_update_ext linear lstm y_dim y y' ctx ctx' h h' c c' j :
  (forall q, q < y_dim -> y q = y' q) ->
  (forall q, y_dim + q < in_features linear -> ctx q = ctx' q) ->
  (forall q, q < hidden_size lstm -> h q = h' q) ->
  c j = c' j ->
  fst (sample_update linear lstm y_dim y ctx h c) j =
  fst (sample_update linear lstm y_dim y' ctx' h' c') j /\
  snd (sample_update linear lstm y_dim y ctx h c) j =
  snd (sample_update linear lstm y_dim y' ctx' h' c') j.
Proof.
  intros Hy Hctx Hh Hc.
  assert (Hin : forall k,
            Linear_apply linear (cat_vec y_dim y ctx) k =
            Linear_apply linear (cat_vec y_dim y' ctx') k).
  { intros k. apply Linear_apply_ext. intros r Hr. unfold cat_vec.
    destruct (r <? y_dim) eqn:E.
    - apply Nat.ltb_lt in E. auto.
    - apply Nat.ltb_ge in E. apply Hctx. lia. }
  assert (Hg : forall i,
            lstm_gate lstm
              (fun _ k => Linear_apply linear (cat_vec y_dim y ctx) k)
              (fun _ => h) 0 i =
            lstm_gate lstm
              (fun _ k => Linear_apply linear (cat_vec y_dim y' ctx') k)
              (fun _ => h') 0 i).
  { intros i. apply lstm_gate_ext; [intros k _; apply Hin | exact Hh]. }
  unfold sample_update, lstm_cell. cbv zeta. cbn [fst snd].
  rewrite !Hg, Hc. split; reflexivity.
Qed.

Lemma sample_loop_ext theta T m p y_dim dropout y y' xe xe' steps :
  (forall t q, t < steps -> q < y_dim -> y t q = y' t q) ->
  (forall k q, k < T -> q < m -> xe k q = xe' k q) ->
  (forall q, q < p ->
     s_hidden (sample_loop theta T m p y_dim dropout y xe steps) q =
     s_hidden (sample_loop theta T m p y_dim dropout y' xe' steps) q /\
     s_cell (sample_loop theta T m p y_dim dropout y xe steps) q =
     s_cell (sample_loop theta T m p y_dim dropout y' xe' steps) q) /\
  (forall q, q < m ->
     s_context (sample_loop theta T m p y_dim dropout y xe steps) q =
     s_context (sample_loop theta T m p y_dim dropout y' xe' steps) q).
Proof.
  intros Hy Hx. induction steps as [|t IH].
  - split; intros q _; [split|]; reflexivity.
  - destruct IH as [IHs IHc]; [intros; apply Hy; lia|].
    cbn [sample_loop]. cbv zeta. cbn [s_hidden s_cell s_context].
    assert (Hctx : forall q, q < m ->
              sample_context (Linear_new theta "WU_d" (p * 2 + m) m false)
                (Linear_new theta "v_d" m 1 false) p T
                (s_hidden (sample_loop theta T m p y_dim dropout y xe t))
                (s_cell (sample_loop theta T m p y_dim dropout y xe t)) xe q =
              sample_context (Linear_new theta "WU_d" (p * 2 + m) m false)
                (Linear_new theta "v_d" m 1 false) p T
                (s_hidden (sample_loop theta T m p y_dim dropout y' xe' t))
                (s_cell (sample_loop theta T m p y_dim dropout y' xe' t)) xe' q).
    { intros q Hq. apply sample_context_ext.
      - intros r Hr. apply (proj1 (IHs r Hr)).
      - intros r Hr. apply (proj2 (IHs r Hr)).
      - intros k r Hk Hr. apply Hx; [exact Hk|]. simpl in Hr. lia.
      - intros k Hk. apply Hx; assumption. }
    split; [|exact Hctx].
    intros q Hq. apply sample_update_ext.
    + intros r Hr. apply Hy; [lia | exact Hr].
    + intros r Hr. apply Hctx. simpl in Hr. lia.
    + intros r Hr. apply (proj1 (IHs r Hr)).
    + apply (proj2 (IHs q Hq)).
Qed.

Lemma sample_forward_ext theta T m p y_dim dropout y y' xe xe' i :
  (forall t q, t < T - 1 -> q < y_dim -> y t q = y' t q) ->
  (forall k q, k < T -> q < m -> xe k q = xe' k q) ->
  sample_forward theta T m p y_dim dropout y xe i =
  sample_forward theta T m p y_dim dropout y' xe' i.
Proof.
  intros Hy Hx.
  destruct (sample_loop_ext theta T m p y_dim dropout y y' xe xe' (T - 1) Hy Hx)
    as [Hs Hc].
  unfold sample_forward. cbv zeta.
  apply Linear_apply_ext. intros q _.
  apply Linear_apply_ext. intros r Hr. simpl in Hr. unfold cat_vec.
  destruct (r <? p) eqn:E.
  - apply Nat.ltb_lt in E. apply (proj1 (Hs r E)).
  - apply Nat.ltb_ge in E. apply Hc. lia.
Qed.

(** [Decoder.forward] treats a batch entry by entry: on inputs of
    the shapes it accepts, row [b] of the prediction is the prediction
    [sample_forward] for the single sample made of row [b] of [Y] and
    column [b] of [X_encoded], that is Equations 12 to 16 iterated
    [T - 1] times from zero states, and then Equation 22. *)
Theorem Decoder_forward_refines_sample_forward
    theta n T m p y_dim dropout Y X_encoded B L :
  2 <= T -> shape Y = [B; L; y_dim] -> T - 1 <= L ->
  shape X_encoded = [T; B; m] ->
  exists y_hat_T,
    Decoder_forward Y X_encoded (Decoder theta n T m p y_dim dropout) =
    (Ok y_hat_T, Decoder theta n T m p y_dim dropout) /\
    shape y_hat_T = [B; y_dim] /\
    forall b i, b < B ->
      data y_hat_T [b; i] =
      sample_forward theta T m p y_dim dropout
        (fun t q => data Y [b; t; q]) (fun k q => data X_encoded [k; b; q]) i.
Proof.
  intros HT HY HL HX.
  exact (Decoder_forward_entry theta n T m p y_dim dropout Y X_encoded B L
           HT HY HL HX).
Qed.

Lemma Decoder_forward_refines_sample_forward_witness :
  exists y_hat_T,
    Decoder_forward (zeros [2; 4; 1]) (zeros [5; 2; 4])
      (Decoder theta1 3 5 4 4 1 0%R) =
    (Ok y_hat_T, Decoder theta1 3 5 4 4 1 0%R) /\
    shape y_hat_T = [2; 1] /\
    forall b i, b < 2 ->
      data y_hat_T [b; i] =
      sample_forward theta1 5 4 4 1 0%R
        (fun t q => data (zeros [2; 4; 1]) [b; t; q])
        (fun k q => data (zeros [5; 2; 4]) [k; b; q]) i.
Proof.
  apply (Decoder_forward_refines_sample_forward theta1 3 5 4 4 1 0%R
           (zeros [2; 4; 1]) (zeros [5; 2; 4]) 2 4);
    first [ reflexivity | simpl; lia ].
Defined.

(** No batch entry of [Decoder.forward] sees another one: if entry
    [b] of one batch and entry [b'] of another batch, possibly of another
    size and with a longer history, hold the same first [T - 1] target
    rows and the same encoder states, then the two predictions for these
    entries are equal. *)
Theorem Decoder_forward_batch_independent
    theta n T m p y_dim dropout Y X_encoded Y' X_encoded' B L B' L' b b' :
  2 <= T ->
  shape Y = [B; L; y_dim] -> T - 1 <= L -> shape X_encoded = [T; B; m] ->
  shape Y' = [B'; L'; y_dim] -> T - 1 <= L' -> shape X_encoded' = [T; B'; m] ->
  b < B -> b' < B' ->
  (forall t q, t < T - 1 -> q < y_dim ->
     data Y [b; t; q] = data Y' [b'; t; q]) ->
  (forall k q, k < T -> q < m ->
     data X_encoded [k; b; q] = data X_encoded' [k; b'; q]) ->
  exists y_hat_T y_hat_T',
    Decoder_forward Y X_encoded (Decoder theta n T m p y_dim dropout) =
    (Ok y_hat_T, Decoder theta n T m p y_dim dropout) /\
    Decoder_forward Y' X_encoded' (Decoder theta n T m p y_dim dropout) =
    (Ok y_hat_T', Decoder theta n T m p y_dim dropout) /\
    forall i, data y_hat_T [b; i] = data y_hat_T' [b'; i].
Proof.
  intros HT HY HL HX HY' HL' HX' Hb Hb' Hy Hx.
  destruct (Decoder_forward_entry theta n T m p y_dim dropout Y X_encoded B L
              HT HY HL HX) as (out & E & _ & D).
  destruct (Decoder_forward_entry theta n T m p y_dim dropout Y' X_encoded' B' L'
              HT HY' HL' HX') as (out' & E' & _ & D').
  exists out, out'. split; [exact E|]. split; [exact E'|].
  intros i. rewrite (D b i Hb), (D' b' i Hb').
  apply sample_forward_ext; assumption.
Qed.

Lemma Decoder_forward_batch_independent_witness :
  exists y_hat_T y_hat_T',
    Decoder_forward (zeros [2; 4; 1]) (zeros [5; 2; 4])
      (Decoder theta1 3 5 4 4 1 0%R) =
    (Ok y_hat_T, Decoder theta1 3 5 4 4 1 0%R) /\
    Decoder_forward (zeros [3; 6; 1]) (zeros [5; 3; 4])
      (Decoder theta1 3 5 4 4 1 0%R) =
    (Ok y_hat_T', Decoder theta1 3 5 4 4 1 0%R) /\
    forall i, data y_hat_T [1; i] = data y_hat_T' [2; i].
Proof.
  apply (Decoder_forward_batch_independent theta1 3 5 4 4 1 0%R
           (zeros [2; 4; 1]) (zeros [5; 2; 4])
           (zeros [3; 6; 1]) (zeros [5; 3; 4]) 2 4 3 6 1 2);
    first [ reflexivity | simpl; lia | intros; reflexivity ].
Defined.
